(** * Rate-limited media acquisition pipeline: a shallow embedding

    The development embeds the pacing state machine ([RateLimiter]), the
    direct-extraction downloader ([YouTubeDownloader]) and the link-scrape
    batch pipeline ([TurboScribeBatch], [ParallelAudioDownloader]) of the
    repository, and proves properties of their control flow.

    Conventions.
    - Python [float] seconds are exact rationals ([Q]); Python [int] is [Z].
    - Every outside effect (clock, sleeping, randomness, file system, network,
      third-party parsers) is an operation of the [Platform] interface over an
      abstract [World]; the embedding additionally records the effects it
      performs in a [trace].
    - A method is a computation in the monad [M], a state transformer whose
      result is either a returned value or a raised Python exception; the
      state survives a raise, as a mutated Python object does. *)

From Stdlib Require Import ZArith QArith Lia String Ascii DecimalString List.
From stdpp Require Import base gmap strings list.

Open Scope string_scope.

(** ** Python values, exceptions and a few built-ins *)

Module Py.

(** The exception classes the sources distinguish in their [except] clauses. *)
Inductive exn : Type :=
  | RequestException (msg : string)   (* requests.exceptions.RequestException, not a Timeout *)
  | Timeout (msg : string)            (* requests.exceptions.Timeout, a RequestException *)
  | DownloadError (msg : string)      (* yt_dlp.utils.DownloadError *)
  | OtherException (msg : string).    (* any other subclass of Exception: OSError, KeyError, ... *)

Definition exn_msg (e : exn) : string :=
  match e with
  | RequestException m | Timeout m | DownloadError m | OtherException m => m
  end.

(** [isinstance(e, requests.exceptions.RequestException)] *)
Definition is_request_exception (e : exn) : bool :=
  match e with
  | RequestException _ | Timeout _ => true
  | _ => false
  end.

Inductive outcome (A : Type) : Type :=
  | Returned (a : A)
  | Raised (e : exn).
Arguments Returned {A} a.
Arguments Raised {A} e.

(** The values stored in the result dictionaries. *)
Inductive value : Type :=
  | VNone
  | VInt (z : Z)
  | VStr (s : string).

(** Truth value of an object in a condition. *)
Definition truthy (v : value) : bool :=
  match v with
  | VNone => false
  | VInt z => negb (z =? 0)%Z
  | VStr s => negb (String.eqb s "")
  end.

Definition str_truthy (s : string) : bool := negb (String.eqb s "").

(** [d.get(k)]: a missing key reads as [None]. *)
Definition dict_get (d : gmap string value) (k : string) : value :=
  match d !! k with
  | Some v => v
  | None => VNone
  end.

(** [needle in hay] on strings. *)
Fixpoint str_contains (needle hay : string) : bool :=
  String.prefix needle hay ||
  match hay with
  | EmptyString => false
  | String _ rest => str_contains needle rest
  end.

(** [l[i]] with Python's negative indices; [None] stands for IndexError. *)
Definition py_index {A : Type} (l : list A) (i : Z) : option A :=
  let n := Z.of_nat (length l) in
  if (0 <=? i)%Z then l !! Z.to_nat i
  else if (0 <=? n + i)%Z then l !! Z.to_nat (n + i)
  else None.

(** [str(n)] for an integer. *)
Definition str_of_int (z : Z) : string := NilZero.string_of_int (Z.to_int z).

(** [x < y] on rationals, as a boolean. *)
Definition Qltb (x y : Q) : bool := negb (Qle_bool y x).

End Py.
Export Py.

(** ** The monad of methods *)

Definition M (S A : Type) : Type := S -> outcome A * S.

Definition ret {S A : Type} (a : A) : M S A := fun s => (Returned a, s).

Definition bind {S A B : Type} (m : M S A) (k : A -> M S B) : M S B :=
  fun s =>
    match m s with
    | (Returned a, s') => k a s'
    | (Raised e, s') => (Raised e, s')
    end.

Definition raise {S A : Type} (e : exn) : M S A := fun s => (Raised e, s).

(** A pure computation that may raise. *)
Definition lift_outcome {S A : Type} (o : outcome A) : M S A := fun s => (o, s).

(** [try: body except ...]: [handler e] is [Some h] when an [except] clause
    matches [e]; an unmatched exception propagates. *)
Definition try_except {S A : Type} (body : M S A) (handler : exn -> option (M S A)) : M S A :=
  fun s =>
    match body s with
    | (Returned a, s') => (Returned a, s')
    | (Raised e, s') =>
        match handler e with
        | Some h => h s'
        | None => (Raised e, s')
        end
    end.

Definition gets {S A : Type} (f : S -> A) : M S A := fun s => (Returned (f s), s).
Definition modify {S : Type} (f : S -> S) : M S unit := fun s => (Returned tt, f s).

Notation "x <- m ;; k" := (bind m (fun x => k))
  (at level 100, m at next level, right associativity).
Notation "m ;;; k" := (bind m (fun _ => k))
  (at level 100, right associativity).

(** Final state and result of running a method. *)
Definition exec {S A : Type} (m : M S A) (s : S) : S := snd (m s).
Definition result {S A : Type} (m : M S A) (s : S) : outcome A := fst (m s).

(** ** Effects *)

(** The effects recorded in the trace: blocking sleeps, network calls and
    file-system writes. *)
Inductive event : Type :=
| Sleep (seconds : Q)                       (* time.sleep(seconds) *)
| ExtractInfo (url : string)                (* ydl.extract_info(url, download=False) *)
| YdlDownload (url : string)                (* ydl.download([url]) *)
| HttpPost (endpoint : string) (url : string) (* session.post(endpoint, json={"url": url}) *)
| HttpGet (url : string)                    (* requests.get(url, stream=True) *)
| Mkdir (path : string)
| WriteFile (path : string).

Definition is_network (ev : event) : bool :=
  match ev with
  | ExtractInfo _ | YdlDownload _ | HttpPost _ _ | HttpGet _ => true
  | _ => false
  end.

Definition is_sleep (ev : event) : bool :=
  match ev with
  | Sleep _ => true
  | _ => false
  end.

(** An HTTP response as the batch code reads it. *)
Record Response : Type := {
  status_code : Z;
  content_encoding : option string;   (* headers.get('Content-Encoding') *)
  content : string;                   (* response.content, the raw body *)
  text : string                       (* response.text *)
}.

(** What probing a downloaded file yields ([_extract_audio_metadata]). *)
Record AudioMetadata : Type := {
  codec : string;
  sample_rate : Z;
  bit_rate : Z;
  channels : Z;
  duration_sec : Q;
  file_size : Z
}.

(** A start tag as [HTMLParser] hands it to [handle_starttag]. *)
Definition start_tag : Type := (string * list (string * option string))%type.

(** What is written to a file: text, or the JSON metadata record that
    [_save_metadata] builds from the video id, the extractor's info and the
    probed audio metadata. *)
Inductive payload : Type :=
| Text (s : string)
| MetadataJson (video_id : string) (video_info : gmap string value) (audio : AudioMetadata).

(** The outside world: standard library, third-party libraries and the
    operating system. *)
Class Platform (World : Type) : Type := {
  time_time : World -> Q;                                  (* time.time() *)
  time_sleep : Q -> World -> World;                        (* time.sleep(d), d >= 0 *)
  time_strftime : World -> string;                         (* time.strftime("%Y%m%d_%H%M%S") *)
  random_random : World -> Q * World;                      (* random.random() *)
  path_exists : string -> World -> bool;                   (* Path.exists() *)
  path_size : string -> World -> Z;                        (* Path.stat().st_size *)
  path_mkdir : string -> World -> outcome unit * World;    (* Path.mkdir(exist_ok=True) *)
  file_write : string -> payload -> World -> outcome unit * World;
  parse_speed_limit : string -> outcome Z;                 (* the float/int conversions of _parse_speed_limit *)
  ydl_extract_info : string -> World -> outcome (gmap string value) * World;
  ydl_download : string -> string -> World -> outcome unit * World;
  probe_audio : string -> World -> outcome AudioMetadata;  (* the try block of _extract_audio_metadata *)
  session_post : string -> string -> World -> outcome Response * World;
  requests_get_to_file : string -> string -> World -> outcome Z * World;
  zstd_decompress : string -> option string;               (* None when decompressing or decoding raises *)
  html_feed : string -> option (list start_tag);           (* HTMLParser.feed: the start tags in
                                                              document order, None when it raises *)
  html_unescape : string -> string;                        (* html.unescape *)
  pathlib_join : string -> string -> string                (* str(Path(dir) / name) *)
}.

Record Env (World : Type) : Type := {
  world : World;
  trace : list event
}.
Arguments world {World} e.
Arguments trace {World} e.
Arguments Build_Env {World} world trace.

(** What opening and reading a text file line by line yields. *)
Inductive read_outcome : Type :=
| Lines (ls : list string)          (* the lines, each with its line break *)
| FileNotFound                      (* FileNotFoundError *)
| ReadFails (x : exn).              (* any other exception of open() or of the iteration *)

(** One entry of a flat channel listing: [None], or a dictionary. *)
Definition entry : Type := option (gmap string value).

(** Further library operations, used by the file and channel front ends. *)
Class Library (World : Type) : Type := {
  (* ydl.extract_info(url, download=False) with extract_flat: the value under
     'entries', None when the answer has no such key *)
  ydl_extract_flat : string -> World -> outcome (option (list entry)) * World;
  (* open(path, 'r', encoding='utf-8') and the iteration over the lines *)
  read_lines : string -> World -> read_outcome;
  (* str.strip() *)
  str_strip : string -> string
}.

Section Primitives.
Context {World : Type} `{Platform World} {Self : Type}.

(** Run a world operation and record it. *)
Definition call {A : Type} (ev : event) (op : World -> outcome A * World) : M (Self * Env World) A :=
    fun '(o, e) =>
      let (r, w') := op (world e) in
      (r, (o, {| world := w'; trace := trace e ++ [ev] |})).

Definition py_time : M (Self * Env World) Q :=
    fun '(o, e) => (Returned (time_time (world e)), (o, e)).

(** [time.sleep(d)]; a negative length raises ValueError. *)
Definition py_sleep (d : Q) : M (Self * Env World) unit :=
    fun '(o, e) =>
      if Qltb d 0 then (Raised (OtherException "sleep length must be non-negative"), (o, e))
      else (Returned tt, (o, {| world := time_sleep d (world e); trace := trace e ++ [Sleep d] |})).

(** [random.uniform(a, b)] is [a + (b - a) * random()]. *)
Definition py_uniform (a b : Q) : M (Self * Env World) Q :=
    fun '(o, e) =>
      let (r, w') := random_random (world e) in
      (Returned (a + (b - a) * r)%Q, (o, {| world := w'; trace := trace e |})).

Definition py_strftime : M (Self * Env World) string :=
    fun '(o, e) => (Returned (time_strftime (world e)), (o, e)).

Definition py_exists (p : string) : M (Self * Env World) bool :=
    fun '(o, e) => (Returned (path_exists p (world e)), (o, e)).

Definition get_self : M (Self * Env World) Self := gets fst.
Definition set_self (f : Self -> Self) : M (Self * Env World) unit :=
    modify (fun '(o, e) => (f o, e)).

End Primitives.

(** Run a method of a component object inside a method of its owner. *)
Definition zoom {S T E A : Type} (getc : S -> T) (setc : T -> S -> S)
    (m : M (T * E) A) : M (S * E) A :=
  fun '(o, e) =>
    match m (getc o, e) with
    | (r, (c', e')) => (r, (setc c' o, e'))
    end.

(** ** RateLimiter *)

Module RateLimiter.

Record t : Type := {
    min_delay : Q;
    max_delay : Q;
    download_delay_min : Q;
    download_delay_max : Q;
    last_request_time : Q;
    last_download_time : Q;
    error_count : Z
  }.

(** [__init__], with its defaults in [default]. *)
Definition init (min_delay max_delay download_delay_min download_delay_max : Q) : t :=
    {| min_delay := min_delay; max_delay := max_delay;
       download_delay_min := download_delay_min; download_delay_max := download_delay_max;
       last_request_time := 0; last_download_time := 0; error_count := 0 |}.

Definition default : t := init 3 5 5 10.

Definition set_last_request_time (x : Q) (rl : t) : t :=
    {| min_delay := min_delay rl; max_delay := max_delay rl;
       download_delay_min := download_delay_min rl; download_delay_max := download_delay_max rl;
       last_request_time := x; last_download_time := last_download_time rl;
       error_count := error_count rl |}.

Definition set_last_download_time (x : Q) (rl : t) : t :=
    {| min_delay := min_delay rl; max_delay := max_delay rl;
       download_delay_min := download_delay_min rl; download_delay_max := download_delay_max rl;
       last_request_time := last_request_time rl; last_download_time := x;
       error_count := error_count rl |}.

Definition set_error_count (n : Z) (rl : t) : t :=
    {| min_delay := min_delay rl; max_delay := max_delay rl;
       download_delay_min := download_delay_min rl; download_delay_max := download_delay_max rl;
       last_request_time := last_request_time rl; last_download_time := last_download_time rl;
       error_count := n |}.

(** [min(2 ** self.error_count, 60)] *)
Definition backoff (error_count : Z) : Z := Z.min (2 ^ error_count) 60.

(** The local [delay] of [wait_for_request] once the jitter is drawn. *)
Definition request_delay (rl : t) (jitter : Q) : Q :=
    if (0 <? error_count rl)%Z then (jitter + inject_Z (backoff (error_count rl)))%Q
    else jitter.

Definition wait_times : list Z := [30; 60; 120]%Z.

(** [error_code == c] for an optional integer. *)
Definition code_is (error_code : option Z) (c : Z) : bool :=
  match error_code with
  | Some x => (x =? c)%Z
  | None => false
  end.

Section Methods.
Context {World : Type} `{Platform World}.

Definition wait_for_request : M (t * Env World) unit :=
      self <- get_self ;;
      jitter <- py_uniform (min_delay self) (max_delay self) ;;
      let delay := request_delay self jitter in
      now <- py_time ;;
      let elapsed := (now - last_request_time self)%Q in
      (if Qltb elapsed delay then py_sleep (delay - elapsed)%Q else ret tt) ;;;
      now' <- py_time ;;
      set_self (set_last_request_time now').

Definition wait_for_download : M (t * Env World) unit :=
      self <- get_self ;;
      delay <- py_uniform (download_delay_min self) (download_delay_max self) ;;
      now <- py_time ;;
      let elapsed := (now - last_download_time self)%Q in
      (if Qltb elapsed delay then py_sleep (delay - elapsed)%Q else ret tt) ;;;
      now' <- py_time ;;
      set_self (set_last_download_time now').

Definition on_error (error_code : option Z) : M (t * Env World) unit :=
  set_self (fun rl => set_error_count (error_count rl + 1) rl) ;;;
  if code_is error_code 403 then
    self <- get_self ;;
    match py_index wait_times
            (Z.min (error_count self - 1) (Z.of_nat (length wait_times) - 1)) with
    | Some wait_time => py_sleep (inject_Z wait_time)
    | None => raise (OtherException "list index out of range")
    end
  else ret tt.

Definition on_success : M (t * Env World) unit :=
      set_self (set_error_count 0).

    (** The four operations, for statements about arbitrary call sequences. *)
Inductive op : Type :=
    | WaitForRequest
    | WaitForDownload
    | OnError (error_code : option Z)
    | OnSuccess.

Definition run_op (o : op) : M (t * Env World) unit :=
      match o with
      | WaitForRequest => wait_for_request
      | WaitForDownload => wait_for_download
      | OnError c => on_error c
      | OnSuccess => on_success
      end.

Fixpoint run_ops (os : list op) : M (t * Env World) unit :=
      match os with
      | [] => ret tt
      | o :: rest => run_op o ;;; run_ops rest
      end.

End Methods.

End RateLimiter.

(** One line of the printed summary: literal text, a label followed by an
    integer, or a label followed by a percentage shown with one decimal. *)
Inductive line : Type :=
| Out (s : string)
| Count (label : string) (n : Z)
| Rate (label : string) (percent : Q).

(** ** YouTubeDownloader *)

Module YouTubeDownloader.

(** [self.stats], a dictionary with the four fixed keys. *)
Record Stats : Type := {
  total : Z;
  success : Z;
  failed : Z;
  skipped : Z
}.

Record t : Type := {
  output_dir : string;
  rate_limiter : RateLimiter.t;
  max_retries : Z;
  speed_limit : string;
  stats : Stats
}.

Definition set_rate_limiter (rl : RateLimiter.t) (self : t) : t :=
  {| output_dir := output_dir self; rate_limiter := rl; max_retries := max_retries self;
     speed_limit := speed_limit self; stats := stats self |}.

Definition set_stats (f : Stats -> Stats) (self : t) : t :=
  {| output_dir := output_dir self; rate_limiter := rate_limiter self;
     max_retries := max_retries self; speed_limit := speed_limit self;
     stats := f (stats self) |}.

Definition incr_total (st : Stats) : Stats :=
  {| total := total st + 1; success := success st; failed := failed st; skipped := skipped st |}.
Definition incr_success (st : Stats) : Stats :=
  {| total := total st; success := success st + 1; failed := failed st; skipped := skipped st |}.
Definition incr_failed (st : Stats) : Stats :=
  {| total := total st; success := success st; failed := failed st + 1; skipped := skipped st |}.
Definition incr_skipped (st : Stats) : Stats :=
  {| total := total st; success := success st; failed := failed st; skipped := skipped st + 1 |}.

Definition rule60 : string := "============================================================".

Section Methods.
Context {World : Type} `{Platform World}.

(** [dir / name] on paths. *)
Definition path_join (dir name : string) : string := pathlib_join dir name.

(** [__init__]: creates the output directory, installs the given or a default
    rate limiter and zeroes the statistics. *)
Definition init (output_dir : string) (rate_limiter : option RateLimiter.t)
    (max_retries : Z) (speed_limit : string) (e : Env World) : outcome t * Env World :=
  let (r, w') := path_mkdir output_dir (world e) in
  let e' := {| world := w'; trace := trace e ++ [Mkdir output_dir] |} in
  match r with
  | Returned _ =>
      (Returned {| output_dir := output_dir;
                   rate_limiter := match rate_limiter with
                                   | Some rl => rl
                                   | None => RateLimiter.default
                                   end;
                   max_retries := max_retries;
                   speed_limit := speed_limit;
                   stats := {| total := 0; success := 0; failed := 0; skipped := 0 |} |}, e')
  | Raised ex => (Raised ex, e')
  end.

Definition with_rate_limiter {A : Type} (m : M (RateLimiter.t * Env World) A)
    : M (t * Env World) A :=
  zoom rate_limiter set_rate_limiter m.

(** Returns the output template; the remaining options are constants. *)
Definition _get_ydl_opts (video_id : string) : M (t * Env World) string :=
  self <- get_self ;;
  let video_dir := path_join (output_dir self) video_id in
  call (Mkdir video_dir) (path_mkdir video_dir) ;;;
  match parse_speed_limit (speed_limit self) with
  | Returned _ => ret (path_join video_dir (video_id ++ ".%(ext)s"))
  | Raised ex => raise ex
  end.

Definition _extract_audio_metadata (audio_file : string) : M (t * Env World) AudioMetadata :=
  fun '(o, e) =>
    match probe_audio audio_file (world e) with
    | Returned md => (Returned md, (o, e))
    | Raised _ =>
        (Returned {| codec := "unknown"; sample_rate := 0; bit_rate := 0; channels := 0;
                     duration_sec := 0;
                     file_size := if path_exists audio_file (world e)
                                  then path_size audio_file (world e) else 0 |}, (o, e))
    end.

Definition _save_metadata (video_id : string) (video_info : gmap string value)
    (audio_metadata : AudioMetadata) : M (t * Env World) unit :=
  self <- get_self ;;
  let video_dir := path_join (output_dir self) video_id in
  let metadata_file := path_join video_dir (video_id ++ ".json") in
  call (WriteFile metadata_file)
       (file_write metadata_file (MetadataJson video_id video_info audio_metadata)).

(** [video_info['id']], then used as a path component. *)
Definition info_id (video_info : gmap string value) : M (t * Env World) string :=
  match video_info !! "id" with
  | Some (VStr video_id) => ret video_id
  | Some _ => raise (OtherException "unsupported operand type(s) for /")
  | None => raise (OtherException "KeyError: 'id'")
  end.

Definition download_video_body (url : string) : M (t * Env World) (bool * option string) :=
  with_rate_limiter RateLimiter.wait_for_request ;;;
  video_info <- call (ExtractInfo url) (ydl_extract_info url) ;;
  video_id <- info_id video_info ;;
  self <- get_self ;;
  let video_dir := path_join (output_dir self) video_id in
  let audio_file := path_join video_dir (video_id ++ ".m4a") in
  let metadata_file := path_join video_dir (video_id ++ ".json") in
  audio_exists <- py_exists audio_file ;;
  metadata_exists <- py_exists metadata_file ;;
  if audio_exists && metadata_exists then
    set_self (set_stats incr_skipped) ;;;
    ret (true, Some video_id)
  else
    with_rate_limiter RateLimiter.wait_for_download ;;;
    ydl_opts <- _get_ydl_opts video_id ;;
    call (YdlDownload url) (ydl_download url ydl_opts) ;;;
    audio_metadata <- _extract_audio_metadata audio_file ;;
    _save_metadata video_id video_info audio_metadata ;;;
    set_self (set_stats incr_success) ;;;
    with_rate_limiter RateLimiter.on_success ;;;
    ret (true, Some video_id).

Definition download_video_handler (e : exn) : option (M (t * Env World) (bool * option string)) :=
  match e with
  | DownloadError error_msg =>
      Some ((if str_contains "403" error_msg || str_contains "Forbidden" error_msg
             then with_rate_limiter (RateLimiter.on_error (Some 403%Z))
             else with_rate_limiter (RateLimiter.on_error None)) ;;;
            set_self (set_stats incr_failed) ;;;
            ret (false, None))
  | _ =>
      Some (with_rate_limiter (RateLimiter.on_error None) ;;;
            set_self (set_stats incr_failed) ;;;
            ret (false, None))
  end.

Definition download_video (url : string) : M (t * Env World) (bool * option string) :=
  set_self (set_stats incr_total) ;;;
  try_except (download_video_body url) download_video_handler.

(** A run of calls, as the loops of [download_from_file] and
    [download_channel] make them. *)
Fixpoint download_all (urls : list string) : M (t * Env World) (list (bool * option string)) :=
  match urls with
  | [] => ret []
  | url :: rest =>
      r <- download_video url ;;
      rs <- download_all rest ;;
      ret (r :: rs)
  end.

End Methods.

Definition print_summary (self : t) : list line :=
  let st := stats self in
  [Out ""; Out rule60; Out "DOWNLOAD SUMMARY"; Out rule60;
   Count "Total URLs processed: " (total st);
   Count "✓ Successful:        " (success st);
   Count "⊘ Skipped (exists):  " (skipped st);
   Count "✗ Failed:            " (failed st);
   Out rule60]
  ++ (if (0 <? total st)%Z
      then [Rate "Success rate: " ((inject_Z (success st) / inject_Z (total st)) * 100)%Q]
      else [])
  ++ [Out rule60; Out ""].

(** [videos[:n]] *)
Definition py_slice_to {A : Type} (l : list A) (n : Z) : list A :=
  if (0 <=? n)%Z then take (Z.to_nat n) l
  else take (Z.to_nat (Z.of_nat (length l) + n)) l.

(** [f"{v}"] *)
Definition fmt_value (v : value) : string :=
  match v with
  | VNone => "None"
  | VInt z => str_of_int z
  | VStr s => s
  end.

Definition watch_url (video_id : string) : string :=
  "https://www.youtube.com/watch?v=" ++ video_id.

(** [if max_videos: videos = videos[:max_videos]] *)
Definition cap_videos {A : Type} (max_videos : option Z) (videos : list A) : list A :=
  match max_videos with
  | Some n => if (n =? 0)%Z then videos else py_slice_to videos n
  | None => videos
  end.

(** The test of [download_from_file] for a channel URL. *)
Definition is_channel_url (url : string) : bool :=
  str_contains "/channel/" url || str_contains "/@" url ||
  str_contains "/c/" url || str_contains "/user/" url.

Section Collections.
Context {World : Type} `{Platform World} `{Library World}.

(** The loop of [download_channel] over the listing: [None] entries are
    passed over, an entry without ['id'] raises KeyError. *)
Fixpoint download_entries (videos : list entry) (results : list (bool * option string))
    : M (t * Env World) (list (bool * option string)) :=
  match videos with
  | [] => ret results
  | None :: rest => download_entries rest results
  | Some video :: rest =>
      match video !! "id" with
      | None => raise (OtherException "KeyError: 'id'")
      | Some v =>
          result <- download_video (watch_url (fmt_value v)) ;;
          download_entries rest (results ++ [result])%list
      end
  end.

Definition download_channel (channel_url : string) (max_videos : option Z)
    : M (t * Env World) (list (bool * option string)) :=
  try_except
    (channel_info <- call (ExtractInfo channel_url) (ydl_extract_flat channel_url) ;;
     match channel_info with
     | None => ret []
     | Some videos => download_entries (cap_videos max_videos videos) []
     end)
    (fun _ => Some (ret [])).

(** [[line.strip() for line in f if line.strip() and not line.startswith('#')]] *)
Fixpoint url_lines (lines : list string) : list string :=
  match lines with
  | [] => []
  | line :: rest =>
      if str_truthy (str_strip line) && negb (String.prefix "#" line)
      then str_strip line :: url_lines rest
      else url_lines rest
  end.

(** The loop of [download_from_file]. *)
Fixpoint download_urls (urls : list string) (results : list (bool * option string))
    : M (t * Env World) (list (bool * option string)) :=
  match urls with
  | [] => ret results
  | url :: rest =>
      if is_channel_url url then
        channel_results <- download_channel url None ;;
        download_urls rest (results ++ channel_results)%list
      else
        result <- download_video url ;;
        download_urls rest (results ++ [result])%list
  end.

(** Only FileNotFoundError is caught. *)
Definition download_from_file (urls_file : string)
    : M (t * Env World) (list (bool * option string)) :=
  fun '(o, e) =>
    match read_lines urls_file (world e) with
    | Lines lines => download_urls (url_lines lines) [] (o, e)
    | FileNotFound => (Returned [], (o, e))
    | ReadFails x => (Raised x, (o, e))
    end.

End Collections.

End YouTubeDownloader.

(** ** TurboScribeBatch *)

Module TurboScribeBatch.

Record t : Type := {
  api_url : string;
  delay : Q
}.

(** [__init__]; loading the header and cookie files into the session is left
    to the session behind [session_post]. *)
Definition init (delay : Q) : t :=
  {| api_url := "https://turboscribe.ai/_htmx/NCN20gAEkZMBzQPXkQc"; delay := delay |}.

Definition opt_str (o : option string) : value :=
  match o with
  | Some s => VStr s
  | None => VNone
  end.

(** [s.lower()] on the ASCII letters, which decides a comparison with an
    ASCII literal. *)
Definition ascii_lower (c : ascii) : ascii :=
  let n := nat_of_ascii c in
  if (65 <=? n)%nat && (n <=? 90)%nat then ascii_of_nat (n + 32) else c.

Fixpoint str_lower (s : string) : string :=
  match s with
  | EmptyString => EmptyString
  | String c rest => String (ascii_lower c) (str_lower rest)
  end.

(** [s.split(sep)] for a non-empty separator: [skip] counts the characters of
    a matched separator still to drop, [cur] is the piece being read. *)
Fixpoint str_split_aux (sep : string) (skip : nat) (cur : string) (s : string) : list string :=
  match s with
  | EmptyString => [cur]
  | String c rest =>
      match skip with
      | S k => str_split_aux sep k cur rest
      | O =>
          if String.prefix sep s
          then cur :: str_split_aux sep (String.length sep - 1) "" rest
          else str_split_aux sep 0 (cur ++ String c "") rest
      end
  end.

Definition str_split (sep s : string) : list string := str_split_aux sep 0 "" s.

(** *** AudioLinkExtractor *)

Record AudioLinkExtractor : Type := {
  audio_link : option string;
  found : bool
}.

Section Methods.
Context {World : Type} `{Platform World}.

(** The [for] loop over the attributes of one tag: the first [href] whose
    value carries the marker. *)
Fixpoint scan_attrs (attrs : list (string * option string)) : option string :=
  match attrs with
  | [] => None
  | (attr_name, attr_value) :: rest =>
      match attr_value with
      | Some v =>
          if String.eqb attr_name "href" && str_truthy v && str_contains "mime=audio%2Fwebm" v
          then Some (html_unescape v)
          else scan_attrs rest
      | None => scan_attrs rest
      end
  end.

Definition handle_starttag (p : AudioLinkExtractor) (tg : start_tag) : AudioLinkExtractor :=
  let (tag, attrs) := tg in
  if String.eqb tag "a" && negb (found p) then
    match scan_attrs attrs with
    | Some link => {| audio_link := Some link; found := true |}
    | None => p
    end
  else p.

(** What [parser.feed] raises on a page it does not accept, such as one with
    a marked section of unknown keyword; it is no [RequestException]. *)
Definition parser_error : exn := OtherException "AssertionError".

(** [parser.feed(html_content)], then [parser.audio_link]: when [feed]
    raises, so does the method, whatever the parser had found. *)
Definition _extract_audio_link (html_content : string) : outcome (option string) :=
  match html_feed html_content with
  | Some tags =>
      Returned (audio_link (fold_left handle_starttag tags
                                      {| audio_link := None; found := false |}))
  | None => Raised parser_error
  end.

Definition _decode_response_content (response : Response) : string :=
  let encoding := str_lower (match content_encoding response with
                             | Some v => v
                             | None => ""
                             end) in
  if String.eqb encoding "zstd" then
    match zstd_decompress (content response) with
    | Some decompressed => decompressed
    | None => text response
    end
  else text response.

Definition _extract_video_id (youtube_url : string) : M (t * Env World) string :=
  if str_contains "v=" youtube_url then
    match py_index (str_split "v=" youtube_url) 1 with
    | Some part =>
        match py_index (str_split "&" part) 0 with
        | Some video_id => ret video_id
        | None => py_strftime
        end
    | None => py_strftime
    end
  else if str_contains "youtu.be/" youtube_url then
    match py_index (str_split "youtu.be/" youtube_url) 1 with
    | Some part =>
        match py_index (str_split "?" part) 0 with
        | Some video_id => ret video_id
        | None => py_strftime
        end
    | None => py_strftime
    end
  else py_strftime.

Definition audio_ext (audio_url : string) : string :=
  if str_contains "mime=audio%2Fwebm" audio_url || str_contains "mime=audio/webm" audio_url
  then "weba"
  else if str_contains "mime=audio%2Fmp4" audio_url || str_contains "mime=audio/mp4" audio_url
  then "m4a"
  else "audio".

(** Both [except] clauses return [None]; the streaming loop that writes the
    chunks is inside [requests_get_to_file]. *)
Definition _download_audio (audio_url video_id : string) : M (t * Env World) (option string) :=
  try_except
    (call (Mkdir "audio_downloads") (path_mkdir "audio_downloads") ;;;
     let ext := audio_ext audio_url in
     timestamp <- py_strftime ;;
     let filename := video_id ++ "_" ++ timestamp ++ "." ++ ext in
     let filepath := pathlib_join "audio_downloads" filename in
     call (HttpGet audio_url) (requests_get_to_file audio_url filepath) ;;;
     ret (Some filepath))
    (fun _ => Some (ret None)).

Definition _save_html_response (youtube_url html_content : string) : M (t * Env World) string :=
  video_id <- _extract_video_id youtube_url ;;
  call (Mkdir "html_responses") (path_mkdir "html_responses") ;;;
  timestamp <- py_strftime ;;
  let filename := video_id ++ "_" ++ timestamp ++ ".html" in
  let filepath := pathlib_join "html_responses" filename in
  call (WriteFile filepath) (file_write filepath (Text html_content)) ;;;
  ret filepath.

Definition process_single_url_body (youtube_url : string) (save_html download_audio : bool)
    : M (t * Env World) (gmap string value) :=
  self <- get_self ;;
  response <- call (HttpPost (api_url self) youtube_url)
                   (session_post (api_url self) youtube_url) ;;
  if (status_code response =? 200)%Z then
    let decoded_content := _decode_response_content response in
    html_file <- (if save_html && str_truthy decoded_content
                  then (f <- _save_html_response youtube_url decoded_content ;; ret (VStr f))
                  else ret VNone) ;;
    audio_file <- (if download_audio && str_truthy decoded_content
                   then (audio_link <- lift_outcome (_extract_audio_link decoded_content) ;;
                         match audio_link with
                         | Some link =>
                             if str_truthy link
                             then (video_id <- _extract_video_id youtube_url ;;
                                   _download_audio link video_id)
                             else ret None
                         | None => ret None
                         end)
                   else ret None) ;;
    ret (list_to_map [("url", VStr youtube_url);
                      ("status", VStr "success");
                      ("response", VStr decoded_content);
                      ("status_code", VInt (status_code response));
                      ("html_file", html_file);
                      ("audio_file", opt_str audio_file)])
  else
    ret (list_to_map [("url", VStr youtube_url);
                      ("status", VStr "failed");
                      ("error", VStr ("HTTP " ++ str_of_int (status_code response)));
                      ("response", VStr (text response))]).

(** [except requests.exceptions.RequestException as e] *)
Definition process_single_url_handler (youtube_url : string) (e : exn)
    : option (M (t * Env World) (gmap string value)) :=
  if is_request_exception e then
    Some (ret (list_to_map [("url", VStr youtube_url);
                            ("status", VStr "error");
                            ("error", VStr (exn_msg e))]))
  else None.

Definition process_single_url (youtube_url : string) (save_html download_audio : bool)
    : M (t * Env World) (gmap string value) :=
  try_except (process_single_url_body youtube_url save_html download_audio)
             (process_single_url_handler youtube_url).

(** The loop of [process_batch]: [idx] is the 1-based position of the head of
    [youtube_urls], [results] the list built so far. *)
Fixpoint process_batch_loop (total idx : nat) (youtube_urls : list string)
    (save_html download_audio : bool) (results : list (gmap string value))
    : M (t * Env World) (list (gmap string value)) :=
  match youtube_urls with
  | [] => ret results
  | url :: rest =>
      r <- process_single_url url save_html download_audio ;;
      let results := (results ++ [r])%list in
      (if (idx <? total)%nat
       then (self <- get_self ;; py_sleep (delay self))
       else ret tt) ;;;
      process_batch_loop total (S idx) rest save_html download_audio results
  end.

Definition process_batch (youtube_urls : list string) (save_html download_audio : bool)
    : M (t * Env World) (list (gmap string value)) :=
  process_batch_loop (length youtube_urls) 1 youtube_urls save_html download_audio [].

End Methods.

(** [r['status'] == 'success']; a dictionary without the key raises KeyError. *)
Definition status_is_success (r : gmap string value) : outcome bool :=
  match r !! "status" with
  | Some (VStr s) => Returned (String.eqb s "success")
  | Some _ => Returned false
  | None => Raised (OtherException "KeyError: 'status'")
  end.

(** [sum(1 for r in results if r['status'] == 'success')] *)
Fixpoint count_success (results : list (gmap string value)) : outcome Z :=
  match results with
  | [] => Returned 0%Z
  | r :: rest =>
      match status_is_success r with
      | Raised e => Raised e
      | Returned b =>
          match count_success rest with
          | Raised e => Raised e
          | Returned n => Returned ((if b then 1 else 0) + n)%Z
          end
      end
  end.

Definition rule50 : string := "==================================================".

Definition print_summary (results : list (gmap string value)) : outcome (list line) :=
  let total := Z.of_nat (length results) in
  match count_success results with
  | Raised e => Raised e
  | Returned success =>
      let failed := (total - success)%Z in
      Returned [Out ""; Out rule50; Out "處理摘要"; Out rule50;
                Count "總計: " total;
                Count "成功: " success;
                Count "失敗: " failed;
                Out rule50; Out ""]
  end.

End TurboScribeBatch.

(** ** ParallelAudioDownloader *)

Module ParallelAudioDownloader.
Import TurboScribeBatch.

Record t : Type := {
  processor : TurboScribeBatch.t;
  max_workers : Z
}.

(** [__init__]; the default bound is 3. *)
Definition init (processor : TurboScribeBatch.t) (max_workers : option Z) : t :=
  {| processor := processor;
     max_workers := match max_workers with
                    | Some w => w
                    | None => 3%Z
                    end |}.

Definition set_processor (p : TurboScribeBatch.t) (self : t) : t :=
  {| processor := p; max_workers := max_workers self |}.

(** [r['status'] == 'success' and r.get('audio_link')] *)
Definition is_download_task (r : gmap string value) : outcome bool :=
  match status_is_success r with
  | Returned b => Returned (b && truthy (dict_get r "audio_link"))
  | Raised e => Raised e
  end.

(** The positions in [results] of the dictionaries selected into
    [download_tasks]; the list holds references to the same objects, which a
    position in [results] identifies. *)
Fixpoint task_indices_from (i : nat) (results : list (gmap string value)) : outcome (list nat) :=
  match results with
  | [] => Returned []
  | r :: rest =>
      match is_download_task r with
      | Raised e => Raised e
      | Returned b =>
          match task_indices_from (S i) rest with
          | Raised e => Raised e
          | Returned l => Returned (if b then i :: l else l)
          end
      end
  end.

Definition task_indices (results : list (gmap string value)) : outcome (list nat) :=
  task_indices_from 0 results.

Section Methods.
Context {World : Type} `{Platform World}.

(** The order in which the executor completes the submitted tasks; each task
    is run to completion at its turn. *)
Variable schedule : list nat -> list nat.

Definition with_processor {A : Type} (m : M (TurboScribeBatch.t * Env World) A)
    : M (t * Env World) A :=
  zoom processor set_processor m.

(** [_extract_video_id] on a dictionary value: on a non-string the membership
    test raises inside the bare [except], which returns the timestamp. *)
Definition _extract_video_id_dyn (v : value) : M (TurboScribeBatch.t * Env World) string :=
  match v with
  | VStr youtube_url => _extract_video_id youtube_url
  | _ => py_strftime
  end.

(** [_download_audio] on a dictionary value: on a non-string the membership
    test raises after the directory is made, and [None] is returned. *)
Definition _download_audio_dyn (v : value) (video_id : string)
    : M (TurboScribeBatch.t * Env World) (option string) :=
  match v with
  | VStr audio_url => _download_audio audio_url video_id
  | _ =>
      try_except
        (call (Mkdir "audio_downloads") (path_mkdir "audio_downloads") ;;;
         raise (OtherException "argument is not iterable"))
        (fun _ => Some (ret None))
  end.

Definition download_audio_task (result : gmap string value)
    : M (t * Env World) (gmap string value) :=
  is_task <- lift_outcome (is_download_task result) ;;
  if is_task then
    match result !! "url" with
    | None => raise (OtherException "KeyError: 'url'")
    | Some url =>
        video_id <- with_processor (_extract_video_id_dyn url) ;;
        match result !! "audio_link" with
        | None => raise (OtherException "KeyError: 'audio_link'")
        | Some link =>
            audio_file <- with_processor (_download_audio_dyn link video_id) ;;
            ret (<["audio_file" := opt_str audio_file]> result)
        end
    end
  else ret result.

(** Step 1, serial: one [process_single_url] per URL with the download
    switched off, then the link is extracted into the result. *)
Fixpoint resolve_loop (total idx : nat) (urls : list string)
    (results : list (gmap string value)) : M (t * Env World) (list (gmap string value)) :=
  match urls with
  | [] => ret results
  | url :: rest =>
      result <- with_processor (process_single_url url true false) ;;
      ok <- lift_outcome (status_is_success result) ;;
      result <- (if ok && truthy (dict_get result "response") then
                   match result !! "response" with
                   | Some (VStr response) =>
                       audio_link <- lift_outcome (_extract_audio_link response) ;;
                       ret (<["audio_link" := opt_str audio_link]> result)
                   | _ => raise (OtherException "TypeError")
                   end
                 else ret result) ;;
      let results := (results ++ [result])%list in
      (if (idx <? total)%nat
       then (self <- get_self ;; py_sleep (delay (processor self)))
       else ret tt) ;;;
      resolve_loop total (S idx) rest results
  end.

(** Step 2: the tasks run in completion order; each one updates its own
    dictionary, which stays at its position in [results]. *)
Fixpoint run_tasks (order : list nat) (results : list (gmap string value))
    : M (t * Env World) (list (gmap string value)) :=
  match order with
  | [] => ret results
  | i :: rest =>
      match results !! i with
      | Some r =>
          r' <- download_audio_task r ;;
          run_tasks rest (<[i := r']> results)
      | None => run_tasks rest results
      end
  end.

(** [ThreadPoolExecutor(max_workers=...)] raises ValueError on a bound that is
    not positive. *)
Definition process_with_parallel_download (urls : list string)
    : M (t * Env World) (list (gmap string value)) :=
  results <- resolve_loop (length urls) 1 urls [] ;;
  download_tasks <- lift_outcome (task_indices results) ;;
  match download_tasks with
  | [] => ret results
  | _ =>
      self <- get_self ;;
      if (max_workers self <=? 0)%Z
      then raise (OtherException "max_workers must be greater than 0")
      else run_tasks (schedule download_tasks) results
  end.

End Methods.

End ParallelAudioDownloader.

(** ** batch_from_file: the URL file reader *)

Module BatchFromFile.

(** How a function that may leave through [sys.exit] ends. *)
Inductive ending (A : Type) : Type :=
| Done (a : A)
| SysExit (code : Z)
| Uncaught (x : exn).
Arguments Done {A} a.
Arguments SysExit {A} code.
Arguments Uncaught {A} x.

Section Reader.
Context {World : Type} `{Library World}.

(** The loop of [read_urls_from_file]: strip, then keep what is neither empty
    nor a comment. *)
Fixpoint keep_urls (lines : list string) (urls : list string) : list string :=
  match lines with
  | [] => urls
  | line :: rest =>
      let line := str_strip line in
      if str_truthy line && negb (String.prefix "#" line)
      then keep_urls rest (urls ++ [line])%list
      else keep_urls rest urls
  end.

(** A missing file ends the process with exit status 1. *)
Definition read_urls_from_file (filename : string) (w : World) : ending (list string) :=
  match read_lines filename w with
  | Lines lines => Done (keep_urls lines [])
  | FileNotFound => SysExit 1
  | ReadFails x => Uncaught x
  end.

End Reader.

End BatchFromFile.

(** ** The parser on plain pages

    What [HTMLParser.feed] reports on pages made of text, comments,
    declarations, end tags, the raw text of [script] and [style], and start
    tags whose quoted attribute values are closed. Attribute values are
    handed over as written: the pages of the examples hold no character
    reference. On a marked section with an unknown keyword the parser of
    Python 3.11 raises AssertionError; [strict] says whether this parser
    does, or skips the section up to the next [>]. *)

Module HtmlPages.

Definition attribute : Type := (string * option string)%type.

Definition between (lo hi : nat) (c : ascii) : bool :=
  ((lo <=? nat_of_ascii c) && (nat_of_ascii c <=? hi))%nat.

Definition is_letter (c : ascii) : bool := between 65 90 c || between 97 122 c.

Definition is_name_char (c : ascii) : bool :=
  is_letter c || between 48 57 c || Ascii.eqb c "-" || Ascii.eqb c "_" || Ascii.eqb c ".".

Definition is_blank (c : ascii) : bool :=
  Ascii.eqb c " " || between 9 10 c || between 12 13 c.

Fixpoint skip_blanks (s : string) : string :=
  match s with
  | EmptyString => EmptyString
  | String c rest => if is_blank c then skip_blanks rest else s
  end.

(** The longest prefix that satisfies [keep], and what follows it. *)
Fixpoint span (keep : ascii -> bool) (s : string) : string * string :=
  match s with
  | EmptyString => (EmptyString, EmptyString)
  | String c rest =>
      if keep c then let (name, tail) := span keep rest in (String c name, tail)
      else (EmptyString, s)
  end.

Fixpoint skip_chars (n : nat) (s : string) : string :=
  match n, s with
  | S k, String _ rest => skip_chars k rest
  | _, _ => s
  end.

Definition then_gt (s : string) : bool := String.prefix ">" (skip_blanks s).

(** What follows ["<!["]. *)
Inductive section : Type :=
| Standard      (* closed by "]]>" *)
| Office        (* closed by "]>" *)
| Unfinished    (* the name runs to the end of the data: the parser waits *)
| Refused.      (* AssertionError *)

Definition marked_section (after : string) : section :=
  match after with
  | EmptyString => Unfinished
  | String c _ =>
      if is_letter c then
        let (name, tail) := span is_name_char after in
        match skip_blanks tail with
        | EmptyString => Unfinished
        | String _ _ =>
            let keyword := TurboScribeBatch.str_lower name in
            if existsb (String.eqb keyword) ["temp"; "cdata"; "ignore"; "include"; "rcdata"]
            then Standard
            else if existsb (String.eqb keyword) ["if"; "else"; "endif"] then Office
            else Refused
        end
      else Refused
  end.

Definition closes_comment (s : string) : bool :=
  String.prefix "--" s && then_gt (skip_chars 2 s).

Definition closes_section (office : bool) (s : string) : bool :=
  match s with
  | String c rest =>
      Ascii.eqb c "]" &&
      (if office then then_gt rest
       else match skip_blanks rest with
            | String d rest' => Ascii.eqb d "]" && then_gt rest'
            | EmptyString => false
            end)
  | EmptyString => false
  end.

(** The end tag that leaves the raw text of [tag]. *)
Definition closes_raw (tag s : string) : bool :=
  String.prefix "</" s &&
  (let (name, tail) :=
     span (fun c => is_name_char c || Ascii.eqb c ":")
          (skip_blanks (skip_chars 2 s)) in
   String.eqb (TurboScribeBatch.str_lower name) tag && then_gt tail).

Inductive mode : Type :=
| InText
| Skip (n : nat) (next : mode)
| InName (tag : string)
| InTag (tag : string) (attrs : list attribute) (slash : bool)
| InAttr (tag : string) (attrs : list attribute) (name : string)
| AfterName (tag : string) (attrs : list attribute) (name : string)
| InEq (tag : string) (attrs : list attribute) (name : string)
| AfterEq (tag : string) (attrs : list attribute) (name : string)
| InQuoted (tag : string) (attrs : list attribute) (name : string) (quote : ascii) (v : string)
| InBare (tag : string) (attrs : list attribute) (name : string) (v : string)
| InMarkup
| InComment
| InSection (office : bool)
| InRaw (tag : string).

Definition snoc (s : string) (c : ascii) : string := s ++ String c "".

Definition with_attr (attrs : list attribute) (name : string) (v : option string)
    : list attribute :=
  (attrs ++ [(TurboScribeBatch.str_lower name, v)])%list.

(** The end of a start tag: the tag is reported, and the text of a [script]
    or [style] element that is not closed at once is not parsed. *)
Definition report (tag : string) (attrs : list attribute) (slash : bool)
    (acc : list start_tag) : mode * list start_tag :=
  let t := TurboScribeBatch.str_lower tag in
  (if negb slash && (String.eqb t "script" || String.eqb t "style") then InRaw t else InText,
   (t, attrs) :: acc).

Definition step (strict : bool) (m : mode) (acc : list start_tag) (c : ascii) (s rest : string)
    : option (mode * list start_tag) + list start_tag :=
  let go (m' : mode) := inl (Some (m', acc)) in
  let done (r : mode * list start_tag) := inl (Some r) in
  match m with
  | InText =>
      if Ascii.eqb c "<" then
        match rest with
        | EmptyString => inr acc
        | String d after =>
            if is_letter d then go (InName "")
            else if String.prefix "!--" rest then go (Skip 3 InComment)
            else if String.prefix "![" rest then
              match marked_section (skip_chars 1 after) with
              | Standard => go (Skip 2 (InSection false))
              | Office => go (Skip 2 (InSection true))
              | Unfinished => inr acc
              | Refused => if strict then inl None else go InMarkup
              end
            else if Ascii.eqb d "/" || Ascii.eqb d "!" || Ascii.eqb d "?" then go InMarkup
            else go InText
        end
      else go InText
  | Skip n next =>
      match n with
      | S (S k) => go (Skip (S k) next)
      | _ => go next
      end
  | InName tag =>
      if Ascii.eqb c ">" then done (report tag [] false acc)
      else if Ascii.eqb c "/" then go (InTag tag [] true)
      else if is_blank c then go (InTag tag [] false)
      else go (InName (snoc tag c))
  | InTag tag attrs slash =>
      if Ascii.eqb c ">" then done (report tag attrs slash acc)
      else if Ascii.eqb c "/" then go (InTag tag attrs true)
      else if is_blank c then go (InTag tag attrs false)
      else go (InAttr tag attrs (String c ""))
  | InAttr tag attrs name =>
      if Ascii.eqb c "=" then go (InEq tag attrs name)
      else if Ascii.eqb c ">" then done (report tag (with_attr attrs name None) false acc)
      else if Ascii.eqb c "/" then go (InTag tag (with_attr attrs name None) true)
      else if is_blank c then go (AfterName tag attrs name)
      else go (InAttr tag attrs (snoc name c))
  | AfterName tag attrs name =>
      if is_blank c then go (AfterName tag attrs name)
      else if Ascii.eqb c "=" then go (InEq tag attrs name)
      else if Ascii.eqb c ">" then done (report tag (with_attr attrs name None) false acc)
      else if Ascii.eqb c "/" then go (InTag tag (with_attr attrs name None) true)
      else go (InAttr tag (with_attr attrs name None) (String c ""))
  | InEq tag attrs name =>
      if Ascii.eqb c "'" || Ascii.eqb c "034" then go (InQuoted tag attrs name c "")
      else if Ascii.eqb c ">" then done (report tag (with_attr attrs name (Some "")) false acc)
      else if Ascii.eqb c "=" then go (InEq tag attrs name)
      else if is_blank c then go (AfterEq tag attrs name)
      else go (InBare tag attrs name (String c ""))
  | AfterEq tag attrs name =>
      if Ascii.eqb c "'" || Ascii.eqb c "034" then go (InQuoted tag attrs name c "")
      else if Ascii.eqb c ">" then done (report tag (with_attr attrs name (Some "")) false acc)
      else if is_blank c then go (AfterEq tag attrs name)
      else go (InBare tag attrs name (String c ""))
  | InQuoted tag attrs name quote v =>
      if Ascii.eqb c quote then go (InTag tag (with_attr attrs name (Some v)) false)
      else go (InQuoted tag attrs name quote (snoc v c))
  | InBare tag attrs name v =>
      if Ascii.eqb c ">" then done (report tag (with_attr attrs name (Some v)) false acc)
      else if is_blank c then go (InTag tag (with_attr attrs name (Some v)) false)
      else go (InBare tag attrs name (snoc v c))
  | InMarkup => if Ascii.eqb c ">" then go InText else go InMarkup
  | InComment => if closes_comment s then go InMarkup else go InComment
  | InSection office => if closes_section office s then go InMarkup else go (InSection office)
  | InRaw tag => if closes_raw tag s then go InMarkup else go (InRaw tag)
  end.

(** [None] when the parser raises; otherwise the start tags in document
    order. What is left unfinished at the end of the data is not reported. *)
Fixpoint tokens (strict : bool) (m : mode) (acc : list start_tag) (s : string)
    : option (list start_tag) :=
  match s with
  | EmptyString => Some (rev acc)
  | String c rest =>
      match step strict m acc c s rest with
      | inl (Some (m', acc')) => tokens strict m' acc' rest
      | inl None => None
      | inr acc' => Some (rev acc')
      end
  end.

(** The parser that raises, and the one that reads on. *)
Definition feed (s : string) : option (list start_tag) := tokens true InText [] s.

Definition feed_lenient (s : string) : list start_tag :=
  match tokens false InText [] s with
  | Some tags => tags
  | None => []
  end.

End HtmlPages.

(** ** Paths

    [str(Path(dir) / name)] on a POSIX system: a [name] that starts with a
    slash replaces [dir], and empty and [.] components are dropped. *)

Module PosixPath.

Definition path_parts (p : string) : list string :=
  List.filter (fun x => negb (String.eqb x "") && negb (String.eqb x "."))
              (TurboScribeBatch.str_split "/" p).

Definition path_root (p : string) : string :=
  if String.prefix "///" p then "/"
  else if String.prefix "//" p then "//"
  else if String.prefix "/" p then "/"
  else "".

Fixpoint join_parts (parts : list string) : string :=
  match parts with
  | [] => ""
  | [x] => x
  | x :: rest => x ++ "/" ++ join_parts rest
  end.

Definition path_str (root : string) (parts : list string) : string :=
  match parts with
  | [] => if String.eqb root "" then "." else root
  | _ :: _ => root ++ join_parts parts
  end.

Definition join (dir name : string) : string :=
  if String.prefix "/" name then path_str (path_root name) (path_parts name)
  else path_str (path_root dir) (path_parts dir ++ path_parts name)%list.

End PosixPath.

(** ** A scripted world

    A small concrete [Platform]: a clock that only sleeping advances, a
    constant random source, a list of existing paths and tables of canned
    answers for the network and the file system. *)

Module Scripted.

Record World : Type := {
  now : Q;
  files : list string;
  info : string -> outcome (gmap string value);
  media : string -> outcome unit;
  post : string -> outcome Response;
  fetch : string -> outcome Z;
  writable : string -> bool
}.

Definition set_now (x : Q) (w : World) : World :=
  {| now := x; files := files w; info := info w; media := media w; post := post w;
     fetch := fetch w; writable := writable w |}.

Definition add_file (p : string) (w : World) : World :=
  {| now := now w; files := p :: files w; info := info w; media := media w; post := post w;
     fetch := fetch w; writable := writable w |}.

Definition write (p : string) (w : World) : outcome unit * World :=
  if writable w p then (Returned tt, add_file p w)
  else (Raised (OtherException "Permission denied"), w).

#[global] Instance platform : Platform World := {|
  time_time := now;
  time_sleep := fun d w => set_now (Qred (now w + d)) w;
  time_strftime := fun _ => "20240101_120000";
  random_random := fun w => ((1 # 2)%Q, w);
  path_exists := fun p w => existsb (String.eqb p) (files w);
  path_size := fun _ _ => 0%Z;
  path_mkdir := fun _ w => (Returned tt, w);
  file_write := fun p _ w => write p w;
  parse_speed_limit := fun _ => Returned 512000%Z;
  ydl_extract_info := fun url w => (info w url, w);
  ydl_download := fun url _ w => (media w url, w);
  probe_audio := fun _ _ => Raised (OtherException "not an MP4 file");
  session_post := fun _ url w => (post w url, w);
  requests_get_to_file := fun url path w =>
    match fetch w url with
    | Returned n => (Returned n, add_file path w)
    | Raised e => (Raised e, w)
    end;
  zstd_decompress := fun _ => None;
  html_feed := HtmlPages.feed;
  html_unescape := fun s => s;
  pathlib_join := PosixPath.join
|}.

Definition start (w : World) : Env World := {| world := w; trace := [] |}.

End Scripted.

(** ** A calm world

    The scripted world under stable conditions: every file write succeeds,
    whatever the session fails with is one of its own exceptions, and the
    parser skips a marked section on which the one of Python 3.11 raises. *)

Module Calm.

Record World : Type := { base : Scripted.World }.

Definition lift (f : Scripted.World -> Scripted.World) (w : World) : World :=
  {| base := f (base w) |}.

Definition lift_op {A : Type} (op : Scripted.World -> outcome A * Scripted.World) (w : World)
    : outcome A * World :=
  let (r, b) := op (base w) in (r, {| base := b |}).

Definition as_request_exception {A : Type} (r : outcome A) : outcome A :=
  match r with
  | Returned a => Returned a
  | Raised x => Raised (if is_request_exception x then x else RequestException (exn_msg x))
  end.

#[global] Instance platform : Platform World := {|
  time_time := fun w => time_time (base w);
  time_sleep := fun d => lift (time_sleep d);
  time_strftime := fun w => time_strftime (base w);
  random_random := fun w => let (r, b) := random_random (base w) in (r, {| base := b |});
  path_exists := fun p w => path_exists p (base w);
  path_size := fun p w => path_size p (base w);
  path_mkdir := fun p => lift_op (path_mkdir p);
  file_write := fun p _ w => (Returned tt, lift (Scripted.add_file p) w);
  parse_speed_limit := parse_speed_limit (World := Scripted.World);
  ydl_extract_info := fun url => lift_op (ydl_extract_info url);
  ydl_download := fun url tmpl => lift_op (ydl_download url tmpl);
  probe_audio := fun p w => probe_audio p (base w);
  session_post := fun endpoint url w =>
    (as_request_exception (Scripted.post (base w) url), w);
  requests_get_to_file := fun url path => lift_op (requests_get_to_file url path);
  zstd_decompress := zstd_decompress (World := Scripted.World);
  html_feed := fun s => Some (HtmlPages.feed_lenient s);
  html_unescape := fun s => s;
  pathlib_join := PosixPath.join
|}.

Definition start (w : Scripted.World) : Env World := {| world := {| base := w |}; trace := [] |}.

End Calm.

(** ** A world with files and channel listings

    The scripted world together with canned channel listings and text files;
    [str.strip] removes the ASCII white space. *)

Module Shelf.

Record World : Type := {
  base : Scripted.World;
  listing : string -> outcome (option (list entry));
  texts : string -> read_outcome
}.

Definition lift (f : Scripted.World -> Scripted.World) (w : World) : World :=
  {| base := f (base w); listing := listing w; texts := texts w |}.

Definition lift_op {A : Type} (op : Scripted.World -> outcome A * Scripted.World) (w : World)
    : outcome A * World :=
  let (r, b) := op (base w) in (r, {| base := b; listing := listing w; texts := texts w |}).

Definition is_space (c : ascii) : bool :=
  let n := nat_of_ascii c in
  (n =? 32)%nat || ((9 <=? n)%nat && (n <=? 13)%nat) || ((28 <=? n)%nat && (n <=? 31)%nat).

Fixpoint lstrip (s : string) : string :=
  match s with
  | EmptyString => EmptyString
  | String c rest => if is_space c then lstrip rest else s
  end.

Fixpoint rstrip (s : string) : string :=
  match s with
  | EmptyString => EmptyString
  | String c rest =>
      let r := rstrip rest in
      if is_space c && String.eqb r "" then EmptyString else String c r
  end.

Definition strip (s : string) : string := rstrip (lstrip s).

#[global] Instance platform : Platform World := {|
  time_time := fun w => time_time (base w);
  time_sleep := fun d => lift (time_sleep d);
  time_strftime := fun w => time_strftime (base w);
  random_random := fun w =>
    let (r, b) := random_random (base w) in
    (r, {| base := b; listing := listing w; texts := texts w |});
  path_exists := fun p w => path_exists p (base w);
  path_size := fun p w => path_size p (base w);
  path_mkdir := fun p => lift_op (path_mkdir p);
  file_write := fun p c => lift_op (file_write p c);
  parse_speed_limit := parse_speed_limit (World := Scripted.World);
  ydl_extract_info := fun url => lift_op (ydl_extract_info url);
  ydl_download := fun url tmpl => lift_op (ydl_download url tmpl);
  probe_audio := fun p w => probe_audio p (base w);
  session_post := fun endpoint url => lift_op (session_post endpoint url);
  requests_get_to_file := fun url path => lift_op (requests_get_to_file url path);
  zstd_decompress := zstd_decompress (World := Scripted.World);
  html_feed := HtmlPages.feed;
  html_unescape := fun s => s;
  pathlib_join := PosixPath.join
|}.

#[global] Instance library : Library World := {|
  ydl_extract_flat := fun url w => (listing w url, w);
  read_lines := fun path w => texts w path;
  str_strip := strip
|}.

Definition start (w : World) : Env World := {| world := w; trace := [] |}.

End Shelf.

(** ** Concrete inputs *)

Module Example.
Import Scripted.

(** Nothing exists, every network call fails, every write succeeds. *)
Definition quiet : World :=
  {| now := 1001; files := [];
     info := fun _ => Raised (DownloadError "unavailable");
     media := fun _ => Returned tt;
     post := fun _ => Raised (RequestException "connection refused");
     fetch := fun _ => Returned 0%Z;
     writable := fun _ => true |}.

(** A limiter that made its last request at time 1000 and has seen three
    errors since. *)
Definition limiter_after_3_errors : RateLimiter.t :=
  RateLimiter.set_error_count 3 (RateLimiter.set_last_request_time 1000 RateLimiter.default).

(** The item [abc] is already on disk, and the extractor resolves the URL to
    it. *)
Definition video_url : string := "https://www.youtube.com/watch?v=abc".

Definition library : World :=
  {| now := 1001;
     files := ["downloads/abc/abc.m4a"; "downloads/abc/abc.json"];
     info := fun _ => Returned (list_to_map [("id", VStr "abc"); ("title", VStr "A title")]);
     media := fun _ => Returned tt;
     post := fun _ => Raised (RequestException "connection refused");
     fetch := fun _ => Returned 0%Z;
     writable := fun _ => true |}.

(** A downloader whose limiter made its last request at time 1000. *)
Definition downloader : YouTubeDownloader.t :=
  {| YouTubeDownloader.output_dir := "downloads";
     YouTubeDownloader.rate_limiter := RateLimiter.set_last_request_time 1000 RateLimiter.default;
     YouTubeDownloader.max_retries := 3;
     YouTubeDownloader.speed_limit := "500K";
     YouTubeDownloader.stats :=
       {| YouTubeDownloader.total := 0; YouTubeDownloader.success := 0;
          YouTubeDownloader.failed := 0; YouTubeDownloader.skipped := 0 |} |}.

Definition two_urls : list string :=
  ["https://www.youtube.com/watch?v=abc"; "https://youtu.be/xyz"].

Definition plain_body : string := "<p>no audio here</p>".

Definition plain_response : Response :=
  {| status_code := 200; content_encoding := None; content := plain_body; text := plain_body |}.

(** The endpoint answers 200 with a body that holds no link. *)
Definition no_link : World :=
  {| now := 1001; files := [];
     info := fun _ => Raised (DownloadError "unavailable");
     media := fun _ => Returned tt;
     post := fun _ => Returned plain_response;
     fetch := fun _ => Returned 0%Z;
     writable := fun _ => true |}.

(** The same, on a file system that refuses every write. *)
Definition read_only : World :=
  {| now := 1001; files := [];
     info := fun _ => Raised (DownloadError "unavailable");
     media := fun _ => Returned tt;
     post := fun _ => Returned plain_response;
     fetch := fun _ => Returned 0%Z;
     writable := fun _ => false |}.

(** A result list as [process_batch] builds it: one success, one HTTP
    failure. *)
Definition two_results : list (gmap string value) :=
  [list_to_map [("url", VStr "https://www.youtube.com/watch?v=abc");
                ("status", VStr "success");
                ("response", VStr plain_body);
                ("status_code", VInt 200);
                ("html_file", VStr "html_responses/abc_20240101_120000.html");
                ("audio_file", VNone)];
   list_to_map [("url", VStr "https://youtu.be/xyz");
                ("status", VStr "failed");
                ("error", VStr "HTTP 500");
                ("response", VStr "")]].

(** The extractor is refused with a 403. *)
Definition forbidden : World :=
  {| now := 1001; files := [];
     info := fun _ => Raised (DownloadError "ERROR: HTTP Error 403: Forbidden");
     media := fun _ => Returned tt;
     post := fun _ => Raised (RequestException "connection refused");
     fetch := fun _ => Returned 0%Z;
     writable := fun _ => true |}.

(** Nothing is on disk yet; the extractor resolves every URL to [abc], and
    the download and the writes succeed. *)
Definition fresh : World :=
  {| now := 1001; files := [];
     info := fun _ => Returned (list_to_map [("id", VStr "abc"); ("title", VStr "A title")]);
     media := fun _ => Returned tt;
     post := fun _ => Raised (RequestException "connection refused");
     fetch := fun _ => Returned 0%Z;
     writable := fun _ => true |}.

(** The endpoint answers every request with a 500. *)
Definition error_response : Response :=
  {| status_code := 500; content_encoding := None; content := "oops"; text := "oops" |}.

Definition server_error : World :=
  {| now := 1001; files := [];
     info := fun _ => Raised (DownloadError "unavailable");
     media := fun _ => Returned tt;
     post := fun _ => Returned error_response;
     fetch := fun _ => Returned 0%Z;
     writable := fun _ => true |}.

(** The endpoint answers 200 with a page that holds one link to the audio. *)
Definition linked_url : string := "https://cdn.example/a?mime=audio%2Fwebm".

Definition linked_body : string :=
  "<p>intro</p><a class='btn' href='https://cdn.example/a?mime=audio%2Fwebm'>audio</a>".

Definition linked_response : Response :=
  {| status_code := 200; content_encoding := None; content := linked_body;
     text := linked_body |}.

Definition with_link : World :=
  {| now := 1001; files := [];
     info := fun _ => Raised (DownloadError "unavailable");
     media := fun _ => Returned tt;
     post := fun _ => Returned linked_response;
     fetch := fun _ => Returned 1234%Z;
     writable := fun _ => true |}.

(** The endpoint answers 200 with a page that the parser of Python 3.11 does
    not accept: after the link comes a marked section of unknown keyword. *)
Definition unparsable_body : string :=
  "<a href='https://cdn.example/a?mime=audio%2Fwebm'>audio</a><![foo[".

Definition unparsable_response : Response :=
  {| status_code := 200; content_encoding := None; content := unparsable_body;
     text := unparsable_body |}.

Definition unparsable : World :=
  {| now := 1001; files := [];
     info := fun _ => Raised (DownloadError "unavailable");
     media := fun _ => Returned tt;
     post := fun _ => Returned unparsable_response;
     fetch := fun _ => Returned 1234%Z;
     writable := fun _ => true |}.

(** Results as step 1 of the parallel mode leaves them: one with a link to
    download, one HTTP failure. *)
Definition resolved_results : list (gmap string value) :=
  [list_to_map [("url", VStr "https://www.youtube.com/watch?v=abc");
                ("status", VStr "success");
                ("response", VStr linked_body);
                ("status_code", VInt 200);
                ("html_file", VStr "html_responses/abc_20240101_120000.html");
                ("audio_file", VNone);
                ("audio_link", VStr linked_url)];
   list_to_map [("url", VStr "https://youtu.be/xyz");
                ("status", VStr "failed");
                ("error", VStr "HTTP 500");
                ("response", VStr "")]].

(** The endpoint answers 200 with an empty body. *)
Definition empty_response : Response :=
  {| status_code := 200; content_encoding := None; content := ""; text := "" |}.

Definition empty_answer : World :=
  {| now := 1001; files := [];
     info := fun _ => Raised (DownloadError "unavailable");
     media := fun _ => Returned tt;
     post := fun _ => Returned empty_response;
     fetch := fun _ => Returned 0%Z;
     writable := fun _ => true |}.

Definition url_file_lines : list string :=
  ["# my list" ++ String "010" "";
   "https://www.youtube.com/watch?v=abc" ++ String "010" "";
   "  # an indented comment" ++ String "010" "";
   String "010" "";
   "  https://youtu.be/def  " ++ String "010" ""].

(** A channel of two videos with an empty slot between them, and a URL file. *)
Definition channel : Shelf.World :=
  {| Shelf.base := fresh;
     Shelf.listing := fun _ =>
       Returned (Some [Some (list_to_map [("id", VStr "abc")]); None;
                       Some (list_to_map [("id", VStr "def")])]);
     Shelf.texts := fun _ => Lines url_file_lines |}.

(** The same channel with a second entry that has no ['id']. *)
Definition broken_channel : Shelf.World :=
  {| Shelf.base := fresh;
     Shelf.listing := fun _ =>
       Returned (Some [Some (list_to_map [("id", VStr "abc")]);
                       Some (list_to_map [("title", VStr "untitled")]);
                       Some (list_to_map [("id", VStr "def")])]);
     Shelf.texts := fun _ => FileNotFound |}.

(** A channel whose listing cannot be fetched. *)
Definition private_channel : Shelf.World :=
  {| Shelf.base := fresh;
     Shelf.listing := fun _ => Raised (DownloadError "This channel is private");
     Shelf.texts := fun _ => FileNotFound |}.

End Example.

(** * Vocabulary of the statements *)

Section Vocabulary.
Context {World : Type} `{Platform World}.

(** The pacing step shared by the two waits: what happens once the delay is
    known, against the time of the last call. *)
Definition paced (last delay : Q) (e : Env World) : Env World :=
  if Qltb (time_time (world e) - last) delay
  then {| world := time_sleep (delay - (time_time (world e) - last)) (world e);
          trace := trace e ++ [Sleep (delay - (time_time (world e) - last))] |}
  else e.

(** The draw of [random.uniform(a, b)]: the value and the world after it. *)
Definition drawn (a b : Q) (e : Env World) : Q * Env World :=
  let (r, w') := random_random (world e) in
  ((a + (b - a) * r)%Q, {| world := w'; trace := trace e |}).

(** The penalty of the [k]-th consecutive 403, as the specification words
    it: 30 s, then 60 s, then 120 s from the third on. *)
Definition ladder_403 (k : Z) : Z :=
  if (k =? 1)%Z then 30%Z else if (k =? 2)%Z then 60%Z else 120%Z.

(** A method run from an object satisfying [P] either returns [a] leaving an
    object satisfying [Q a], or raises [x] leaving one satisfying [R x]. *)
Definition hoare {Self A : Type} (P : Self -> Prop) (m : M (Self * Env World) A)
    (Q : A -> Self -> Prop) (R : exn -> Self -> Prop) : Prop :=
  forall (o : Self) (e : Env World), P o ->
    match m (o, e) with
    | (Returned a, (o', _)) => Q a o'
    | (Raised x, (o', _)) => R x o'
    end.

(** One call of [download_video] seen on the counters: the total and exactly
    one outcome counter go up by one. *)
Definition one_outcome (st st' : YouTubeDownloader.Stats) : Prop :=
  let tot := YouTubeDownloader.total in
  let suc := YouTubeDownloader.success in
  let fai := YouTubeDownloader.failed in
  let ski := YouTubeDownloader.skipped in
  tot st' = (tot st + 1)%Z /\
  ((suc st' = (suc st + 1)%Z /\ fai st' = fai st /\ ski st' = ski st) \/
   (suc st' = suc st /\ fai st' = (fai st + 1)%Z /\ ski st' = ski st) \/
   (suc st' = suc st /\ fai st' = fai st /\ ski st' = (ski st + 1)%Z)).

(** The counters are [st] and the limiter's error counter is not negative. *)
Definition tracked (st : YouTubeDownloader.Stats) (self : YouTubeDownloader.t) : Prop :=
  YouTubeDownloader.stats self = st /\
  (0 <= RateLimiter.error_count (YouTubeDownloader.rate_limiter self))%Z.

(** C1 as worded: with both files of [video_id] present, the call is a skip
    that performs no sleep and no network call. *)
Definition skips_silently (self : YouTubeDownloader.t) (e : Env World)
    (url video_id : string) : Prop :=
  let '(r, (self', e')) := YouTubeDownloader.download_video url (self, e) in
  r = Returned (true, Some video_id) /\
  forallb (fun ev => negb (is_network ev || is_sleep ev))
          (drop (length (trace e)) (trace e')) = true.

(** The session raises nothing but [requests] exceptions. *)
Definition network_errors_only : Prop :=
  forall (endpoint url : string) (w : World) (x : exn),
    fst (session_post endpoint url w) = Raised x -> is_request_exception x = true.

(** The directory of saved responses can be made and written to. *)
Definition html_saves_succeed : Prop :=
  (forall w : World, fst (path_mkdir "html_responses" w) = Returned tt) /\
  (forall (p c : string) (w : World), fst (file_write p (Text c) w) = Returned tt).

(** The parser accepts every page. *)
Definition parser_accepts : Prop :=
  forall html_content : string, is_Some (html_feed html_content).

(** [r['status'] == 'success'] on a result that has a status. *)
Definition succeeded (r : gmap string value) : bool :=
  match r !! "status" with
  | Some (VStr st) => String.eqb st "success"
  | _ => false
  end.

(** What every result of [process_single_url] for [url] satisfies: it carries
    the URL and a status, and its response, when present, is a string. *)
Definition result_for (url : string) (r : gmap string value) : Prop :=
  r !! "url" = Some (VStr url) /\
  is_Some (r !! "status") /\
  (forall v, r !! "response" = Some v -> exists body, v = VStr body).

(** One result per URL, in input order: the result at index [i] carries the
    URL at index [i]. *)
Definition in_input_order (urls : list string) (results : list (gmap string value)) : Prop :=
  length results = length urls /\
  forall (i : nat) (url : string), urls !! i = Some url ->
    exists r, results !! i = Some r /\ r !! "url" = Some (VStr url).

End Vocabulary.

(** ** Vocabulary of the further properties *)

(** The links fetched in a trace, in order. *)
Definition fetched (tr : list event) : list string :=
  flat_map (fun ev => match ev with HttpGet url => [url] | _ => [] end) tr.

(** [isinstance(x, DownloadError) and ('403' in str(x) or 'Forbidden' in str(x))] *)
Definition names_403 (x : exn) : bool :=
  match x with
  | DownloadError error_msg => str_contains "403" error_msg || str_contains "Forbidden" error_msg
  | _ => false
  end.

(** The downloader has processed [n] URLs in all, and its limiter's error
    counter is not negative. *)
Definition counted (n : Z) (self : YouTubeDownloader.t) : Prop :=
  YouTubeDownloader.total (YouTubeDownloader.stats self) = n /\
  (0 <= RateLimiter.error_count (YouTubeDownloader.rate_limiter self))%Z.

Section LinkVocabulary.
Context {World : Type} `{Platform World}.

(** The link of the first anchor, in document order, one of whose [href]
    values carries the marker. *)
Fixpoint first_link (tags : list start_tag) : option string :=
  match tags with
  | [] => None
  | (tag, attrs) :: rest =>
      if String.eqb tag "a" then
        match TurboScribeBatch.scan_attrs attrs with
        | Some link => Some link
        | None => first_link rest
        end
      else first_link rest
  end.

End LinkVocabulary.

(** The entries of a listing that are not [None]. *)
Definition present (videos : list entry) : nat :=
  length (List.filter (fun v : entry => match v with Some _ => true | None => false end) videos).

(** An entry the loop of [download_channel] gets past: [None], or a
    dictionary with an ['id']. *)
Definition usable (v : entry) : Prop :=
  match v with
  | Some video => is_Some (video !! "id")
  | None => True
  end.

(** The requests to the endpoint and the sleeps of a trace, in order. *)
Definition rhythm (tr : list event) : list (string + Q) :=
  flat_map (fun ev => match ev with
                      | HttpPost _ url => [inl url]
                      | Sleep d => [inr d]
                      | _ => []
                      end) tr.

(** One request per URL, in order, with one sleep of [d] between two
    successive requests and none after the last. *)
Fixpoint paced_posts (d : Q) (urls : list string) : list (string + Q) :=
  match urls with
  | [] => []
  | url :: rest =>
      inl url :: match rest with
                 | [] => []
                 | _ :: _ => inr d :: paced_posts d rest
                 end
  end.

(** What a step other than the request and the pause may leave in the trace:
    no request to the endpoint, no sleep, and no transfer unless downloads are
    switched on. *)
Definition side_work (download_audio : bool) (tr : list event) : Prop :=
  rhythm tr = [] /\ (download_audio = false -> fetched tr = []).

(** A method run on the object [o] leaves it as it is and appends [tr] to the
    trace, where [Q] holds of its outcome and [tr]. *)
Definition emits {World Self A : Type} (o : Self) (m : M (Self * Env World) A)
    (Q : outcome A -> list event -> Prop) : Prop :=
  forall e : Env World,
    match m (o, e) with
    | (r, (o', e')) => o' = o /\ exists tr, trace e' = (trace e ++ tr)%list /\ Q r tr
    end.

(** The serial loop over [urls] as the trace shows it: complete when the loop
    returns, cut after one of the requests when it raises. *)
Definition serial_requests {A : Type} (d : Q) (urls : list string) (r : outcome A)
    (tr : list event) : Prop :=
  match r with
  | Returned _ => rhythm tr = paced_posts d urls
  | Raised _ =>
      exists k, (1 <= k <= length urls)%nat /\ rhythm tr = paced_posts d (take k urls)
  end.

(** The two steps of the parallel mode as the trace shows them: the serial
    resolution, during which nothing is transferred, and then the transfers,
    during which the endpoint is not asked and nothing sleeps. *)
Definition two_phases {A : Type} (d : Q) (urls : list string) (r : outcome A)
    (tr : list event) : Prop :=
  exists tr1 tr2,
    tr = (tr1 ++ tr2)%list /\ fetched tr1 = [] /\ rhythm tr2 = [] /\
    match r with
    | Returned _ => rhythm tr1 = paced_posts d urls
    | Raised _ =>
        exists k, (k <= length urls)%nat /\ rhythm tr1 = paced_posts d (take k urls)
    end.

(** Two dictionaries that agree on every key but ['audio_file']. *)
Definition same_but_audio_file (r r' : gmap string value) : Prop :=
  forall k : string, k <> "audio_file" -> r' !! k = r !! k.

(** What a download task reads before it looks for a link. *)
Definition task_input (r : gmap string value) : Prop :=
  is_Some (r !! "status") /\ is_Some (r !! "url").

(** * Properties *)

Open Scope list_scope.

(** ** Rationals and sleeping *)

Lemma Qltb_true (x y : Q) : Qltb x y = true -> (x < y)%Q.
Proof.
  unfold Qltb. intros Hlt. apply Qnot_le_lt. intros Hle.
  apply Qle_bool_iff in Hle. rewrite Hle in Hlt. discriminate.
Qed.

Lemma Qltb_false (x y : Q) : (y <= x)%Q -> Qltb x y = false.
Proof.
  unfold Qltb. intros Hle. apply Qle_bool_iff in Hle. now rewrite Hle.
Qed.

Section PrimitiveFacts.
Context {World : Type} `{Platform World} {Self : Type}.

Lemma py_sleep_nonneg (d : Q) (o : Self) (e : Env World) :
  (0 <= d)%Q ->
  py_sleep d (o, e)
  = (Returned tt, (o, {| world := time_sleep d (world e); trace := trace e ++ [Sleep d] |})).
Proof.
  intros Hd. unfold py_sleep. now rewrite (Qltb_false _ _ Hd).
Qed.

(** A sleep guarded by [elapsed < delay] has a positive length. *)
Lemma py_sleep_guarded (elapsed delay : Q) (o : Self) (e : Env World) :
  Qltb elapsed delay = true ->
  py_sleep (delay - elapsed) (o, e)
  = (Returned tt, (o, {| world := time_sleep (delay - elapsed) (world e);
                         trace := trace e ++ [Sleep (delay - elapsed)] |})).
Proof.
  intros Hlt. apply py_sleep_nonneg. apply Qltb_true in Hlt.
  apply Qlt_le_weak. now apply (proj1 (Qlt_minus_iff elapsed delay)).
Qed.

End PrimitiveFacts.

(** ** Running binds *)

Lemma bind_returned {S A B : Type} (m : M S A) (k : A -> M S B) (s s' : S) (a : A) :
  m s = (Returned a, s') -> bind m k s = k a s'.
Proof. intros Hm. unfold bind. now rewrite Hm. Qed.

Lemma try_returned {S A : Type} (body : M S A) handler (s s' : S) (a : A) :
  body s = (Returned a, s') -> try_except body handler s = (Returned a, s').
Proof. intros Hb. unfold try_except. now rewrite Hb. Qed.

(** ** Rules for [hoare] *)

Section HoareRules.
Context {World : Type} `{Platform World} {Self : Type}.
Implicit Types (P : Self -> Prop) (R : exn -> Self -> Prop).

Lemma hoare_weaken {A : Type} P P' (m : M (Self * Env World) A)
    (Q Q' : A -> Self -> Prop) R R' :
  hoare P m Q R ->
  (forall o, P' o -> P o) ->
  (forall a o, Q a o -> Q' a o) ->
  (forall x o, R x o -> R' x o) ->
  hoare P' m Q' R'.
Proof.
  intros Hm HP HQ HR o e Ho. specialize (Hm o e (HP o Ho)).
  destruct (m (o, e)) as [[a | x] [o' e']]; auto.
Qed.

Lemma hoare_bind {A B : Type} P (m : M (Self * Env World) A) (k : A -> M (Self * Env World) B)
    (Q1 : A -> Self -> Prop) (Q : B -> Self -> Prop) R :
  hoare P m Q1 R ->
  (forall a, hoare (Q1 a) (k a) Q R) ->
  hoare P (bind m k) Q R.
Proof.
  intros Hm Hk o e Ho. unfold bind. specialize (Hm o e Ho).
  destruct (m (o, e)) as [[a | x] [o' e']]; [| exact Hm].
  apply (Hk a o' e' Hm).
Qed.

Lemma hoare_try {A : Type} P (body : M (Self * Env World) A) handler
    (Q : A -> Self -> Prop) R1 R :
  hoare P body Q R1 ->
  (forall x, match handler x with
             | Some h => hoare (R1 x) h Q R
             | None => forall o, R1 x o -> R x o
             end) ->
  hoare P (try_except body handler) Q R.
Proof.
  intros Hb Hh o e Ho. unfold try_except. specialize (Hb o e Ho).
  destruct (body (o, e)) as [[a | x] [o' e']]; [exact Hb |].
  specialize (Hh x). destruct (handler x) as [h |]; [apply (Hh o' e' Hb) | auto].
Qed.

Lemma hoare_get_self P R :
  hoare P (get_self : M (Self * Env World) Self) (fun a o => a = o /\ P o) R.
Proof. intros o e Ho. simpl. auto. Qed.

(** The primitives act on the world and leave the object alone. *)
Lemma hoare_call {A : Type} P (ev : event) (op : World -> outcome A * World) :
  hoare P (call ev op) (fun _ => P) (fun _ => P).
Proof.
  intros o e Ho. unfold call. destruct (op (world e)) as [[a | x] w']; exact Ho.
Qed.

Lemma hoare_py_exists P (p : string) R :
  hoare P (py_exists p) (fun _ => P) R.
Proof. intros o e Ho. exact Ho. Qed.

Lemma hoare_py_strftime P R :
  hoare P py_strftime (fun _ => P) R.
Proof. intros o e Ho. exact Ho. Qed.

Lemma hoare_ret_frame {A : Type} P (a : A) R :
  hoare P (ret a : M (Self * Env World) A) (fun _ => P) R.
Proof. intros o e Ho. exact Ho. Qed.

Lemma hoare_raise_frame {A : Type} P (x : exn) (Q : A -> Self -> Prop) :
  hoare P (raise x : M (Self * Env World) A) Q (fun _ => P).
Proof. intros o e Ho. exact Ho. Qed.

Lemma hoare_get_self_frame P R :
  hoare P (get_self : M (Self * Env World) Self) (fun _ => P) R.
Proof. intros o e Ho. exact Ho. Qed.

Lemma hoare_call_raises {A : Type} P (ev : event) (op : World -> outcome A * World)
    (E : exn -> Prop) :
  (forall w x, fst (op w) = Raised x -> E x) ->
  hoare P (call ev op) (fun _ => P) (fun x o => E x /\ P o).
Proof.
  intros Hop o e Ho. unfold call. specialize (Hop (world e)).
  destruct (op (world e)) as [[a | x] w']; [exact Ho |].
  split; [apply Hop; reflexivity | exact Ho].
Qed.

Lemma hoare_assume {A : Type} P (phi : Prop) (m : M (Self * Env World) A)
    (Q : A -> Self -> Prop) R :
  (phi -> hoare P m Q R) ->
  hoare (fun o => P o /\ phi) m Q R.
Proof. intros Hm o e [Ho Hphi]. apply (Hm Hphi o e Ho). Qed.

(** Steps that return unless a condition [G] on the environment fails. *)
Lemma hoare_call_unless {A : Type} P (G : Prop) (ev : event)
    (op : World -> outcome A * World) :
  (G -> forall w, exists a, fst (op w) = Returned a) ->
  hoare P (call ev op) (fun _ => P) (fun _ o => P o /\ ~ G).
Proof.
  intros Hop o e Ho. unfold call.
  destruct (op (world e)) as [[a | x] w'] eqn:Hw; [exact Ho |].
  split; [exact Ho |]. intros HG.
  destruct (Hop HG (world e)) as [a Ha]. rewrite Hw in Ha. discriminate Ha.
Qed.

Lemma hoare_lift_unless {A : Type} P (G : Prop) (r : outcome A) :
  (G -> exists a, r = Returned a) ->
  hoare P (lift_outcome r : M (Self * Env World) A) (fun _ => P) (fun _ o => P o /\ ~ G).
Proof.
  intros Hr o e Ho. unfold lift_outcome. destruct r as [a | x]; [exact Ho |].
  split; [exact Ho |]. intros HG. destruct (Hr HG) as [a Ha]. discriminate Ha.
Qed.

Lemma hoare_py_sleep_unless P (G : Prop) (d : Q) :
  (G -> (0 <= d)%Q) ->
  hoare P (py_sleep d) (fun _ => P) (fun _ o => P o /\ ~ G).
Proof.
  intros Hd o e Ho. unfold py_sleep. destruct (Qltb d 0) eqn:Hlt; [| exact Ho].
  split; [exact Ho |]. intros HG. apply Qltb_true in Hlt.
  exact (Qlt_not_le _ _ Hlt (Hd HG)).
Qed.

End HoareRules.

(** ** RateLimiter *)

Section RateLimiterFacts.
Context {World : Type} `{Platform World}.
Import RateLimiter.

Lemma wait_for_request_eq (rl : t) (e : Env World) :
  wait_for_request (rl, e)
  = let (jitter, e1) := drawn (min_delay rl) (max_delay rl) e in
    let e2 := paced (last_request_time rl) (request_delay rl jitter) e1 in
    (Returned tt, (set_last_request_time (time_time (world e2)) rl, e2)).
Proof.
  unfold wait_for_request, drawn, paced, bind, get_self, gets, py_uniform, py_time,
    set_self, modify, ret; simpl.
  destruct (random_random (world e)) as [r w1]; simpl.
  destruct (Qltb _ _) eqn:Hlt.
  - rewrite (py_sleep_guarded _ _ _ _ Hlt). reflexivity.
  - destruct e; reflexivity.
Qed.

Lemma wait_for_download_eq (rl : t) (e : Env World) :
  wait_for_download (rl, e)
  = let (delay, e1) := drawn (download_delay_min rl) (download_delay_max rl) e in
    let e2 := paced (last_download_time rl) delay e1 in
    (Returned tt, (set_last_download_time (time_time (world e2)) rl, e2)).
Proof.
  unfold wait_for_download, drawn, paced, bind, get_self, gets, py_uniform, py_time,
    set_self, modify, ret; simpl.
  destruct (random_random (world e)) as [r w1]; simpl.
  destruct (Qltb _ _) eqn:Hlt.
  - rewrite (py_sleep_guarded _ _ _ _ Hlt). reflexivity.
  - destruct e; reflexivity.
Qed.

Lemma on_success_eq (rl : t) (e : Env World) :
  on_success (rl, e) = (Returned tt, (set_error_count 0 rl, e)).
Proof. reflexivity. Qed.

(** The index [min(error_count - 1, 2)] is in range once the counter has been
    incremented from a non-negative value, and selects the ladder value. *)
Lemma wait_times_index (n : Z) :
  (0 <= n)%Z ->
  py_index wait_times (Z.min (n + 1 - 1) (Z.of_nat (length wait_times) - 1))
  = Some (ladder_403 (n + 1)).
Proof.
  intros Hn.
  destruct (Z.eq_dec n 0%Z) as [-> | Hn0]; [reflexivity |].
  destruct (Z.eq_dec n 1%Z) as [-> | Hn1]; [reflexivity |].
  replace (Z.min (n + 1 - 1) (Z.of_nat (length wait_times) - 1)) with 2%Z
    by (simpl; lia).
  unfold ladder_403.
  destruct (n + 1 =? 1)%Z eqn:E1; [lia |].
  destruct (n + 1 =? 2)%Z eqn:E2; [lia |].
  reflexivity.
Qed.

Lemma ladder_403_nonneg (k : Z) : (0 <= inject_Z (ladder_403 k))%Q.
Proof.
  unfold ladder_403, Qle; simpl.
  destruct (k =? 1)%Z; [lia |]. destruct (k =? 2)%Z; lia.
Qed.

Lemma on_error_403_eq (rl : t) (e : Env World) :
  (0 <= error_count rl)%Z ->
  on_error (Some 403%Z) (rl, e)
  = (Returned tt,
     (set_error_count (error_count rl + 1) rl,
      {| world := time_sleep (inject_Z (ladder_403 (error_count rl + 1))) (world e);
         trace := trace e ++ [Sleep (inject_Z (ladder_403 (error_count rl + 1)))] |})).
Proof.
  intros Hn.
  unfold on_error, bind, set_self, modify, get_self, gets; simpl.
  change (Z.of_nat 3) with (Z.of_nat (length wait_times)).
  rewrite (wait_times_index _ Hn).
  apply py_sleep_nonneg, ladder_403_nonneg.
Qed.

Lemma on_error_other_eq (error_code : option Z) (rl : t) (e : Env World) :
  code_is error_code 403 = false ->
  on_error error_code (rl, e) = (Returned tt, (set_error_count (error_count rl + 1) rl, e)).
Proof.
  intros Hc. unfold on_error, bind, set_self, modify. now rewrite Hc.
Qed.

(** Whatever the argument and the state, [on_error] leaves the counter one
    higher, also when the penalty lookup fails. *)
Lemma on_error_error_count (error_code : option Z) (s : t * Env World) :
  error_count (fst (exec (on_error error_code) s)) = (error_count (fst s) + 1)%Z.
Proof.
  destruct s as [rl e].
  unfold exec, on_error, bind, set_self, modify, get_self, gets; simpl.
  destruct (code_is error_code 403); [| reflexivity].
  destruct (py_index _ _) as [w |]; [| reflexivity].
  unfold py_sleep. destruct (Qltb _ _); reflexivity.
Qed.

Lemma wait_for_request_error_count (s : t * Env World) :
  error_count (fst (exec wait_for_request s)) = error_count (fst s).
Proof.
  destruct s as [rl e]. unfold exec. rewrite wait_for_request_eq.
  destruct (drawn _ _ _). reflexivity.
Qed.

Lemma wait_for_download_error_count (s : t * Env World) :
  error_count (fst (exec wait_for_download s)) = error_count (fst s).
Proof.
  destruct s as [rl e]. unfold exec. rewrite wait_for_download_eq.
  destruct (drawn _ _ _). reflexivity.
Qed.

(** From a state with a non-negative counter every operation returns, and
    the counter stays non-negative. *)
Lemma run_op_returns (o : op) (rl : t) (e : Env World) :
  (0 <= error_count rl)%Z ->
  exists rl' e', run_op o (rl, e) = (Returned tt, (rl', e')) /\ (0 <= error_count rl')%Z.
Proof.
  intros Hn. destruct o as [| | error_code |]; simpl.
  - rewrite wait_for_request_eq. destruct (drawn _ _ _). eauto.
  - rewrite wait_for_download_eq. destruct (drawn _ _ _). eauto.
  - destruct (code_is error_code 403) eqn:Hc.
    + destruct error_code as [c |]; [| discriminate].
      simpl in Hc. apply Z.eqb_eq in Hc. subst c.
      rewrite (on_error_403_eq _ _ Hn). do 2 eexists. split; [reflexivity |]. simpl. lia.
    + rewrite (on_error_other_eq _ _ _ Hc). do 2 eexists. split; [reflexivity |]. simpl. lia.
  - rewrite on_success_eq. do 2 eexists. split; [reflexivity |]. simpl. lia.
Qed.

Lemma run_ops_returns (os : list op) (rl : t) (e : Env World) :
  (0 <= error_count rl)%Z ->
  exists rl' e', run_ops os (rl, e) = (Returned tt, (rl', e')) /\ (0 <= error_count rl')%Z.
Proof.
  revert rl e. induction os as [| o os IH]; intros rl e Hn.
  - exists rl, e. split; [reflexivity | exact Hn].
  - destruct (run_op_returns o rl e Hn) as (rl1 & e1 & Hrun & Hn1).
    destruct (IH rl1 e1 Hn1) as (rl2 & e2 & Hrest & Hn2).
    exists rl2, e2. split; [| exact Hn2].
    simpl. unfold bind. now rewrite Hrun.
Qed.

(** C3. In a state whose error counter [n] is positive, the delay that
    [wait_for_request] computes is the jitter [uniform(min_delay, max_delay)]
    plus exactly [min(2^n, 60)] seconds; from [n = 6] on the added term is 60.
    The call returns, and it sleeps for that delay less the time elapsed since
    the last request when the elapsed time is shorter. *)
Theorem wait_for_request_backoff (rl : t) (e : Env World) :
  (0 < error_count rl)%Z ->
  let n := error_count rl in
  let r := fst (random_random (world e)) in
  let w1 := snd (random_random (world e)) in
  let jitter := (min_delay rl + (max_delay rl - min_delay rl) * r)%Q in
  let delay := (jitter + inject_Z (Z.min (2 ^ n) 60))%Q in
  let elapsed := (time_time w1 - last_request_time rl)%Q in
  request_delay rl jitter = delay /\
  (6 <= n -> Z.min (2 ^ n) 60 = 60)%Z /\
  result wait_for_request (rl, e) = Returned tt /\
  trace (snd (exec wait_for_request (rl, e)))
  = trace e ++ (if Qltb elapsed delay then [Sleep (delay - elapsed)] else []).
Proof.
  intros Hn n r w1 jitter delay elapsed.
  assert (Hdelay : request_delay rl jitter = delay).
  { unfold request_delay. fold n.
    destruct (0 <? n)%Z eqn:Hpos; [reflexivity | apply Z.ltb_ge in Hpos; lia]. }
  split; [exact Hdelay |].
  split.
  { intros H6. apply Z.min_r.
    transitivity (2 ^ 6)%Z; [now compute | apply Z.pow_le_mono_r; lia]. }
  unfold result, exec. rewrite wait_for_request_eq.
  unfold drawn. subst r w1. destruct (random_random (world e)) as [r w1]; simpl in *.
  split; [reflexivity |].
  unfold paced; simpl. fold jitter. rewrite Hdelay. fold elapsed.
  destruct (Qltb elapsed delay); simpl; [reflexivity | now rewrite app_nil_r].
Qed.

(** A run of consecutive 403 reports, from a counter [n]. *)
Lemma run_403_from (k : nat) (rl : t) (e : Env World) :
  (0 <= error_count rl)%Z ->
  exists rl' e',
    run_ops (repeat (OnError (Some 403%Z)) k) (rl, e) = (Returned tt, (rl', e')) /\
    error_count rl' = (error_count rl + Z.of_nat k)%Z /\
    trace e' = trace e ++
      map (fun i => Sleep (inject_Z (ladder_403 (error_count rl + Z.of_nat i)))) (seq 1 k).
Proof.
  revert rl e. induction k as [| k IH]; intros rl e Hn.
  - exists rl, e. simpl. rewrite app_nil_r. repeat split; lia.
  - simpl repeat. simpl run_ops. unfold bind. simpl run_op.
    rewrite (on_error_403_eq _ _ Hn).
    edestruct (IH (set_error_count (error_count rl + 1) rl)) as (rl' & e' & Hrun & Hcnt & Htr);
      [simpl; lia |].
    exists rl', e'. rewrite Hrun. split; [reflexivity |].
    split; [rewrite Hcnt; simpl; lia |].
    rewrite Htr. simpl trace. rewrite <- app_assoc. f_equal.
    simpl error_count.
    change (seq 1 (S k)) with (1%nat :: seq 2 k).
    rewrite <- (seq_shift k 1). simpl. f_equal.
    rewrite map_map. apply map_ext. intros i. do 3 f_equal. lia.
Qed.

(** C4. After a success or at the start (counter 0), the [k]-th of [k]
    consecutive [on_error(403)] calls leaves the counter at [k] and sleeps for
    the ladder value: 30 s, 60 s, 120 s, then 120 s at every further call; the
    value is the entry of [wait_times] at index [min(error_count - 1, 2)] read
    after the increment. *)
Theorem on_error_403_ladder (rl : t) (e : Env World) (k : nat) :
  error_count rl = 0%Z ->
  let s := run_ops (repeat (OnError (Some 403%Z)) k) (rl, e) in
  fst s = Returned tt /\
  error_count (fst (snd s)) = Z.of_nat k /\
  trace (snd (snd s))
  = trace e ++ map (fun i => Sleep (inject_Z (ladder_403 (Z.of_nat i)))) (seq 1 k) /\
  (forall i : Z, (1 <= i)%Z ->
     py_index wait_times (Z.min (i - 1) (Z.of_nat (length wait_times) - 1))
     = Some (ladder_403 i)) /\
  ladder_403 1 = 30%Z /\ ladder_403 2 = 60%Z /\
  (forall i : Z, (3 <= i)%Z -> ladder_403 i = 120%Z).
Proof.
  intros H0 s.
  destruct (run_403_from k rl e) as (rl' & e' & Hrun & Hcnt & Htr); [lia |].
  subst s. rewrite Hrun. simpl.
  split; [reflexivity |].
  split; [rewrite Hcnt, H0; lia |].
  split.
  { rewrite Htr, H0. f_equal. }
  split.
  { intros i Hi. replace i with (i - 1 + 1)%Z at 2 by lia.
    rewrite <- (wait_times_index (i - 1)) by lia. do 2 f_equal. lia. }
  split; [reflexivity |]. split; [reflexivity |].
  intros i Hi. unfold ladder_403.
  destruct (i =? 1)%Z eqn:E1; [lia |]. destruct (i =? 2)%Z eqn:E2; [lia | reflexivity].
Qed.

(** C5. Along every sequence of operations from the initial state, every
    operation returns and the error counter is never negative; in the state
    reached, [on_error] raises the counter by exactly one, [on_success] sets
    it to zero, and the two pacing operations leave it unchanged. *)
Theorem error_count_discipline (a b c d : Q) (os : list op) (e : Env World) :
  let s := exec (run_ops os) (init a b c d, e) in
  result (run_ops os) (init a b c d, e) = Returned tt /\
  (0 <= error_count (fst s))%Z /\
  forall o : op,
    error_count (fst (exec (run_op o) s))
    = match o with
      | OnError _ => (error_count (fst s) + 1)%Z
      | OnSuccess => 0%Z
      | WaitForRequest | WaitForDownload => error_count (fst s)
      end.
Proof.
  intros s.
  destruct (run_ops_returns os (init a b c d) e) as (rl' & e' & Hrun & Hn);
    [simpl; lia |].
  subst s. unfold result, exec. rewrite Hrun. simpl fst. simpl snd.
  split; [reflexivity |]. split; [exact Hn |].
  intros [| | error_code |].
  - apply (wait_for_request_error_count (rl', e')).
  - apply (wait_for_download_error_count (rl', e')).
  - apply (on_error_error_count error_code (rl', e')).
  - reflexivity.
Qed.

End RateLimiterFacts.

Lemma wait_for_request_backoff_witness :
  (0 < RateLimiter.error_count Example.limiter_after_3_errors)%Z /\
  trace (snd (exec RateLimiter.wait_for_request
                (Example.limiter_after_3_errors, Scripted.start Example.quiet)))
  = [Sleep (3 + (5 - 3) * (1 # 2) + inject_Z 8 - (1001 - 1000))%Q].
Proof.
  split; [reflexivity |].
  destruct (wait_for_request_backoff Example.limiter_after_3_errors
              (Scripted.start Example.quiet)) as (_ & _ & _ & Htrace); [reflexivity |].
  rewrite Htrace. reflexivity.
Defined.

Lemma on_error_403_ladder_witness :
  RateLimiter.error_count RateLimiter.default = 0%Z /\
  trace (snd (snd (RateLimiter.run_ops (repeat (RateLimiter.OnError (Some 403%Z)) 4)
                     (RateLimiter.default, Scripted.start Example.quiet))))
  = [Sleep 30; Sleep 60; Sleep 120; Sleep 120].
Proof.
  split; [reflexivity |].
  destruct (on_error_403_ladder RateLimiter.default (Scripted.start Example.quiet) 4 eq_refl)
    as (_ & _ & Htr & _).
  rewrite Htr. reflexivity.
Defined.

(** ** YouTubeDownloader *)

Section YouTubeFacts.
Context {World : Type} `{Platform World}.
Import YouTubeDownloader.

Local Tactic Notation "step" open_constr(rule) :=
  eapply hoare_bind; [eapply rule | intros ?].

(** A limiter operation run through the downloader returns and keeps the
    counters. *)
Lemma hoare_rate_limiter_op (o : RateLimiter.op) (st : Stats) R :
  hoare (tracked st) (with_rate_limiter (RateLimiter.run_op o)) (fun _ => tracked st) R.
Proof.
  intros self e [Hst Hn]. unfold with_rate_limiter, zoom.
  destruct (run_op_returns o (rate_limiter self) e Hn) as (rl' & e' & Hrun & Hn').
  rewrite Hrun. split; [exact Hst | exact Hn'].
Qed.

Lemma hoare_set_stats (f : Stats -> Stats) (st : Stats) R :
  hoare (tracked st) (set_self (set_stats f) : M (t * Env World) unit)
        (fun _ => tracked (f st)) R.
Proof.
  intros self e [Hst Hn]. simpl. split; [simpl; now rewrite Hst | exact Hn].
Qed.

Lemma hoare_info_id (P : t -> Prop) (video_info : gmap string value) :
  hoare P (info_id video_info : M (t * Env World) string) (fun _ => P) (fun _ => P).
Proof.
  intros o e Ho. unfold info_id.
  destruct (video_info !! "id") as [[| z | video_id] |]; exact Ho.
Qed.

Lemma hoare_get_ydl_opts (P : t -> Prop) (video_id : string) :
  hoare P (_get_ydl_opts video_id) (fun _ => P) (fun _ => P).
Proof.
  unfold _get_ydl_opts.
  step (hoare_get_self_frame (Self := t) P).
  step (hoare_call (Self := t) P).
  destruct (parse_speed_limit _); [apply hoare_ret_frame | apply hoare_raise_frame].
Qed.

Lemma hoare_extract_audio_metadata (P : t -> Prop) (audio_file : string) R :
  hoare P (_extract_audio_metadata audio_file) (fun _ => P) R.
Proof.
  intros o e Ho. unfold _extract_audio_metadata.
  destruct (probe_audio audio_file (world e)); exact Ho.
Qed.

Lemma hoare_save_metadata (P : t -> Prop) (video_id : string)
    (video_info : gmap string value) (audio_metadata : AudioMetadata) :
  hoare P (_save_metadata video_id video_info audio_metadata) (fun _ => P) (fun _ => P).
Proof.
  unfold _save_metadata.
  step (hoare_get_self_frame (Self := t) P).
  apply hoare_call.
Qed.

(** The [try] block: it returns after counting a skip or a success, or it
    raises with the counters untouched. *)
Lemma hoare_download_video_body (url : string) (st : Stats) :
  hoare (tracked st) (download_video_body url)
        (fun _ self => tracked (incr_skipped st) self \/ tracked (incr_success st) self)
        (fun _ => tracked st).
Proof.
  unfold download_video_body.
  step (hoare_rate_limiter_op RateLimiter.WaitForRequest st).
  step (hoare_call (Self := t) (tracked st)).
  step (hoare_info_id (tracked st)).
  step (hoare_get_self_frame (Self := t) (tracked st)).
  step (hoare_py_exists (Self := t) (tracked st)).
  step (hoare_py_exists (Self := t) (tracked st)).
  match goal with |- context [if ?b then _ else _] => destruct b end.
  - step (hoare_set_stats incr_skipped st).
    intros o e Ho. simpl. now left.
  - step (hoare_rate_limiter_op RateLimiter.WaitForDownload st).
    step (hoare_get_ydl_opts (tracked st)).
    step (hoare_call (Self := t) (tracked st)).
    step (hoare_extract_audio_metadata (tracked st)).
    step (hoare_save_metadata (tracked st)).
    eapply hoare_bind; [apply (hoare_set_stats incr_success st) | intros ?].
    eapply hoare_bind;
      [apply (hoare_rate_limiter_op RateLimiter.OnSuccess (incr_success st)) | intros ?].
    intros o e Ho. simpl. now right.
Qed.

(** Every [except] clause counts one failure and returns. *)
Lemma hoare_download_video_handler (x : exn) (st : Stats) :
  match download_video_handler x with
  | Some h => hoare (tracked st) h (fun _ => tracked (incr_failed st)) (fun _ _ => False)
  | None => False
  end.
Proof.
  assert (Hplain : hoare (tracked st)
            (with_rate_limiter (RateLimiter.on_error None) ;;;
             set_self (set_stats incr_failed) ;;; ret (false, @None string))
            (fun _ => tracked (incr_failed st)) (fun _ _ => False)).
  { step (hoare_rate_limiter_op (RateLimiter.OnError None) st).
    step (hoare_set_stats incr_failed st).
    apply hoare_ret_frame. }
  destruct x as [m | m | error_msg | m]; simpl; try exact Hplain.
  eapply hoare_bind with (Q1 := fun _ => tracked st).
  - destruct (_ || _).
    + apply (hoare_rate_limiter_op (RateLimiter.OnError (Some 403%Z)) st).
    + apply (hoare_rate_limiter_op (RateLimiter.OnError None) st).
  - intros _. step (hoare_set_stats incr_failed st). apply hoare_ret_frame.
Qed.

Lemma hoare_download_video (url : string) (st : Stats) :
  hoare (tracked st) (download_video url)
        (fun _ self => tracked (incr_skipped (incr_total st)) self \/
                       tracked (incr_success (incr_total st)) self \/
                       tracked (incr_failed (incr_total st)) self)
        (fun _ _ => False).
Proof.
  unfold download_video.
  step (hoare_set_stats incr_total st).
  eapply hoare_try with (R1 := fun _ => tracked (incr_total st)).
  - eapply hoare_weaken.
    + apply (hoare_download_video_body url (incr_total st)).
    + intros o Ho. exact Ho.
    + intros r self [Hs | Hs]; [left | right; left]; exact Hs.
    + intros x o Ho. exact Ho.
  - intros x. pose proof (hoare_download_video_handler x (incr_total st)) as Hh.
    destruct (download_video_handler x) as [h |]; [| contradiction].
    eapply hoare_weaken.
    + exact Hh.
    + intros o Ho. exact Ho.
    + intros r self Hs. right; right. exact Hs.
    + intros x' o Ho. exact Ho.
Qed.

(** C10. The counters satisfy [total = success + failed + skipped] after
    [__init__]; every call of [download_video] made with a non-negative error
    counter returns, raises [total] by one and exactly one of [success],
    [failed], [skipped] by one; hence the equation holds after every run of
    calls. *)
Theorem stats_invariant :
  (forall od rl mr sl (e e' : Env World) self,
     init od rl mr sl e = (Returned self, e') ->
     total (stats self)
     = (success (stats self) + failed (stats self) + skipped (stats self))%Z) /\
  (forall url self (e : Env World),
     (0 <= RateLimiter.error_count (rate_limiter self))%Z ->
     exists r self' e',
       download_video url (self, e) = (Returned r, (self', e')) /\
       one_outcome (stats self) (stats self') /\
       (0 <= RateLimiter.error_count (rate_limiter self'))%Z) /\
  (forall urls self (e : Env World),
     (0 <= RateLimiter.error_count (rate_limiter self))%Z ->
     total (stats self)
     = (success (stats self) + failed (stats self) + skipped (stats self))%Z ->
     exists rs self' e',
       download_all urls (self, e) = (Returned rs, (self', e')) /\
       length rs = length urls /\
       total (stats self')
       = (success (stats self') + failed (stats self') + skipped (stats self'))%Z).
Proof.
  assert (Hcall : forall url self (e : Env World),
     (0 <= RateLimiter.error_count (rate_limiter self))%Z ->
     exists r self' e',
       download_video url (self, e) = (Returned r, (self', e')) /\
       one_outcome (stats self) (stats self') /\
       (0 <= RateLimiter.error_count (rate_limiter self'))%Z).
  { intros url self e Hn.
    pose proof (hoare_download_video url (stats self) self e (conj eq_refl Hn)) as Hd.
    destruct (download_video url (self, e)) as [[r | x] [self' e']]; [| contradiction].
    exists r, self', e'. split; [reflexivity |].
    unfold one_outcome.
    destruct Hd as [[Hs Hn'] | [[Hs Hn'] | [Hs Hn']]]; rewrite Hs; simpl;
      (split; [| exact Hn']); (split; [reflexivity |]); auto. }
  split; [| split; [exact Hcall |]].
  - intros od rl mr sl e e' self Hinit. unfold init in Hinit.
    destruct (path_mkdir od (world e)) as [[u | x] w']; [| discriminate].
    injection Hinit as <- _. reflexivity.
  - induction urls as [| url urls IH]; intros self e Hn Hbal.
    + exists [], self, e. auto.
    + destruct (Hcall url self e Hn) as (r & self1 & e1 & Hrun & Hone & Hn1).
      destruct (IH self1 e1 Hn1) as (rs & self2 & e2 & Hrest & Hlen & Hbal2).
      { destruct Hone as [Ht Hcases]. lia. }
      exists (r :: rs), self2, e2.
      simpl download_all. unfold bind. rewrite Hrun, Hrest. simpl.
      auto.
Qed.

Lemma with_rate_limiter_wait_for_request (self : t) (e : Env World) :
  with_rate_limiter RateLimiter.wait_for_request (self, e)
  = let s1 := exec RateLimiter.wait_for_request (rate_limiter self, e) in
    (Returned tt, (set_rate_limiter (fst s1) self, snd s1)).
Proof.
  unfold with_rate_limiter, zoom, exec. rewrite wait_for_request_eq.
  destruct (drawn _ _ e) as [jitter e1]. reflexivity.
Qed.

(** C1, amended. When the extractor resolves [url] to [video_id] and both
    files of [video_id] exist, [download_video] returns [(True, video_id)]
    having counted one skip, after exactly one [wait_for_request] and one
    [extract_info] call: the state is the one those two leave, so the download
    pacing clock is untouched and no media is fetched. *)
Theorem skip_after_resolution (self : t) (e : Env World) (url video_id : string)
    (video_info : gmap string value) (w : World) :
  let s1 := exec RateLimiter.wait_for_request (rate_limiter self, e) in
  let video_dir := path_join (output_dir self) video_id in
  ydl_extract_info url (world (snd s1)) = (Returned video_info, w) ->
  video_info !! "id" = Some (VStr video_id) ->
  path_exists (path_join video_dir (video_id ++ ".m4a")) w = true ->
  path_exists (path_join video_dir (video_id ++ ".json")) w = true ->
  download_video url (self, e)
  = (Returned (true, Some video_id),
     (set_stats (fun st => incr_skipped (incr_total st)) (set_rate_limiter (fst s1) self),
      {| world := w; trace := trace (snd s1) ++ [ExtractInfo url] |})) /\
  RateLimiter.last_download_time (fst s1) = RateLimiter.last_download_time (rate_limiter self).
Proof.
  intros s1 video_dir Hinfo Hid Haudio Hmeta.
  split.
  - unfold download_video.
    erewrite bind_returned; [| reflexivity].
    apply try_returned. unfold download_video_body.
    erewrite bind_returned; [| apply with_rate_limiter_wait_for_request].
    change (rate_limiter (set_stats incr_total self)) with (rate_limiter self).
    fold s1. cbv zeta.
    erewrite bind_returned; [| unfold call; cbn [world trace]; rewrite Hinfo; reflexivity].
    erewrite bind_returned; [| unfold info_id; rewrite Hid; reflexivity].
    erewrite bind_returned; [| reflexivity].
    erewrite bind_returned; [| reflexivity].
    erewrite bind_returned; [| reflexivity].
    cbn [fst output_dir set_rate_limiter set_stats world].
    fold video_dir. rewrite Haudio, Hmeta. reflexivity.
  - subst s1. unfold exec. rewrite wait_for_request_eq.
    destruct (drawn _ _ e) as [jitter e1]. reflexivity.
Qed.

End YouTubeFacts.

Lemma stats_invariant_witness :
  (0 <= RateLimiter.error_count (YouTubeDownloader.rate_limiter Example.downloader))%Z /\
  one_outcome
    (YouTubeDownloader.stats Example.downloader)
    (YouTubeDownloader.stats
       (fst (exec (YouTubeDownloader.download_video Example.video_url)
               (Example.downloader, Scripted.start Example.quiet)))).
Proof.
  assert (Hn : (0 <= RateLimiter.error_count
                      (YouTubeDownloader.rate_limiter Example.downloader))%Z)
    by (simpl; lia).
  split; [exact Hn |].
  destruct (proj1 (proj2 stats_invariant) Example.video_url Example.downloader
              (Scripted.start Example.quiet) Hn) as (r & self' & e' & Hrun & Hone & _).
  unfold exec. rewrite Hrun. exact Hone.
Defined.

Lemma skip_after_resolution_witness :
  let s1 := exec RateLimiter.wait_for_request
              (YouTubeDownloader.rate_limiter Example.downloader,
               Scripted.start Example.library) in
  let video_info : gmap string value :=
    list_to_map [("id", VStr "abc"); ("title", VStr "A title")] in
  ydl_extract_info Example.video_url (world (snd s1)) = (Returned video_info, world (snd s1)) /\
  video_info !! "id" = Some (VStr "abc") /\
  path_exists "downloads/abc/abc.m4a" (world (snd s1)) = true /\
  path_exists "downloads/abc/abc.json" (world (snd s1)) = true /\
  fst (YouTubeDownloader.download_video Example.video_url
         (Example.downloader, Scripted.start Example.library))
  = Returned (true, Some "abc").
Proof.
  intros s1 video_info.
  assert (H1 : ydl_extract_info Example.video_url (world (snd s1))
               = (Returned video_info, world (snd s1))) by reflexivity.
  assert (H2 : video_info !! "id" = Some (VStr "abc")) by reflexivity.
  assert (H3 : path_exists "downloads/abc/abc.m4a" (world (snd s1)) = true) by reflexivity.
  assert (H4 : path_exists "downloads/abc/abc.json" (world (snd s1)) = true) by reflexivity.
  repeat (split; [assumption |]).
  destruct (skip_after_resolution Example.downloader (Scripted.start Example.library)
              Example.video_url "abc" video_info (world (snd s1)) H1 H2 H3 H4) as [Hrun _].
  rewrite Hrun. reflexivity.
Defined.

(** C1 as worded fails: the item is on disk, the call is a skip, and it has
    slept on the request pacing and called the extractor over the network. *)
Lemma skip_is_not_silent :
  ~ skips_silently Example.downloader (Scripted.start Example.library)
      Example.video_url "abc"
  /\ trace (snd (exec (YouTubeDownloader.download_video Example.video_url)
                   (Example.downloader, Scripted.start Example.library)))
     = [Sleep (3 + (5 - 3) * (1 # 2) - (1001 - 1000))%Q; ExtractInfo Example.video_url].
Proof.
  split.
  - unfold skips_silently. vm_compute. intros [_ Hsilent]. discriminate Hsilent.
  - reflexivity.
Qed.

(** ** TurboScribeBatch *)

Section TurboScribeFacts.
Context {World : Type} `{Platform World}.
Import TurboScribeBatch.

Local Tactic Notation "step" open_constr(rule) :=
  eapply hoare_bind; [eapply rule | intros ?].

(** The three dictionary shapes that [process_single_url] builds. *)
Local Ltac result_shape :=
  split; [reflexivity |]; split; [eexists; reflexivity |];
  let v := fresh "v" in let Hv := fresh "Hv" in
  intros v Hv;
  first [ discriminate Hv
        | injection Hv as <-; eexists; reflexivity ].

(** [_extract_video_id] never raises. *)
Lemma hoare_extract_video_id (P : t -> Prop) (youtube_url : string) R :
  hoare P (_extract_video_id youtube_url) (fun _ => P) R.
Proof.
  intros o e Ho. unfold _extract_video_id.
  destruct (str_contains "v=" youtube_url).
  { destruct (py_index _ 1) as [part |]; [| exact Ho].
    destruct (py_index _ 0); exact Ho. }
  destruct (str_contains "youtu.be/" youtube_url); [| exact Ho].
  destruct (py_index _ 1) as [part |]; [| exact Ho].
  destruct (py_index _ 0); exact Ho.
Qed.

(** [_download_audio] never raises: whatever goes wrong in making the
    directory, in the request or in writing the file ends in [None]. *)
Lemma hoare_download_audio (P : t -> Prop) (audio_url video_id : string) R :
  hoare P (_download_audio audio_url video_id) (fun _ => P) R.
Proof.
  unfold _download_audio.
  eapply hoare_try with (R1 := fun _ => P).
  - step (hoare_call (Self := t) P).
    step (hoare_py_strftime (Self := t) P).
    step (hoare_call (Self := t) P).
    apply hoare_ret_frame.
  - intros x. apply hoare_ret_frame.
Qed.

Section BatchRuns.

(** [G] stands for the conditions under which a batch is known to return;
    with [False] for it, what is proved holds of every run. *)
Variable G : Prop.
Hypothesis Gsave : G -> html_saves_succeed.
Hypothesis Gnet : G -> network_errors_only.
Hypothesis Gparse : G -> parser_accepts.

Lemma hoare_save_html_response (P : t -> Prop) (youtube_url html_content : string) :
  hoare P (_save_html_response youtube_url html_content) (fun _ => P)
        (fun _ o => P o /\ ~ G).
Proof.
  unfold _save_html_response.
  step (hoare_extract_video_id P).
  step (hoare_call_unless (Self := t) P G).
  { intros HG w. exists tt. apply (Gsave HG). }
  step (hoare_py_strftime (Self := t) P).
  step (hoare_call_unless (Self := t) P G).
  { intros HG w. exists tt. apply (Gsave HG). }
  apply hoare_ret_frame.
Qed.

(** The extractor raises only on a page the parser does not accept. *)
Lemma hoare_extract_audio_link {Self : Type} (P : Self -> Prop) (html_content : string) :
  hoare P (lift_outcome (_extract_audio_link html_content)
             : M (Self * Env World) (option string))
        (fun _ => P) (fun _ o => P o /\ ~ G).
Proof.
  apply hoare_lift_unless. intros HG. unfold _extract_audio_link.
  destruct (Gparse HG html_content) as [tags ->]. eauto.
Qed.

(** The [try] block of [process_single_url]: it returns a result for the URL,
    or it raises; under [G] it raises nothing but what the session raised. *)
Lemma hoare_process_single_url_body (P : t -> Prop) (youtube_url : string)
    (save_html download_audio : bool) :
  hoare P (process_single_url_body youtube_url save_html download_audio)
        (fun r o => P o /\ result_for youtube_url r)
        (fun x o => (G -> is_request_exception x = true) /\ P o).
Proof.
  set (R := fun (x : exn) (o : t) => (G -> is_request_exception x = true) /\ P o).
  assert (Hunless : forall (A : Type) (m : M (t * Env World) A),
            hoare P m (fun _ => P) (fun _ o => P o /\ ~ G) ->
            hoare P m (fun _ => P) R).
  { intros A m Hm. eapply hoare_weaken; [exact Hm | auto | auto |].
    intros x o [Ho HnG]. split; [intros HG; contradiction | exact Ho]. }
  unfold process_single_url_body.
  eapply hoare_bind; [apply (hoare_get_self_frame (Self := t) P) | intros self].
  eapply hoare_bind.
  { apply (hoare_call_raises (Self := t) P)
      with (E := fun x => G -> is_request_exception x = true).
    intros w x Hx HG. exact (Gnet HG _ _ w x Hx). }
  intros response. cbv beta.
  destruct (status_code response =? 200)%Z.
  - cbv zeta.
    eapply hoare_bind with (Q1 := fun _ => P).
    { destruct (save_html && _).
      - eapply hoare_bind; [apply Hunless, hoare_save_html_response | intros f].
        apply hoare_ret_frame.
      - apply hoare_ret_frame. }
    intros html_file.
    eapply hoare_bind with (Q1 := fun _ => P).
    { destruct (download_audio && _); [| apply hoare_ret_frame].
      eapply hoare_bind; [apply Hunless, hoare_extract_audio_link | intros audio_link].
      destruct audio_link as [link |]; [| apply hoare_ret_frame].
      destruct (str_truthy link); [| apply hoare_ret_frame].
      step (hoare_extract_video_id P). apply hoare_download_audio. }
    intros audio_file.
    intros o e Ho. simpl. split; [exact Ho |]. result_shape.
  - intros o e Ho. simpl. split; [exact Ho |]. result_shape.
Qed.

(** [process_single_url] returns a result carrying the URL and a status, or
    it raises; under [G] it returns. *)
Lemma hoare_process_single_url (P : t -> Prop) (youtube_url : string)
    (save_html download_audio : bool) :
  hoare P (process_single_url youtube_url save_html download_audio)
        (fun r o => P o /\ result_for youtube_url r)
        (fun _ o => P o /\ ~ G).
Proof.
  unfold process_single_url.
  eapply hoare_try.
  - apply (hoare_process_single_url_body P).
  - intros x. unfold process_single_url_handler.
    destruct (is_request_exception x) eqn:Hx.
    + intros o e [_ Ho]. simpl. split; [exact Ho |]. result_shape.
    + intros o [Hreq Ho]. split; [exact Ho |]. intros HG.
      specialize (Hreq HG). congruence.
Qed.

(** The loop of [process_batch] appends one result per URL, in order; under
    [G] and with a delay that can be slept, it returns. *)
Lemma hoare_process_batch_loop (urls : list string) (save_html download_audio : bool) :
  forall (total idx : nat) (results : list (gmap string value)),
    hoare (fun o => G -> (0 <= delay o)%Q)
          (process_batch_loop total idx urls save_html download_audio results)
          (fun rs _ => exists new, rs = results ++ new /\ Forall2 result_for urls new)
          (fun _ _ => ~ G).
Proof.
  set (P := fun o : t => G -> (0 <= delay o)%Q).
  assert (Hloop : forall (total idx : nat) (results : list (gmap string value)),
            hoare P (process_batch_loop total idx urls save_html download_audio results)
                  (fun rs _ => exists new, rs = results ++ new /\ Forall2 result_for urls new)
                  (fun _ o => P o /\ ~ G)).
  { induction urls as [| url urls IH]; intros total idx results.
    - intros o e Ho. simpl. exists []. split; [now rewrite app_nil_r | constructor].
    - simpl process_batch_loop.
      eapply hoare_bind;
        [apply (hoare_process_single_url P url save_html download_audio) |].
      intros r. apply hoare_assume. intros Hr.
      eapply hoare_bind with (Q1 := fun _ => P).
      { destruct (idx <? total)%nat; [| apply hoare_ret_frame].
        eapply hoare_bind; [apply (hoare_get_self (Self := t) P) | intros self].
        intros o e [-> Ho].
        exact (hoare_py_sleep_unless (Self := t) P G (delay o) Ho o e Ho). }
      intros _. eapply hoare_weaken.
      + apply (IH total (S idx) (results ++ [r])).
      + intros o Ho. exact Ho.
      + intros rs o (new & -> & Hnew). exists (r :: new).
        split; [now rewrite <- app_assoc | now constructor].
      + auto. }
  intros total idx results. eapply hoare_weaken; [apply Hloop | auto | auto |].
  intros x o [_ HnG]. exact HnG.
Qed.

End BatchRuns.

End TurboScribeFacts.

(** ** ParallelAudioDownloader *)

Section ParallelFacts.
Context {World : Type} `{Platform World}.
Variable schedule : list nat -> list nat.
Import TurboScribeBatch ParallelAudioDownloader.

Section ParallelRuns.

(** [G] stands for the conditions under which the orchestrator is known to
    return; with [False] for it, what is proved holds of every run. *)
Variable G : Prop.
Hypothesis Gsave : G -> html_saves_succeed.
Hypothesis Gnet : G -> network_errors_only.
Hypothesis Gparse : G -> parser_accepts.

(** The configuration that [G] promises: a delay that can be slept and a
    worker bound the executor accepts. *)
Let Pc (c : TurboScribeBatch.t) : Prop := G -> (0 <= delay c)%Q.
Let Pp (o : ParallelAudioDownloader.t) : Prop :=
  G -> (0 <= delay (processor o))%Q /\ (0 < max_workers o)%Z.

Lemma hoare_with_processor {A : Type} (m : M (TurboScribeBatch.t * Env World) A)
    (Qv : A -> Prop) :
  hoare Pc m (fun a c => Pc c /\ Qv a) (fun _ c => Pc c /\ ~ G) ->
  hoare Pp (with_processor m) (fun a o => Pp o /\ Qv a) (fun _ o => Pp o /\ ~ G).
Proof.
  intros Hm o e Ho. unfold with_processor, zoom.
  assert (Hc : Pc (processor o)) by (intros HG; apply (Ho HG)).
  specialize (Hm (processor o) e Hc).
  destruct (m (processor o, e)) as [[a | x] [c' e']]; simpl.
  - destruct Hm as [Hc' Hv]. split; [| exact Hv].
    intros HG. split; [apply (Hc' HG) | apply (Ho HG)].
  - destruct Hm as [_ HnG]. split; [intros HG; contradiction | exact HnG].
Qed.

(** The same for a method that never raises and promises nothing about its
    value. *)
Lemma hoare_with_processor_frame {A : Type} (m : M (TurboScribeBatch.t * Env World) A) R :
  hoare Pc m (fun _ => Pc) (fun _ _ => False) ->
  hoare Pp (with_processor m) (fun _ => Pp) R.
Proof.
  intros Hm o e Ho. unfold with_processor, zoom.
  assert (Hc : Pc (processor o)) by (intros HG; apply (Ho HG)).
  specialize (Hm (processor o) e Hc).
  destruct (m (processor o, e)) as [[a | x] [c' e']]; simpl; [| contradiction].
  intros HG. split; [apply (Hm HG) | apply (Ho HG)].
Qed.

Lemma hoare_lift_returned {Self A : Type} (P : Self -> Prop) (a : A) R :
  hoare P (lift_outcome (Returned a) : M (Self * Env World) A)
        (fun a' o => P o /\ a' = a) R.
Proof. intros o e Ho. simpl. auto. Qed.

Lemma status_is_success_returns (r : gmap string value) :
  is_Some (r !! "status") -> status_is_success r = Returned (succeeded r).
Proof.
  intros [v Hv]. unfold status_is_success, succeeded. rewrite Hv.
  destruct v; reflexivity.
Qed.

Lemma result_for_insert (url key : string) (v : value) (r : gmap string value) :
  key <> "url" -> key <> "status" -> key <> "response" ->
  result_for url r -> result_for url (<[key := v]> r).
Proof.
  intros Hu Hs Hr (Hurl & Hst & Hresp). unfold result_for.
  rewrite !lookup_insert_ne by assumption. auto.
Qed.

(** A truthy [r.get(k)] means the key is present. *)
Lemma truthy_dict_get (r : gmap string value) (k : string) :
  truthy (dict_get r k) = true -> exists v, r !! k = Some v /\ truthy v = true.
Proof.
  unfold dict_get. destruct (r !! k) as [v |]; [eauto | discriminate].
Qed.

Lemma hoare_extract_video_id_dyn (v : value) :
  hoare Pc (_extract_video_id_dyn v) (fun _ => Pc) (fun _ _ => False).
Proof.
  destruct v; simpl; try apply (hoare_py_strftime (Self := TurboScribeBatch.t) Pc).
  apply hoare_extract_video_id.
Qed.

Lemma hoare_download_audio_dyn (v : value) (video_id : string) :
  hoare Pc (_download_audio_dyn v video_id) (fun _ => Pc) (fun _ _ => False).
Proof.
  assert (Hcaught : hoare Pc
            (try_except
               (call (Mkdir "audio_downloads") (path_mkdir "audio_downloads") ;;;
                raise (OtherException "argument is not iterable"))
               (fun _ => Some (ret (@None string))))
            (fun _ => Pc) (fun _ _ => False)).
  { eapply hoare_try with (R1 := fun _ => Pc).
    - eapply hoare_bind; [apply (hoare_call (Self := TurboScribeBatch.t) Pc) | intros ?].
      apply hoare_raise_frame.
    - intros x. apply hoare_ret_frame. }
  destruct v; simpl; try exact Hcaught.
  apply hoare_download_audio.
Qed.

(** A download task returns its dictionary, still a result for the same URL. *)
Lemma hoare_download_audio_task (url : string) (r : gmap string value) R :
  result_for url r ->
  hoare Pp (download_audio_task r) (fun r' o => Pp o /\ result_for url r') R.
Proof.
  intros Hr. pose proof Hr as (Hurl & Hst & Hresp).
  unfold download_audio_task, is_download_task.
  rewrite (status_is_success_returns r Hst).
  eapply hoare_bind; [apply (hoare_lift_returned Pp) | intros is_task].
  apply hoare_assume. intros ->.
  destruct (succeeded r && truthy (dict_get r "audio_link")) eqn:Htask.
  - apply andb_prop in Htask as [_ Hlink].
    destruct (truthy_dict_get _ _ Hlink) as (link & Hl & _).
    rewrite Hurl, Hl.
    eapply hoare_bind.
    { apply hoare_with_processor_frame, hoare_extract_video_id_dyn. }
    intros video_id.
    eapply hoare_bind.
    { apply hoare_with_processor_frame, hoare_download_audio_dyn. }
    intros audio_file o e Ho. simpl. split; [exact Ho |].
    apply result_for_insert; [discriminate .. | exact Hr].
  - intros o e Ho. simpl. auto.
Qed.

(** Step 1 appends one result per URL, in order; under [G] it returns. *)
Lemma hoare_resolve_loop (urls : list string) :
  forall (total idx : nat) (results : list (gmap string value)),
    hoare Pp (resolve_loop total idx urls results)
          (fun rs o => Pp o /\ exists new, rs = results ++ new /\ Forall2 result_for urls new)
          (fun _ o => Pp o /\ ~ G).
Proof.
  induction urls as [| url urls IH]; intros total idx results.
  - intros o e Ho. simpl. split; [exact Ho |].
    exists []. split; [now rewrite app_nil_r | constructor].
  - simpl resolve_loop.
    eapply hoare_bind.
    { apply (hoare_with_processor _ (result_for url)).
      apply (hoare_process_single_url G Gsave Gnet Gparse Pc url true false). }
    intros r. apply hoare_assume. intros Hr.
    pose proof Hr as (Hurl & Hst & Hresp).
    rewrite (status_is_success_returns r Hst).
    eapply hoare_bind; [apply (hoare_lift_returned Pp) | intros ok].
    apply hoare_assume. intros ->.
    eapply hoare_bind with (Q1 := fun r' o => Pp o /\ result_for url r').
    { destruct (succeeded r && truthy (dict_get r "response")) eqn:Hok.
      - apply andb_prop in Hok as [_ Htruthy].
        destruct (truthy_dict_get _ _ Htruthy) as (v & Hv & _).
        destruct (Hresp v Hv) as [body ->]. rewrite Hv.
        eapply hoare_bind;
          [apply (hoare_extract_audio_link G Gparse Pp body) | intros audio_link].
        intros o e Ho. simpl. split; [exact Ho |].
        apply result_for_insert; [discriminate .. | exact Hr].
      - intros o e Ho. simpl. auto. }
    intros r'. apply hoare_assume. intros Hr'.
    eapply hoare_bind with (Q1 := fun _ => Pp).
    { destruct (idx <? total)%nat; [| apply hoare_ret_frame].
      eapply hoare_bind;
        [apply (hoare_get_self (Self := ParallelAudioDownloader.t) Pp) | intros self].
      intros o e [-> Ho].
      exact (hoare_py_sleep_unless (Self := ParallelAudioDownloader.t) Pp G
               (delay (processor o)) (fun HG => proj1 (Ho HG)) o e Ho). }
    intros ?. eapply hoare_weaken.
    + apply (IH total (S idx) (results ++ [r'])).
    + intros o Ho. exact Ho.
    + intros rs o (Ho & new & -> & Hnew). split; [exact Ho |]. exists (r' :: new).
      split; [now rewrite <- app_assoc | now constructor].
    + auto.
Qed.

Lemma task_indices_from_returns (urls : list string) (results : list (gmap string value)) :
  Forall2 result_for urls results ->
  forall i, exists l, task_indices_from i results = Returned l.
Proof.
  induction 1 as [| url r urls results Hr _ IH]; intros i; simpl.
  - eauto.
  - unfold is_download_task.
    rewrite (status_is_success_returns r (proj1 (proj2 Hr))).
    destruct (IH (S i)) as [l ->]. eauto.
Qed.

(** Step 2, in any completion order: every task rewrites the dictionary at
    its own position, which stays a result for the URL at that position. *)
Lemma hoare_run_tasks (urls : list string) (order : list nat) :
  forall results : list (gmap string value),
    Forall2 result_for urls results ->
    hoare Pp (run_tasks order results)
          (fun rs o => Pp o /\ Forall2 result_for urls rs) (fun _ _ => False).
Proof.
  induction order as [| i order IH]; intros results Hres.
  - intros o e Ho. simpl. auto.
  - simpl run_tasks. destruct (results !! i) as [r |] eqn:Hi; [| apply IH, Hres].
    destruct (Forall2_lookup_r _ _ _ _ _ Hres Hi) as (url & Hu & Hr).
    eapply hoare_bind; [apply (hoare_download_audio_task url r _ Hr) |].
    intros r'. apply hoare_assume. intros Hr'.
    apply IH. rewrite <- (list_insert_id urls i url Hu).
    now apply Forall2_insert.
Qed.

Lemma in_input_order_of_results (urls : list string) (results : list (gmap string value)) :
  Forall2 result_for urls results -> in_input_order urls results.
Proof.
  intros Hres. split; [symmetry; apply (Forall2_length _ _ _ Hres) |].
  intros i url Hu.
  destruct (Forall2_lookup_l _ _ _ _ _ Hres Hu) as (r & Hr & Hfor).
  exists r. split; [exact Hr | apply Hfor].
Qed.

(** A run of [process_batch]: a list in input order, or an exception that
    [G] and a delay that can be slept rule out. *)
Lemma process_batch_run (urls : list string) (self : TurboScribeBatch.t) (e : Env World)
    (save_html download_audio : bool) :
  (G -> (0 <= delay self)%Q) ->
  match process_batch urls save_html download_audio (self, e) with
  | (Returned results, _) => in_input_order urls results
  | (Raised _, _) => ~ G
  end.
Proof.
  intros Hdelay.
  pose proof (hoare_process_batch_loop G Gsave Gnet Gparse urls save_html download_audio
                (length urls) 1%nat [] self e Hdelay) as Hrun.
  unfold process_batch.
  destruct (process_batch_loop _ _ _ _ _ _ _) as [[results | x] [o' e']]; [| exact Hrun].
  destruct Hrun as (new & -> & Hnew). now apply in_input_order_of_results.
Qed.

(** A run of the parallel orchestrator, in any completion order: a list in
    input order, or an exception that [G], a delay that can be slept and a
    positive worker bound rule out. *)
Lemma process_with_parallel_download_run (urls : list string)
    (self : ParallelAudioDownloader.t) (e : Env World) :
  (G -> (0 <= delay (processor self))%Q /\ (0 < max_workers self)%Z) ->
  match process_with_parallel_download schedule urls (self, e) with
  | (Returned results, _) => in_input_order urls results
  | (Raised _, _) => ~ G
  end.
Proof.
  intros Hp.
  pose proof (hoare_resolve_loop urls (length urls) 1%nat [] self e Hp) as Hrun.
  unfold process_with_parallel_download.
  unfold bind at 1.
  destruct (resolve_loop _ _ _ _ _) as [[results | x] [o1 e1]]; [| exact (proj2 Hrun)].
  destruct Hrun as (Hp1 & new & Hnew_eq & Hnew). simpl in Hnew_eq. subst results.
  destruct (task_indices_from_returns urls new Hnew 0) as [tasks Htasks].
  unfold bind at 1. unfold lift_outcome, task_indices. rewrite Htasks.
  destruct tasks as [| i tasks].
  - now apply in_input_order_of_results.
  - unfold bind, get_self, gets. cbn [fst].
    destruct (max_workers o1 <=? 0)%Z eqn:Hw.
    + apply Z.leb_le in Hw. intros HG. destruct (Hp1 HG). cbn [raise]. lia.
    + pose proof (hoare_run_tasks urls (schedule (i :: tasks)) new Hnew o1 e1 Hp1) as Hrun.
      destruct (run_tasks (schedule (i :: tasks)) new (o1, e1))
        as [[results | x] [o2 e2]]; [| contradiction].
      apply in_input_order_of_results, Hrun.
Qed.

End ParallelRuns.


(** C2, amended. When the endpoint answers 200 with a non-empty body in
    which the link extractor finds no link, and the response is saved,
    [process_single_url] returns a result with status "success", no error
    detail and [audio_file] set to [None]; the parallel orchestrator, run on
    that single URL, returns the same result with [audio_link] set to [None]
    and starts no download. *)
Theorem no_link_is_success (self : TurboScribeBatch.t) (e : Env World) (url : string)
    (download_audio : bool) (response : Response) (w1 : World) (html_file : string)
    (s2 : TurboScribeBatch.t * Env World) :
  let decoded := _decode_response_content response in
  let r : gmap string value :=
    list_to_map [("url", VStr url); ("status", VStr "success");
                 ("response", VStr decoded); ("status_code", VInt (status_code response));
                 ("html_file", VStr html_file); ("audio_file", VNone)] in
  session_post (api_url self) url (world e) = (Returned response, w1) ->
  status_code response = 200%Z ->
  str_truthy decoded = true ->
  _extract_audio_link decoded = Returned None ->
  _save_html_response url decoded
    (self, {| world := w1; trace := trace e ++ [HttpPost (api_url self) url] |})
  = (Returned html_file, s2) ->
  process_single_url url true download_audio (self, e) = (Returned r, s2) /\
  r !! "status" = Some (VStr "success") /\
  r !! "error" = None /\
  r !! "audio_file" = Some VNone /\
  forall pself : ParallelAudioDownloader.t,
    processor pself = self ->
    process_with_parallel_download schedule [url] (pself, e)
    = (Returned [<["audio_link" := VNone]> r], (set_processor (fst s2) pself, snd s2)).
Proof.
  intros decoded r Hpost Hcode Htruthy Hlink Hsave.
  assert (Hsingle : forall download_audio,
            process_single_url url true download_audio (self, e) = (Returned r, s2)).
  { intros da. unfold process_single_url. apply try_returned.
    unfold process_single_url_body.
    erewrite bind_returned; [| reflexivity].
    erewrite bind_returned; [| unfold call; cbn [world trace fst]; rewrite Hpost; reflexivity].
    rewrite Hcode. cbn [Z.eqb Pos.eqb]. fold decoded.
    rewrite Htruthy, Hlink. cbn [andb].
    erewrite bind_returned; [| erewrite bind_returned; [reflexivity | exact Hsave]].
    erewrite bind_returned; [| destruct da; reflexivity].
    rewrite <- Hcode. reflexivity. }
  split; [apply Hsingle |].
  split; [reflexivity |]. split; [reflexivity |]. split; [reflexivity |].
  intros pself Hproc. destruct s2 as [c2 e2]. cbn [fst snd].
  unfold process_with_parallel_download. simpl resolve_loop.
  erewrite bind_returned.
  2: { erewrite bind_returned.
       2: { unfold with_processor, zoom. rewrite Hproc, (Hsingle false). reflexivity. }
       erewrite bind_returned; [| reflexivity].
       change (succeeded r) with true.
       change (truthy (dict_get r "response")) with (str_truthy decoded).
       rewrite Htruthy. cbn [andb].
       change (r !! "response") with (Some (VStr decoded)). cbv iota beta.
       rewrite Hlink.
       erewrite bind_returned; [| reflexivity].
       erewrite bind_returned; [| reflexivity].
       reflexivity. }
  erewrite bind_returned; [| reflexivity].
  reflexivity.
Qed.

End ParallelFacts.

Lemma no_link_is_success_witness :
  let self := TurboScribeBatch.init 1 in
  let e := Scripted.start Example.no_link in
  let e1 := {| world := Example.no_link;
               trace := [HttpPost (TurboScribeBatch.api_url self) Example.video_url] |} in
  let saved := TurboScribeBatch._save_html_response Example.video_url Example.plain_body
                 (self, e1) in
  session_post (TurboScribeBatch.api_url self) Example.video_url (world e)
  = (Returned Example.plain_response, Example.no_link) /\
  str_truthy (TurboScribeBatch._decode_response_content (World := Scripted.World)
                Example.plain_response) = true /\
  TurboScribeBatch._extract_audio_link (World := Scripted.World) Example.plain_body
  = Returned None /\
  fst saved = Returned "html_responses/abc_20240101_120000.html" /\
  exists r,
    fst (TurboScribeBatch.process_single_url Example.video_url true true (self, e))
    = Returned r /\
    r !! "status" = Some (VStr "success") /\ r !! "audio_file" = Some VNone.
Proof.
  intros self e e1 saved.
  destruct (no_link_is_success (fun l => l) self e Example.video_url true
              Example.plain_response Example.no_link
              "html_responses/abc_20240101_120000.html" (snd saved))
    as (Hrun & Hstatus & _ & Haudio & _); try reflexivity.
  repeat (split; [reflexivity |]).
  eexists. rewrite Hrun. split; [reflexivity |]. split; [exact Hstatus | exact Haudio].
Defined.

(** C2 as worded fails: the endpoint answers 200, the extractor finds no
    link, and the result is neither "failed" nor does it carry the detail
    "no media link". *)
Lemma no_link_is_not_failed :
  TurboScribeBatch._extract_audio_link (World := Scripted.World) Example.plain_body
  = Returned None /\
  exists r,
    fst (TurboScribeBatch.process_single_url Example.video_url true true
           (TurboScribeBatch.init 1, Scripted.start Example.no_link))
    = Returned r /\
    r !! "status" = Some (VStr "success") /\
    ~ (r !! "status" = Some (VStr "failed") /\ r !! "error" = Some (VStr "no media link")).
Proof.
  split; [reflexivity |].
  eexists. split; [reflexivity |]. split; [reflexivity |].
  intros [Hstatus _]. discriminate Hstatus.
Qed.



(** C7, at the failing input. The endpoint answers 200 for both URLs, the
    response directory refuses the write: the error leaves
    [process_single_url] through its [except] clause for [requests]
    exceptions, [process_batch] raises it after the first request, and no
    result list is returned; the second URL is never requested. *)
Theorem html_write_error_aborts_batch :
  let run := TurboScribeBatch.process_batch Example.two_urls true true
               (TurboScribeBatch.init 1, Scripted.start Example.read_only) in
  fst run = Raised (OtherException "Permission denied") /\
  trace (snd (snd run))
  = [HttpPost "https://turboscribe.ai/_htmx/NCN20gAEkZMBzQPXkQc"
       "https://www.youtube.com/watch?v=abc";
     Mkdir "html_responses";
     WriteFile "html_responses/abc_20240101_120000.html"].
Proof. split; reflexivity. Qed.

(** ** The printed summaries *)

Lemma count_success_filter (results : list (gmap string value)) :
  Forall (fun r => is_Some (r !! "status")) results ->
  TurboScribeBatch.count_success results
  = Returned (Z.of_nat (length (List.filter succeeded results))).
Proof.
  induction 1 as [| r results Hr _ IH]; [reflexivity |].
  simpl TurboScribeBatch.count_success.
  rewrite (status_is_success_returns r Hr), IH. simpl List.filter.
  destruct (succeeded r); simpl length; f_equal; lia.
Qed.

(** C8, amended. The downloader's summary reports the total, successful,
    skipped and failed counts and, when the total is positive, the success
    percentage [success / total * 100]; with a total of zero it prints no
    percentage. The batch summary over a result list reports three counts
    only: the total, the number of results with status "success", and their
    difference as the failed count. *)
Theorem summaries_report (self : YouTubeDownloader.t) (results : list (gmap string value)) :
  Forall (fun r => is_Some (r !! "status")) results ->
  (let st := YouTubeDownloader.stats self in
   let out := YouTubeDownloader.print_summary self in
   In (Count "Total URLs processed: " (YouTubeDownloader.total st)) out /\
   In (Count "✓ Successful:        " (YouTubeDownloader.success st)) out /\
   In (Count "⊘ Skipped (exists):  " (YouTubeDownloader.skipped st)) out /\
   In (Count "✗ Failed:            " (YouTubeDownloader.failed st)) out /\
   ((0 < YouTubeDownloader.total st)%Z ->
    In (Rate "Success rate: "
          (inject_Z (YouTubeDownloader.success st) / inject_Z (YouTubeDownloader.total st)
           * 100)%Q) out) /\
   ((YouTubeDownloader.total st <= 0)%Z -> forall label q, ~ In (Rate label q) out)) /\
  (let total := Z.of_nat (length results) in
   let success := Z.of_nat (length (List.filter succeeded results)) in
   TurboScribeBatch.print_summary results
   = Returned [Out ""; Out TurboScribeBatch.rule50; Out "處理摘要"; Out TurboScribeBatch.rule50;
               Count "總計: " total;
               Count "成功: " success;
               Count "失敗: " (total - success);
               Out TurboScribeBatch.rule50; Out ""]).
Proof.
  intros Hstatus. split.
  - unfold YouTubeDownloader.print_summary. cbv zeta.
    destruct (0 <? YouTubeDownloader.total (YouTubeDownloader.stats self))%Z eqn:Hpos.
    + apply Z.ltb_lt in Hpos. simpl. repeat split; try tauto. intros Hle. lia.
    + apply Z.ltb_ge in Hpos. simpl. repeat split; try tauto; try lia.
      intros _ label q Hin.
      repeat (destruct Hin as [Hin | Hin]; [discriminate Hin |]). exact Hin.
  - unfold TurboScribeBatch.print_summary.
    rewrite (count_success_filter results Hstatus). reflexivity.
Qed.

Lemma summaries_report_witness :
  Forall (fun r : gmap string value => is_Some (r !! "status")) Example.two_results /\
  TurboScribeBatch.print_summary Example.two_results
  = Returned [Out ""; Out TurboScribeBatch.rule50; Out "處理摘要"; Out TurboScribeBatch.rule50;
              Count "總計: " 2; Count "成功: " 1; Count "失敗: " 1;
              Out TurboScribeBatch.rule50; Out ""].
Proof.
  assert (Hstatus : Forall (fun r : gmap string value => is_Some (r !! "status"))
                      Example.two_results).
  { repeat constructor; eexists; reflexivity. }
  split; [exact Hstatus |].
  destruct (summaries_report Example.downloader Example.two_results Hstatus) as [_ Hbatch].
  rewrite Hbatch. reflexivity.
Defined.

(** C8 as worded fails on the batch summary: for a list of two results it
    prints no percentage, and the three counts it prints are the total, the
    successes and the failures. *)
Lemma batch_summary_has_no_rate :
  ~ (exists out label q,
       TurboScribeBatch.print_summary Example.two_results = Returned out /\
       In (Rate label q) out)
  /\ YouTubeDownloader.print_summary Example.downloader
     = [Out ""; Out YouTubeDownloader.rule60; Out "DOWNLOAD SUMMARY";
        Out YouTubeDownloader.rule60;
        Count "Total URLs processed: " 0;
        Count "✓ Successful:        " 0;
        Count "⊘ Skipped (exists):  " 0;
        Count "✗ Failed:            " 0;
        Out YouTubeDownloader.rule60; Out YouTubeDownloader.rule60; Out ""].
Proof.
  split; [| reflexivity].
  intros (out & label & q & Hout & Hin).
  assert (Hprinted : TurboScribeBatch.print_summary Example.two_results
            = Returned [Out ""; Out TurboScribeBatch.rule50; Out "處理摘要";
                        Out TurboScribeBatch.rule50;
                        Count "總計: " 2; Count "成功: " 1; Count "失敗: " 1;
                        Out TurboScribeBatch.rule50; Out ""]) by reflexivity.
  rewrite Hprinted in Hout. injection Hout as <-.
  repeat (destruct Hin as [Hin | Hin]; [discriminate Hin |]). exact Hin.
Qed.

(** * Further properties *)

(** ** RateLimiter: pacing *)

Section PacingFacts.
Context {World : Type} `{Platform World}.
Import RateLimiter.

(** Download pacing has no backoff term and its own clock: whatever the
    error counter, [wait_for_download] sleeps for the jitter less the time
    since the last download, and it changes nothing of the limiter but
    [last_download_time]; [wait_for_request] in turn leaves
    [last_download_time] alone. *)
Theorem pacing_channels_independent (rl : t) (e : Env World) (n : Z) :
  let r := fst (random_random (world e)) in
  let w1 := snd (random_random (world e)) in
  let jitter := (download_delay_min rl + (download_delay_max rl - download_delay_min rl) * r)%Q in
  let elapsed := (time_time w1 - last_download_time rl)%Q in
  let s := exec wait_for_download (rl, e) in
  trace (snd s) = trace e ++ (if Qltb elapsed jitter then [Sleep (jitter - elapsed)] else []) /\
  snd (exec wait_for_download (set_error_count n rl, e)) = snd s /\
  fst s = set_last_download_time (time_time (world (snd s))) rl /\
  last_download_time (fst (exec wait_for_request (rl, e))) = last_download_time rl.
Proof.
  intros r w1 jitter elapsed s. subst s. unfold exec.
  rewrite !wait_for_download_eq, wait_for_request_eq.
  unfold drawn. subst r w1. cbn [download_delay_min download_delay_max last_download_time
    set_error_count].
  destruct (random_random (world e)) as [r w1]. cbn [fst snd] in *.
  unfold paced; cbn [world trace]. fold jitter. fold elapsed.
  destruct (Qltb elapsed jitter); cbn [snd fst trace world];
    repeat split; try reflexivity; now rewrite app_nil_r.
Qed.

(** Only the code 403 is penalised: with any other code, or none,
    [on_error] returns at once, having only raised the counter. *)
Theorem on_error_penalises_only_403 (error_code : option Z) (rl : t) (e : Env World) :
  error_code <> Some 403%Z ->
  on_error error_code (rl, e) = (Returned tt, (set_error_count (error_count rl + 1) rl, e)).
Proof.
  intros Hc. apply on_error_other_eq.
  destruct error_code as [c |]; [| reflexivity].
  simpl. apply Z.eqb_neq. intros ->. now apply Hc.
Qed.

(** A success wipes both penalties, whatever the state: the next request
    delay is the bare jitter, and a 403 that follows is punished with the
    first rung of the ladder, 30 seconds. *)
Theorem on_success_clears_penalties (rl : t) (e : Env World) :
  let s := exec on_success (rl, e) in
  (forall jitter, request_delay (fst s) jitter = jitter) /\
  on_error (Some 403%Z) s
  = (Returned tt, (set_error_count 1 (fst s),
                   {| world := time_sleep 30 (world e); trace := trace e ++ [Sleep 30] |})).
Proof.
  intros s. subst s. unfold exec. rewrite on_success_eq. cbn [fst snd].
  split; [reflexivity |].
  rewrite on_error_403_eq by (simpl; lia). reflexivity.
Qed.

End PacingFacts.

Lemma on_error_penalises_only_403_witness :
  Some 429%Z <> Some 403%Z /\
  trace (snd (exec (RateLimiter.on_error (Some 429%Z))
                (RateLimiter.default, Scripted.start Example.quiet))) = [].
Proof.
  assert (Hc : Some 429%Z <> Some 403%Z) by discriminate.
  split; [exact Hc |].
  unfold exec.
  rewrite (on_error_penalises_only_403 (Some 429%Z) RateLimiter.default
             (Scripted.start Example.quiet) Hc).
  reflexivity.
Defined.

(** ** YouTubeDownloader: the paths of [download_video] *)

Lemma bind_raised {S A B : Type} (m : M S A) (k : A -> M S B) (s s' : S) (x : exn) :
  m s = (Raised x, s') -> bind m k s = (Raised x, s').
Proof. intros Hm. unfold bind. now rewrite Hm. Qed.

Lemma try_raised {S A : Type} (body : M S A) handler (h : M S A) (s s' : S) (x : exn) :
  body s = (Raised x, s') -> handler x = Some h -> try_except body handler s = h s'.
Proof. intros Hb Hh. unfold try_except. now rewrite Hb, Hh. Qed.

Section DownloadPaths.
Context {World : Type} `{Platform World}.
Import YouTubeDownloader.

(** When the extraction of the video info raises, [download_video] returns
    [(False, None)], counts one failure and one more consecutive error, and
    attempts nothing further. It sleeps the 403 penalty exactly when the
    exception is a DownloadError whose message contains "403" or "Forbidden";
    any other exception costs no sleep. *)
Theorem extraction_failure (self : t) (e : Env World) (url : string) (x : exn) (w : World) :
  let s1 := exec RateLimiter.wait_for_request (rate_limiter self, e) in
  let n := RateLimiter.error_count (rate_limiter self) in
  let penalty := inject_Z (ladder_403 (n + 1)) in
  (0 <= n)%Z ->
  ydl_extract_info url (world (snd s1)) = (Raised x, w) ->
  download_video url (self, e)
  = (Returned (false, None),
     (set_stats (fun st => incr_failed (incr_total st))
        (set_rate_limiter (RateLimiter.set_error_count (n + 1) (fst s1)) self),
      if names_403 x
      then {| world := time_sleep penalty w;
              trace := (trace (snd s1) ++ [ExtractInfo url]) ++ [Sleep penalty] |}
      else {| world := w; trace := trace (snd s1) ++ [ExtractInfo url] |})).
Proof.
  intros s1 n penalty Hn Hinfo.
  assert (Hcount : RateLimiter.error_count (fst s1) = n)
    by apply (wait_for_request_error_count (rate_limiter self, e)).
  unfold download_video.
  erewrite bind_returned; [| reflexivity].
  assert (Hbody : download_video_body url (set_stats incr_total self, e)
            = (Raised x, (set_rate_limiter (fst s1) (set_stats incr_total self),
                          {| world := w; trace := trace (snd s1) ++ [ExtractInfo url] |}))).
  { unfold download_video_body.
    erewrite bind_returned; [| apply with_rate_limiter_wait_for_request].
    change (rate_limiter (set_stats incr_total self)) with (rate_limiter self).
    fold s1. cbv zeta.
    apply bind_raised. unfold call. cbn [world trace]. now rewrite Hinfo. }
  assert (Hplain : forall o (e2 : Env World),
            (with_rate_limiter (RateLimiter.on_error None) ;;;
             set_self (set_stats incr_failed) ;;; ret (false, @None string))
              (set_rate_limiter (fst s1) o, e2)
            = (Returned (false, None),
               (set_stats incr_failed
                  (set_rate_limiter (RateLimiter.set_error_count (n + 1) (fst s1)) o), e2))).
  { intros o e2.
    erewrite bind_returned.
    2: { unfold with_rate_limiter, zoom. cbn [rate_limiter set_rate_limiter].
         rewrite on_error_other_eq by reflexivity. rewrite Hcount. reflexivity. }
    reflexivity. }
  destruct x as [m | m | error_msg | m]; cbn [names_403];
    try (erewrite try_raised; [| exact Hbody | reflexivity]; apply Hplain).
  erewrite try_raised; [| exact Hbody | reflexivity].
  destruct (str_contains "403" error_msg || str_contains "Forbidden" error_msg).
  - erewrite bind_returned.
    2: { unfold with_rate_limiter, zoom. cbn [rate_limiter set_rate_limiter].
         rewrite on_error_403_eq by (rewrite Hcount; exact Hn).
         rewrite Hcount. reflexivity. }
    reflexivity.
  - apply Hplain.
Qed.

Lemma with_rate_limiter_wait_for_download (self : t) (e : Env World) :
  with_rate_limiter RateLimiter.wait_for_download (self, e)
  = let s2 := exec RateLimiter.wait_for_download (rate_limiter self, e) in
    (Returned tt, (set_rate_limiter (fst s2) self, snd s2)).
Proof.
  unfold with_rate_limiter, zoom, exec. rewrite wait_for_download_eq.
  destruct (drawn _ _ e) as [delay e1]. reflexivity.
Qed.

(** The full download path. When the info is extracted, the files are not
    both on disk, and the directory, the media download and the metadata
    write all succeed, [download_video] returns [(True, video_id)], counts one
    success and resets the error counter to zero. A file that cannot be probed
    does not fail the download: the metadata is then written with codec
    "unknown" and zero rates. *)
Theorem download_succeeds (self : t) (e : Env World) (url video_id : string)
    (video_info : gmap string value) (speed : Z) (w2 w3 w4 w5 : World) :
  let video_dir := path_join (output_dir self) video_id in
  let audio_file := path_join video_dir (video_id ++ ".m4a") in
  let metadata_file := path_join video_dir (video_id ++ ".json") in
  let s1 := exec RateLimiter.wait_for_request (rate_limiter self, e) in
  let s2 := exec RateLimiter.wait_for_download
              (fst s1, {| world := w2; trace := trace (snd s1) ++ [ExtractInfo url] |}) in
  let audio_metadata :=
    match probe_audio audio_file w4 with
    | Returned md => md
    | Raised _ =>
        {| codec := "unknown"; sample_rate := 0; bit_rate := 0; channels := 0;
           duration_sec := 0;
           file_size := if path_exists audio_file w4 then path_size audio_file w4 else 0 |}
    end in
  ydl_extract_info url (world (snd s1)) = (Returned video_info, w2) ->
  video_info !! "id" = Some (VStr video_id) ->
  path_exists audio_file w2 && path_exists metadata_file w2 = false ->
  path_mkdir video_dir (world (snd s2)) = (Returned tt, w3) ->
  parse_speed_limit (speed_limit self) = Returned speed ->
  ydl_download url (path_join video_dir (video_id ++ ".%(ext)s")) w3 = (Returned tt, w4) ->
  file_write metadata_file (MetadataJson video_id video_info audio_metadata) w4
  = (Returned tt, w5) ->
  download_video url (self, e)
  = (Returned (true, Some video_id),
     (set_stats (fun st => incr_success (incr_total st))
        (set_rate_limiter (RateLimiter.set_error_count 0 (fst s2)) self),
      {| world := w5;
         trace := ((trace (snd s2) ++ [Mkdir video_dir]) ++ [YdlDownload url])
                  ++ [WriteFile metadata_file] |})).
Proof.
  intros video_dir audio_file metadata_file s1 s2 audio_metadata
    Hinfo Hid Hexists Hmkdir Hspeed Hmedia Hwrite.
  unfold download_video.
  erewrite bind_returned; [| reflexivity].
  apply try_returned. unfold download_video_body.
  erewrite bind_returned; [| apply with_rate_limiter_wait_for_request].
  change (rate_limiter (set_stats incr_total self)) with (rate_limiter self).
  fold s1. cbv zeta.
  erewrite bind_returned; [| unfold call; cbn [world trace]; rewrite Hinfo; reflexivity].
  erewrite bind_returned; [| unfold info_id; rewrite Hid; reflexivity].
  erewrite bind_returned; [| reflexivity].
  erewrite bind_returned; [| reflexivity].
  erewrite bind_returned; [| reflexivity].
  cbn [fst output_dir set_rate_limiter set_stats world].
  fold video_dir. fold audio_file. fold metadata_file. rewrite Hexists. cbv iota.
  erewrite bind_returned.
  2: { apply with_rate_limiter_wait_for_download. }
  cbn [rate_limiter set_rate_limiter]. fold s2. cbv zeta.
  erewrite bind_returned.
  2: { unfold _get_ydl_opts.
       erewrite bind_returned; [| reflexivity].
       erewrite bind_returned.
       2: { unfold call. cbn [fst world trace output_dir set_rate_limiter set_stats].
            fold video_dir. rewrite Hmkdir. reflexivity. }
       cbn [fst speed_limit set_rate_limiter set_stats]. rewrite Hspeed. reflexivity. }
  cbn [fst output_dir set_rate_limiter set_stats]. fold video_dir.
  erewrite bind_returned; [| unfold call; cbn [world trace]; rewrite Hmedia; reflexivity].
  assert (Hprobe : forall o (e4 : Env World), world e4 = w4 ->
            _extract_audio_metadata audio_file (o, e4) = (Returned audio_metadata, (o, e4))).
  { intros o e4 He4. unfold _extract_audio_metadata. rewrite He4. subst audio_metadata.
    destruct (probe_audio audio_file w4); reflexivity. }
  erewrite bind_returned; [| apply Hprobe; reflexivity].
  erewrite bind_returned.
  2: { unfold _save_metadata.
       erewrite bind_returned; [| reflexivity].
       unfold call. cbn [fst world trace output_dir set_rate_limiter set_stats].
       fold video_dir. fold metadata_file. rewrite Hwrite. reflexivity. }
  reflexivity.
Qed.

End DownloadPaths.

(** ** YouTubeDownloader: channels and URL files *)

(** A listing is usable throughout, or it has a first entry without ['id']. *)
Lemma classic_usable (videos : list entry) :
  Forall usable videos \/
  exists good bad rest,
    videos = good ++ Some bad :: rest /\ Forall usable good /\ bad !! "id" = None.
Proof.
  induction videos as [| v videos IH]; [left; constructor |].
  destruct v as [video |].
  - destruct (video !! "id") as [i |] eqn:Hid.
    + destruct IH as [Hall | (good & bad & rest & -> & Hgood & Hbad)].
      * left. constructor; [simpl; eauto | exact Hall].
      * right. exists (Some video :: good), bad, rest.
        split; [reflexivity |]. split; [| exact Hbad].
        constructor; [simpl; eauto | exact Hgood].
    + right. exists [], video, videos. split; [reflexivity |]. split; [constructor | exact Hid].
  - destruct IH as [Hall | (good & bad & rest & -> & Hgood & Hbad)].
    + left. constructor; [exact I | exact Hall].
    + right. exists (None :: good), bad, rest.
      split; [reflexivity |]. split; [| exact Hbad]. constructor; [exact I | exact Hgood].
Qed.

Section CollectionFacts.
Context {World : Type} `{Platform World} `{Library World}.
Import YouTubeDownloader.

Lemma hoare_download_video_counted (url : string) (n : Z) R :
  hoare (counted n) (download_video url) (fun _ => counted (n + 1)) R.
Proof.
  intros self e [Htotal Hn].
  pose proof (hoare_download_video url (stats self) self e (conj eq_refl Hn)) as Hd.
  destruct (download_video url (self, e)) as [[r | x] [self' e']]; [| contradiction].
  unfold counted.
  destruct Hd as [[Hs Hn'] | [[Hs Hn'] | [Hs Hn']]]; rewrite Hs; simpl;
    (split; [lia | exact Hn']).
Qed.

Lemma present_cons_some (video : gmap string value) (videos : list entry) :
  present (Some video :: videos) = S (present videos).
Proof. reflexivity. Qed.

(** The loop over a listing: one [download_video] per entry that is not
    [None]; a returned list holds one result per call, and a KeyError leaves
    the calls made so far counted. *)
Lemma hoare_download_entries (videos : list entry) :
  forall (results : list (bool * option string)) (n : Z),
    hoare (counted n) (download_entries videos results)
          (fun rs self => exists new, rs = results ++ new /\ length new = present videos /\
                                      counted (n + Z.of_nat (present videos)) self)
          (fun _ self => exists k, (k < present videos)%nat /\ counted (n + Z.of_nat k) self).
Proof.
  induction videos as [| [video |] videos IH]; intros results n.
  - intros self e Hc. simpl. exists []. rewrite app_nil_r, Z.add_0_r. auto.
  - simpl download_entries. rewrite present_cons_some.
    destruct (video !! "id") as [v |].
    + eapply hoare_bind; [apply (hoare_download_video_counted _ n) |].
      intros result. eapply hoare_weaken;
        [apply (IH (results ++ [result]) (n + 1)%Z) | intros o Ho; exact Ho | |].
      * intros rs self (new & -> & Hlen & Hc). exists (result :: new).
        split; [now rewrite <- app_assoc |]. split; [simpl; lia |].
        replace (n + Z.of_nat (S (present videos)))%Z
          with (n + 1 + Z.of_nat (present videos))%Z by lia. exact Hc.
      * intros x self (k & Hk & Hc). exists (S k). split; [lia |].
        replace (n + Z.of_nat (S k))%Z with (n + 1 + Z.of_nat k)%Z by lia. exact Hc.
    + intros self e Hc. simpl. exists 0%nat. split; [lia |]. now rewrite Z.add_0_r.
  - simpl download_entries. apply IH.
Qed.

(** With every entry usable the loop never raises. *)
Lemma hoare_download_entries_usable (videos : list entry) :
  Forall usable videos ->
  forall (results : list (bool * option string)) (n : Z),
    hoare (counted n) (download_entries videos results)
          (fun rs self => exists new, rs = results ++ new /\ length new = present videos /\
                                      counted (n + Z.of_nat (present videos)) self)
          (fun _ _ => False).
Proof.
  induction 1 as [| [video |] videos Hv _ IH]; intros results n.
  - intros self e Hc. simpl. exists []. rewrite app_nil_r, Z.add_0_r. auto.
  - simpl download_entries. rewrite present_cons_some.
    destruct Hv as [v Hv]. rewrite Hv.
    eapply hoare_bind; [apply (hoare_download_video_counted _ n) |].
    intros result. eapply hoare_weaken;
      [apply (IH (results ++ [result]) (n + 1)%Z) | intros o Ho; exact Ho | | intros x o Ho; exact Ho].
    intros rs self (new & -> & Hlen & Hc). exists (result :: new).
    split; [now rewrite <- app_assoc |]. split; [simpl; lia |].
    replace (n + Z.of_nat (S (present videos)))%Z
      with (n + 1 + Z.of_nat (present videos))%Z by lia. exact Hc.
  - simpl download_entries. apply IH.
Qed.

(** An entry without ['id'] ends the loop with a KeyError, after the entries
    before it have been downloaded. *)
Lemma hoare_download_entries_unusable (good rest : list entry) (bad : gmap string value) :
  Forall usable good ->
  bad !! "id" = None ->
  forall (results : list (bool * option string)) (n : Z),
    hoare (counted n) (download_entries (good ++ Some bad :: rest) results)
          (fun _ _ => False)
          (fun _ self => counted (n + Z.of_nat (present good)) self).
Proof.
  intros Hgood Hbad.
  induction Hgood as [| [video |] good Hv _ IH]; intros results n.
  - intros self e Hc. simpl. rewrite Hbad. simpl. now rewrite Z.add_0_r.
  - simpl download_entries. rewrite present_cons_some.
    destruct Hv as [v Hv]. rewrite Hv.
    eapply hoare_bind; [apply (hoare_download_video_counted _ n) |].
    intros result. eapply hoare_weaken;
      [apply (IH (results ++ [result]) (n + 1)%Z) | intros o Ho; exact Ho
      | intros a o Ho; exact Ho |].
    intros x self Hc.
    replace (n + Z.of_nat (S (present good)))%Z
      with (n + 1 + Z.of_nat (present good))%Z by lia. exact Hc.
  - simpl download_entries. apply IH.
Qed.

(** A listing that cannot be fetched, or that has no entries, gives the empty
    list: [download_channel] returns after that single network call, which no
    pacing wait precedes, and leaves the statistics and the rate limiter as
    they were. *)
Theorem channel_listing_failure (self : t) (e : Env World) (channel_url : string)
    (max_videos : option Z) (w1 : World) :
  (exists x, ydl_extract_flat channel_url (world e) = (Raised x, w1)) \/
  ydl_extract_flat channel_url (world e) = (Returned None, w1) ->
  download_channel channel_url max_videos (self, e)
  = (Returned [], (self, {| world := w1; trace := trace e ++ [ExtractInfo channel_url] |})).
Proof.
  intros [[x Hlist] | Hlist]; unfold download_channel, try_except, bind, call;
    cbn [world trace]; rewrite Hlist; reflexivity.
Qed.

Lemma present_le_length (videos : list entry) : (present videos <= length videos)%nat.
Proof. unfold present. apply List.filter_length_le. Qed.

Lemma cap_videos_length {A : Type} (n : Z) (videos : list A) :
  (0 < n)%Z -> (Z.of_nat (length (cap_videos (Some n) videos)) <= n)%Z.
Proof.
  intros Hn. unfold cap_videos, py_slice_to.
  destruct (n =? 0)%Z eqn:E0; [apply Z.eqb_eq in E0; lia |].
  destruct (0 <=? n)%Z eqn:E1; [| apply Z.leb_gt in E1; lia].
  rewrite length_take. lia.
Qed.

(** A channel whose listing is fetched: [download_channel] returns, never
    raises, and calls [download_video] at most once per listed entry that is
    not [None], after the cap; the list returned is no longer than the number
    of calls counted in the statistics, and at most [max_videos] long when
    that is positive. When every entry has an ['id'], there is exactly one
    result per such entry. *)
Theorem download_channel_counts (self : t) (e : Env World) (channel_url : string)
    (max_videos : option Z) (videos : list entry) (w1 : World) :
  ydl_extract_flat channel_url (world e) = (Returned (Some videos), w1) ->
  (0 <= RateLimiter.error_count (rate_limiter self))%Z ->
  exists rs self' e',
    download_channel channel_url max_videos (self, e) = (Returned rs, (self', e')) /\
    let calls := (total (stats self') - total (stats self))%Z in
    let selected := cap_videos max_videos videos in
    (Z.of_nat (length rs) <= calls <= Z.of_nat (present selected))%Z /\
    (0 <= RateLimiter.error_count (rate_limiter self'))%Z /\
    (Forall usable selected ->
     length rs = present selected /\ calls = Z.of_nat (present selected)) /\
    (forall n, max_videos = Some n -> (0 < n)%Z -> (Z.of_nat (length rs) <= n)%Z).
Proof.
  intros Hlist Hn.
  set (selected := cap_videos max_videos videos).
  set (e1 := {| world := w1; trace := trace e ++ [ExtractInfo channel_url] |}).
  assert (Hc : counted (total (stats self)) self) by (split; [reflexivity | exact Hn]).
  assert (Hcap : forall n (rs : list (bool * option string)), max_videos = Some n -> (0 < n)%Z ->
            (length rs <= present selected)%nat -> (Z.of_nat (length rs) <= n)%Z).
  { intros n rs -> Hpos Hle. pose proof (cap_videos_length n videos Hpos) as Hlen.
    pose proof (present_le_length selected) as Hp. subst selected. lia. }
  assert (Hbody : download_channel channel_url max_videos (self, e)
            = match download_entries selected [] (self, e1) with
              | (Returned rs, s') => (Returned rs, s')
              | (Raised _, s') => (Returned [], s')
              end).
  { unfold download_channel, try_except, bind, call. cbn [world trace]. rewrite Hlist.
    fold e1. fold selected.
    destruct (download_entries selected [] (self, e1)) as [[rs | x] s']; reflexivity. }
  rewrite Hbody.
  pose proof (hoare_download_entries selected [] _ self e1 Hc) as Hrun.
  destruct (classic_usable selected) as [Hall | (good & bad & rest & Hsplit & Hgood & Hbad)].
  - pose proof (hoare_download_entries_usable selected Hall [] _ self e1 Hc) as Hok.
    destruct (download_entries selected [] (self, e1)) as [[rs | x] [self' e']];
      [| contradiction].
    destruct Hok as (new & Hrs & Hlen & [Htotal Hn']). simpl in Hrs. subst new.
    exists rs, self', e'. split; [reflexivity |]. cbv zeta.
    rewrite Htotal, Hlen. repeat split; try lia; try exact Hn'.
    intros n Hmax Hpos. rewrite <- Hlen. apply (Hcap n rs Hmax Hpos). lia.
  - destruct (download_entries selected [] (self, e1)) as [[rs | x] [self' e']].
    + destruct Hrun as (new & Hrs & Hlen & [Htotal Hn']). simpl in Hrs. subst new.
      exists rs, self', e'. split; [reflexivity |]. cbv zeta.
      rewrite Htotal, Hlen. repeat split; try lia; try exact Hn'.
      intros n Hmax Hpos. rewrite <- Hlen. apply (Hcap n rs Hmax Hpos). lia.
    + destruct Hrun as (k & Hk & [Htotal Hn']).
      exists [], self', e'. split; [reflexivity |]. cbv zeta.
      rewrite Htotal. simpl length.
      split; [lia |]. split; [exact Hn' |]. split.
      * intros Hall. exfalso. rewrite Hsplit in Hall.
        apply Forall_app in Hall as [_ Hall]. apply Forall_cons in Hall as [[v Hv] _].
        congruence.
      * intros n Hmax Hpos. lia.
Qed.

(** An entry without ['id'] costs the whole result: the KeyError ends the
    loop inside the [try], the handler returns the empty list, and the
    downloads already made for the entries before it stay counted in the
    statistics. *)
Theorem unusable_entry_loses_results (self : t) (e : Env World) (channel_url : string)
    (max_videos : option Z) (videos good rest : list entry) (bad : gmap string value)
    (w1 : World) :
  ydl_extract_flat channel_url (world e) = (Returned (Some videos), w1) ->
  (0 <= RateLimiter.error_count (rate_limiter self))%Z ->
  cap_videos max_videos videos = good ++ Some bad :: rest ->
  Forall usable good ->
  bad !! "id" = None ->
  exists self' e',
    download_channel channel_url max_videos (self, e) = (Returned [], (self', e')) /\
    total (stats self') = (total (stats self) + Z.of_nat (present good))%Z.
Proof.
  intros Hlist Hn Hsplit Hgood Hbad.
  set (e1 := {| world := w1; trace := trace e ++ [ExtractInfo channel_url] |}).
  assert (Hc : counted (total (stats self)) self) by (split; [reflexivity | exact Hn]).
  pose proof (hoare_download_entries_unusable good rest bad Hgood Hbad [] _ self e1 Hc) as Hrun.
  unfold download_channel, try_except, bind, call. cbn [world trace]. rewrite Hlist.
  fold e1. rewrite Hsplit.
  destruct (download_entries (good ++ Some bad :: rest) [] (self, e1))
    as [[rs | x] [self' e']]; [contradiction |].
  exists self', e'. split; [reflexivity | apply Hrun].
Qed.

(** [download_channel] as a step of the file loop: it returns, and its list
    is no longer than the calls it has counted. *)
Lemma hoare_download_channel (channel_url : string) (max_videos : option Z) (n : Z) R :
  hoare (counted n) (download_channel channel_url max_videos)
        (fun rs self => exists k : nat, (length rs <= k)%nat /\ counted (n + Z.of_nat k) self)
        R.
Proof.
  unfold download_channel.
  eapply hoare_try with (R1 := fun _ self => exists k : nat, counted (n + Z.of_nat k) self).
  - eapply hoare_bind.
    { eapply hoare_weaken; [apply (hoare_call (Self := t) (counted n)) | | |].
      - intros o Ho. exact Ho.
      - intros a o Ho. exact Ho.
      - intros x o Ho. exists 0%nat. now rewrite Z.add_0_r. }
    intros [videos |].
    + eapply hoare_weaken; [apply (hoare_download_entries _ [] n) | | |].
      * intros o Ho. exact Ho.
      * intros rs self (new & Hrs & Hlen & Hc). simpl in Hrs. subst new.
        exists (present (cap_videos max_videos videos)). split; [lia | exact Hc].
      * intros x self (k & _ & Hc). eauto.
    + intros self e Hc. simpl. exists 0%nat. rewrite Z.add_0_r. auto.
  - intros x self e [k Hc]. simpl. exists k. split; [lia | exact Hc].
Qed.

(** The loop of [download_from_file]: it returns, with no more results than
    calls counted; on URLs that are all single videos it makes one call per
    URL and returns one result per URL. *)
Lemma hoare_download_urls (urls : list string) :
  forall (results : list (bool * option string)) (n : Z),
    hoare (counted n) (download_urls urls results)
          (fun rs self => exists new (k : nat),
             rs = results ++ new /\ (length new <= k)%nat /\ counted (n + Z.of_nat k) self /\
             (Forall (fun u => is_channel_url u = false) urls ->
              length new = length urls /\ k = length urls))
          (fun _ _ => False).
Proof.
  induction urls as [| url urls IH]; intros results n.
  - intros self e Hc. simpl. exists [], 0%nat. rewrite app_nil_r, Z.add_0_r. auto.
  - simpl download_urls. destruct (is_channel_url url) eqn:Hch.
    + eapply hoare_bind; [apply (hoare_download_channel url None n) |].
      intros channel_results self e (k1 & Hk1 & Hc).
      pose proof (IH (results ++ channel_results) _ self e Hc) as Hrest.
      destruct (download_urls urls (results ++ channel_results) (self, e))
        as [[rs | x] [self' e']]; [| contradiction].
      destruct Hrest as (new & k & -> & Hlen & Hc' & _).
      exists (channel_results ++ new), (k1 + k)%nat.
      split; [now rewrite app_assoc |]. split; [rewrite length_app; lia |].
      split; [| intros Hall; apply Forall_cons in Hall as [Hu _]; congruence].
      replace (n + Z.of_nat (k1 + k))%Z with (n + Z.of_nat k1 + Z.of_nat k)%Z by lia.
      exact Hc'.
    + eapply hoare_bind; [apply (hoare_download_video_counted url n) |].
      intros result self e Hc.
      pose proof (IH (results ++ [result]) _ self e Hc) as Hrest.
      destruct (download_urls urls (results ++ [result]) (self, e))
        as [[rs | x] [self' e']]; [| contradiction].
      destruct Hrest as (new & k & -> & Hlen & Hc' & Hplain).
      exists (result :: new), (S k).
      split; [now rewrite <- app_assoc |]. split; [simpl; lia |].
      split.
      * replace (n + Z.of_nat (S k))%Z with (n + 1 + Z.of_nat k)%Z by lia. exact Hc'.
      * intros Hall. apply Forall_cons in Hall as [_ Hall].
        destruct (Hplain Hall) as [Hl Hk]. simpl. split; lia.
Qed.

(** A URL file that can be read: [download_from_file] returns, with no more
    results than [download_video] calls counted in the statistics. When no
    line is a channel URL there is exactly one call and one result per line
    kept by the filter. *)
Theorem download_from_file_counts (self : t) (e : Env World) (urls_file : string)
    (lines : list string) :
  read_lines urls_file (world e) = Lines lines ->
  (0 <= RateLimiter.error_count (rate_limiter self))%Z ->
  exists rs self' e',
    download_from_file urls_file (self, e) = (Returned rs, (self', e')) /\
    let calls := (total (stats self') - total (stats self))%Z in
    (Z.of_nat (length rs) <= calls)%Z /\
    (Forall (fun u => is_channel_url u = false) (url_lines lines) ->
     length rs = length (url_lines lines) /\ calls = Z.of_nat (length (url_lines lines))).
Proof.
  intros Hread Hn.
  assert (Hc : counted (total (stats self)) self) by (split; [reflexivity | exact Hn]).
  pose proof (hoare_download_urls (url_lines lines) [] _ self e Hc) as Hrun.
  unfold download_from_file. rewrite Hread.
  destruct (download_urls (url_lines lines) [] (self, e)) as [[rs | x] [self' e']];
    [| contradiction].
  destruct Hrun as (new & k & Hrs & Hlen & [Htotal _] & Hplain). simpl in Hrs. subst new.
  exists rs, self', e'. split; [reflexivity |]. cbv zeta. rewrite Htotal.
  split; [lia |]. intros Hall. destruct (Hplain Hall) as [Hl ->]. split; [exact Hl | lia].
Qed.

End CollectionFacts.

(** ** The two URL file readers *)

Section ReaderFacts.
Context {World : Type} `{Library World}.
Import BatchFromFile.

Lemma keep_urls_acc (lines urls : list string) :
  keep_urls lines urls = urls ++ keep_urls lines [].
Proof.
  revert urls. induction lines as [| line lines IH]; intros urls; simpl.
  - now rewrite app_nil_r.
  - destruct (str_truthy (str_strip line) && negb (String.prefix "#" (str_strip line))).
    + rewrite (IH (urls ++ [str_strip line])), (IH [str_strip line]).
      now rewrite <- app_assoc.
    + apply IH.
Qed.

(** What [read_urls_from_file] keeps: the stripped lines, in file order, that
    are neither empty nor start with ['#']. *)
Theorem read_urls_are_clean (lines : list string) :
  keep_urls lines []
  = List.filter (fun u => str_truthy u && negb (String.prefix "#" u)) (map str_strip lines)
  /\ Forall (fun u => u <> "" /\ String.prefix "#" u = false) (keep_urls lines []).
Proof.
  assert (Heq : keep_urls lines []
    = List.filter (fun u => str_truthy u && negb (String.prefix "#" u)) (map str_strip lines)).
  { induction lines as [| line lines IH]; [reflexivity |].
    simpl. destruct (str_truthy (str_strip line) && negb (String.prefix "#" (str_strip line))).
    - rewrite keep_urls_acc, IH. reflexivity.
    - exact IH. }
  split; [exact Heq |].
  rewrite Heq. apply List.Forall_forall. intros u Hu.
  apply List.filter_In in Hu as [_ Hu]. apply andb_prop in Hu as [Hne Hhash].
  split.
  - intros ->. discriminate Hne.
  - now apply Bool.negb_true_iff.
Qed.

(** The two readers differ on comment lines that are indented. The filter of
    [download_from_file] tests the raw line for a leading ['#'], the reader
    of the batch scripts tests the stripped line: what the latter keeps is
    what the former keeps less the entries that start with ['#']. This uses
    that stripping a line that starts with ['#'] leaves the ['#'] in front. *)
Theorem readers_differ_on_indented_comments (lines : list string) :
  (forall line, String.prefix "#" line = true -> String.prefix "#" (str_strip line) = true) ->
  keep_urls lines []
  = List.filter (fun u => negb (String.prefix "#" u)) (YouTubeDownloader.url_lines lines).
Proof.
  intros Hstrip. induction lines as [| line lines IH]; [reflexivity |].
  simpl. destruct (str_truthy (str_strip line)); simpl.
  - destruct (String.prefix "#" (str_strip line)) eqn:Hs; simpl.
    + destruct (String.prefix "#" line); simpl; [exact IH |].
      rewrite Hs. simpl. exact IH.
    + destruct (String.prefix "#" line) eqn:Hl.
      { rewrite (Hstrip line Hl) in Hs. discriminate. }
      simpl. rewrite Hs. simpl. rewrite keep_urls_acc, IH. reflexivity.
  - exact IH.
Qed.

End ReaderFacts.

Lemma extraction_failure_witness :
  names_403 (DownloadError "ERROR: HTTP Error 403: Forbidden") = true /\
  (let run := YouTubeDownloader.download_video Example.video_url
                (Example.downloader, Scripted.start Example.forbidden) in
   fst run = Returned (false, None) /\
   trace (snd (snd run))
   = [Sleep (3 + (5 - 3) * (1 # 2) - (1001 - 1000))%Q; ExtractInfo Example.video_url;
      Sleep 30]).
Proof.
  split; [reflexivity |].
  pose proof (extraction_failure Example.downloader (Scripted.start Example.forbidden)
                Example.video_url (DownloadError "ERROR: HTTP Error 403: Forbidden")
                (world (snd (exec RateLimiter.wait_for_request
                                (YouTubeDownloader.rate_limiter Example.downloader,
                                 Scripted.start Example.forbidden))))) as Hrun.
  cbv zeta in Hrun. rewrite Hrun; [| simpl; lia | reflexivity].
  split; reflexivity.
Defined.

Lemma download_succeeds_witness :
  let run := YouTubeDownloader.download_video Example.video_url
               (Example.downloader, Scripted.start Example.fresh) in
  path_exists "downloads/abc/abc.m4a" Example.fresh
  && path_exists "downloads/abc/abc.json" Example.fresh = false /\
  fst run = Returned (true, Some "abc") /\
  RateLimiter.error_count (YouTubeDownloader.rate_limiter (fst (snd run))) = 0%Z /\
  YouTubeDownloader.success (YouTubeDownloader.stats (fst (snd run))) = 1%Z.
Proof.
  intros run. split; [reflexivity |].
  set (s1 := exec RateLimiter.wait_for_request
               (YouTubeDownloader.rate_limiter Example.downloader,
                Scripted.start Example.fresh)).
  set (w2 := world (snd s1)).
  set (s2 := exec RateLimiter.wait_for_download
               (fst s1, {| world := w2;
                           trace := trace (snd s1) ++ [ExtractInfo Example.video_url] |})).
  set (w3 := world (snd s2)).
  pose proof (download_succeeds Example.downloader (Scripted.start Example.fresh)
                Example.video_url "abc"
                (list_to_map [("id", VStr "abc"); ("title", VStr "A title")])
                512000%Z w2 w3 w3 (Scripted.add_file "downloads/abc/abc.json" w3)) as Hrun.
  cbv zeta in Hrun. subst run. rewrite Hrun; try reflexivity.
  repeat split; reflexivity.
Defined.

Lemma channel_listing_failure_witness :
  ydl_extract_flat "https://www.youtube.com/@someone" Example.private_channel
  = (Raised (DownloadError "This channel is private"), Example.private_channel) /\
  YouTubeDownloader.download_channel "https://www.youtube.com/@someone" (Some 5%Z)
    (Example.downloader, Shelf.start Example.private_channel)
  = (Returned [],
     (Example.downloader,
      {| world := Example.private_channel;
         trace := [ExtractInfo "https://www.youtube.com/@someone"] |})).
Proof.
  split; [reflexivity |].
  apply (channel_listing_failure Example.downloader (Shelf.start Example.private_channel)).
  left. eexists. reflexivity.
Defined.

Lemma download_channel_counts_witness :
  (0 <= RateLimiter.error_count (YouTubeDownloader.rate_limiter Example.downloader))%Z /\
  exists rs s',
    YouTubeDownloader.download_channel "https://www.youtube.com/@someone" (Some 2%Z)
      (Example.downloader, Shelf.start Example.channel)
    = (Returned rs, s') /\
    (Z.of_nat (length rs) <= 2)%Z.
Proof.
  assert (Hn : (0 <= RateLimiter.error_count
                      (YouTubeDownloader.rate_limiter Example.downloader))%Z)
    by (simpl; lia).
  split; [exact Hn |].
  edestruct (download_channel_counts Example.downloader (Shelf.start Example.channel)
               "https://www.youtube.com/@someone" (Some 2%Z))
    as (rs & self' & e' & Hrun & _ & _ & _ & Hcap); [reflexivity | exact Hn |].
  exists rs, (self', e'). split; [exact Hrun |]. apply (Hcap 2%Z eq_refl). lia.
Defined.

Lemma unusable_entry_loses_results_witness :
  exists self' e',
    YouTubeDownloader.download_channel "https://www.youtube.com/@someone" None
      (Example.downloader, Shelf.start Example.broken_channel)
    = (Returned [], (self', e')) /\
    YouTubeDownloader.total (YouTubeDownloader.stats self') = 1%Z.
Proof.
  assert (Hn : (0 <= RateLimiter.error_count
                      (YouTubeDownloader.rate_limiter Example.downloader))%Z)
    by (simpl; lia).
  edestruct (unusable_entry_loses_results Example.downloader
               (Shelf.start Example.broken_channel) "https://www.youtube.com/@someone" None
               [Some (list_to_map [("id", VStr "abc")]);
                Some (list_to_map [("title", VStr "untitled")]);
                Some (list_to_map [("id", VStr "def")])]
               [Some (list_to_map [("id", VStr "abc")])]
               [Some (list_to_map [("id", VStr "def")])]
               (list_to_map [("title", VStr "untitled")])
               Example.broken_channel)
    as (self' & e' & Hrun & Htotal).
  - reflexivity.
  - exact Hn.
  - reflexivity.
  - repeat constructor. eexists. reflexivity.
  - reflexivity.
  - exists self', e'. split; [exact Hrun | exact Htotal].
Defined.

Lemma download_from_file_counts_witness :
  read_lines "urls.txt" Example.channel = Lines Example.url_file_lines /\
  YouTubeDownloader.url_lines (World := Shelf.World) Example.url_file_lines
  = ["https://www.youtube.com/watch?v=abc"; "# an indented comment"; "https://youtu.be/def"] /\
  exists rs s',
    YouTubeDownloader.download_from_file "urls.txt"
      (Example.downloader, Shelf.start Example.channel)
    = (Returned rs, s') /\
    length rs = 3%nat.
Proof.
  assert (Hn : (0 <= RateLimiter.error_count
                      (YouTubeDownloader.rate_limiter Example.downloader))%Z)
    by (simpl; lia).
  split; [reflexivity |]. split; [reflexivity |].
  edestruct (download_from_file_counts Example.downloader (Shelf.start Example.channel)
               "urls.txt" Example.url_file_lines)
    as (rs & self' & e' & Hrun & _ & Hplain); [reflexivity | exact Hn |].
  exists rs, (self', e'). split; [exact Hrun |].
  destruct Hplain as [Hlen _]; [repeat constructor | exact Hlen].
Defined.

Lemma shelf_strip_keeps_hash (line : string) :
  String.prefix "#" line = true -> String.prefix "#" (Shelf.strip line) = true.
Proof.
  destruct line as [| c rest]; [discriminate |].
  intros Hp. cbn -[ascii_dec] in Hp.
  destruct (ascii_dec "#" c) as [<- | Hne]; [| discriminate].
  change (Shelf.strip (String "#" rest)) with (String "#" (Shelf.rstrip rest)).
  cbn -[ascii_dec]. destruct (ascii_dec "#" "#") as [_ | Hne]; [| now destruct Hne].
  now destruct (Shelf.rstrip rest).
Qed.

Lemma readers_differ_on_indented_comments_witness :
  BatchFromFile.keep_urls (World := Shelf.World) Example.url_file_lines []
  = ["https://www.youtube.com/watch?v=abc"; "https://youtu.be/def"] /\
  YouTubeDownloader.url_lines (World := Shelf.World) Example.url_file_lines
  = ["https://www.youtube.com/watch?v=abc"; "# an indented comment"; "https://youtu.be/def"].
Proof.
  split; [| reflexivity].
  rewrite (@readers_differ_on_indented_comments Shelf.World Shelf.library
             Example.url_file_lines shelf_strip_keeps_hash).
  reflexivity.
Defined.

(** ** TurboScribeBatch: links, identifiers and single requests *)

Lemma prefix_empty (s : string) : String.prefix "" s = true.
Proof. now destruct s. Qed.

Lemma str_app_assoc (a b c : string) : ((a ++ b) ++ c = a ++ (b ++ c))%string.
Proof.
  induction a as [| x a IH]; [reflexivity |].
  change (String x ((a ++ b) ++ c) = String x (a ++ (b ++ c)))%string. now f_equal.
Qed.

Lemma str_app_nil_r (a : string) : (a ++ "" = a)%string.
Proof.
  induction a as [| x a IH]; [reflexivity |].
  change (String x (a ++ "") = String x a)%string. now f_equal.
Qed.

Section LinkFacts.
Context {World : Type} `{Platform World}.
Import TurboScribeBatch.

Lemma fold_handle_found (tags : list start_tag) (p : AudioLinkExtractor) :
  found p = true -> fold_left handle_starttag tags p = p.
Proof.
  revert p. induction tags as [| [tag attrs] tags IH]; intros p Hp; [reflexivity |].
  cbn [fold_left].
  assert (Hstep : handle_starttag p (tag, attrs) = p).
  { unfold handle_starttag. now rewrite Hp, Bool.andb_false_r. }
  rewrite Hstep. now apply IH.
Qed.

Lemma scan_attrs_some (attrs : list (string * option string)) (link : string) :
  scan_attrs attrs = Some link ->
  exists v, In ("href", Some v) attrs /\
            str_contains "mime=audio%2Fwebm" v = true /\ link = html_unescape v.
Proof.
  induction attrs as [| [attr_name [v |]] attrs IH]; simpl; intros Hs; [discriminate | |].
  - destruct (String.eqb attr_name "href" && str_truthy v && str_contains "mime=audio%2Fwebm" v)
      eqn:Hq.
    + injection Hs as <-.
      apply andb_prop in Hq as [Hq Hmarker]. apply andb_prop in Hq as [Hname _].
      apply String.eqb_eq in Hname. subst attr_name. exists v. auto.
    + destruct (IH Hs) as (v' & Hin & Hrest). exists v'. auto.
  - destruct (IH Hs) as (v' & Hin & Hrest). exists v'. auto.
Qed.

(** On a page that the parser accepts, the extractor returns the link of the
    first qualifying anchor in document order: later anchors are ignored once
    one is found, tags other than [a] never count, and a link that is
    returned is the unescaped value of an [href] attribute, of an anchor of
    the page, that contains the marker [mime=audio%2Fwebm]. On a page on which
    [parser.feed] raises, the extractor raises as well and returns no link,
    whatever the page holds. *)
Theorem extract_audio_link_first_match (html_content : string) :
  match html_feed html_content with
  | Some tags =>
      _extract_audio_link html_content = Returned (first_link tags) /\
      (forall link, first_link tags = Some link ->
         exists attrs v,
           In ("a", attrs) tags /\ In ("href", Some v) attrs /\
           str_contains "mime=audio%2Fwebm" v = true /\ link = html_unescape v)
  | None => _extract_audio_link html_content = Raised parser_error
  end.
Proof.
  unfold _extract_audio_link.
  destruct (html_feed html_content) as [tags |]; [| reflexivity].
  assert (Hfirst : forall tags,
            audio_link (fold_left handle_starttag tags {| audio_link := None; found := false |})
            = first_link tags).
  { clear tags. induction tags as [| [tag attrs] tags IH]; [reflexivity |].
    cbn [fold_left first_link]. unfold handle_starttag at 2. cbn [found negb].
    rewrite Bool.andb_true_r.
    destruct (String.eqb tag "a"); [| exact IH].
    destruct (scan_attrs attrs) as [link |]; [| exact IH].
    now rewrite fold_handle_found. }
  split; [now rewrite Hfirst |].
  intros link. clear Hfirst.
  induction tags as [| [tag attrs] tags IH]; simpl; [discriminate |].
  destruct (String.eqb tag "a") eqn:Htag.
  - apply String.eqb_eq in Htag. subst tag.
    destruct (scan_attrs attrs) as [l |] eqn:Hscan.
    + intros [= ->]. destruct (scan_attrs_some _ _ Hscan) as (v & Hin & Hm & Hl).
      exists attrs, v. auto.
    + intros Hl. destruct (IH Hl) as (attrs' & v & Hin & Hrest). exists attrs', v. auto.
  - intros Hl. destruct (IH Hl) as (attrs' & v & Hin & Hrest). exists attrs', v. auto.
Qed.

End LinkFacts.

(** *** Splitting a URL *)

Lemma prefix_one_cons (a c : ascii) (x : string) :
  String.prefix (String a "") (String c x) = if ascii_dec a c then true else false.
Proof. cbn [String.prefix]. destruct (ascii_dec a c); [apply prefix_empty | reflexivity]. Qed.

(** Up to the first separator character, the first piece is what was read. *)
Lemma str_split_char_head (a : ascii) (piece tail cur : string) :
  str_contains (String a "") piece = false ->
  tail = "" \/ (exists t, tail = String a t) ->
  head (TurboScribeBatch.str_split_aux (String a "") 0 cur (piece ++ tail))
  = Some (cur ++ piece)%string.
Proof.
  intros Hpiece Htail. revert cur Hpiece.
  induction piece as [| c piece IH]; intros cur Hpiece.
  - change ("" ++ tail)%string with tail. rewrite str_app_nil_r.
    destruct Htail as [-> | [t ->]]; [reflexivity |].
    cbn [TurboScribeBatch.str_split_aux]. rewrite prefix_one_cons.
    destruct (ascii_dec a a) as [_ | Hne]; [reflexivity | now destruct Hne].
  - change (String c piece ++ tail)%string with (String c (piece ++ tail)%string).
    cbn [str_contains] in Hpiece. apply Bool.orb_false_iff in Hpiece as [Hp Hrest].
    rewrite prefix_one_cons in Hp.
    cbn [TurboScribeBatch.str_split_aux]. rewrite prefix_one_cons.
    destruct (ascii_dec a c); [discriminate Hp |].
    rewrite (IH _ Hrest). now rewrite str_app_assoc.
Qed.

(** Whatever follows, the first piece starts with what was read so far. *)
Lemma str_split_head_extends (sep s cur : string) :
  exists s', head (TurboScribeBatch.str_split_aux sep 0 cur s) = Some (cur ++ s')%string.
Proof.
  revert cur. induction s as [| c s IH]; intros cur.
  - exists "". cbn [TurboScribeBatch.str_split_aux head]. now rewrite str_app_nil_r.
  - cbn [TurboScribeBatch.str_split_aux].
    destruct (String.prefix sep (String c s)).
    + exists "". cbn [head]. now rewrite str_app_nil_r.
    + destruct (IH (cur ++ String c "")%string) as [s' Hs']. exists (String c s').
      rewrite Hs'. now rewrite str_app_assoc.
Qed.

(** A separator none of whose characters is [b] does not start in a string
    that ends where a [b] follows, unless it lies within the string. *)
Lemma prefix_before_boundary (b : ascii) (sep x tail : string) :
  ~ In b (list_ascii_of_string sep) ->
  tail = "" \/ (exists t, tail = String b t) ->
  String.prefix sep (x ++ tail) = true -> String.prefix sep x = true.
Proof.
  intros Hb Htail. revert x. induction sep as [| a sep IH]; intros x Hx.
  - apply prefix_empty.
  - destruct x as [| c x].
    + change ("" ++ tail)%string with tail in Hx.
      destruct Htail as [-> | [t ->]]; [discriminate Hx |].
      cbn [String.prefix] in Hx. destruct (ascii_dec a b) as [-> | _]; [| discriminate Hx].
      destruct Hb. now left.
    + change (String c x ++ tail)%string with (String c (x ++ tail)%string) in Hx.
      cbn [String.prefix] in Hx |- *. destruct (ascii_dec a c); [| discriminate Hx].
      apply IH; [| exact Hx]. intros Hin. apply Hb. now right.
Qed.

(** The first piece of a split, when the separator neither occurs in [piece]
    nor holds the character that follows it. *)
Lemma str_split_head_boundary (b : ascii) (sep piece tail cur : string) :
  ~ In b (list_ascii_of_string sep) ->
  str_contains sep piece = false ->
  tail = "" \/ (exists t, tail = String b t) ->
  exists s', head (TurboScribeBatch.str_split_aux sep 0 cur (piece ++ tail))
             = Some (cur ++ piece ++ s')%string /\
             (s' = "" \/ exists t', s' = String b t').
Proof.
  intros Hb Hpiece Htail. revert cur Hpiece.
  induction piece as [| c piece IH]; intros cur Hpiece.
  - change ("" ++ tail)%string with tail.
    destruct Htail as [-> | [t ->]].
    + exists "". split; [| now left].
      change ("" ++ "")%string with "". now rewrite str_app_nil_r.
    + cbn [TurboScribeBatch.str_split_aux].
      destruct (String.prefix sep (String b t)) eqn:Hp.
      * exists "". split; [| now left].
        change ("" ++ "")%string with "". now rewrite str_app_nil_r.
      * destruct (str_split_head_extends sep t (cur ++ String b "")%string) as [s' Hs'].
        exists (String b s'). split; [| right; now exists s'].
        rewrite Hs'. now rewrite str_app_assoc.
  - change (String c piece ++ tail)%string with (String c (piece ++ tail)%string).
    cbn [str_contains] in Hpiece. apply Bool.orb_false_iff in Hpiece as [Hp Hrest].
    cbn [TurboScribeBatch.str_split_aux].
    destruct (String.prefix sep (String c (piece ++ tail))) eqn:Hp'.
    + apply (prefix_before_boundary b sep (String c piece) tail Hb Htail) in Hp'.
      rewrite Hp' in Hp. discriminate Hp.
    + destruct (IH (cur ++ String c "")%string Hrest) as (s' & Hs' & Hshape).
      exists s'. split; [| exact Hshape].
      rewrite Hs'. now rewrite str_app_assoc.
Qed.

Lemma py_index_second {A : Type} (x y : A) (l : list A) (rest : list A) :
  head rest = Some y -> py_index (x :: rest) 1 = Some y.
Proof. destruct rest as [| z rest]; [discriminate |]. now intros [= ->]. Qed.

Lemma py_index_first {A : Type} (y : A) (l : list A) :
  head l = Some y -> py_index l 0 = Some y.
Proof. destruct l as [| z rest]; [discriminate |]. now intros [= ->]. Qed.

Lemma split_watch_prefix (r : string) :
  TurboScribeBatch.str_split "v=" ("https://www.youtube.com/watch?v=" ++ r)
  = "https://www.youtube.com/watch?" :: TurboScribeBatch.str_split_aux "v=" 0 "" r.
Proof. destruct r; reflexivity. Qed.

Lemma contains_watch_prefix (r : string) :
  str_contains "v=" ("https://www.youtube.com/watch?v=" ++ r) = true.
Proof. destruct r; reflexivity. Qed.

Lemma split_short_prefix (r : string) :
  TurboScribeBatch.str_split "youtu.be/" ("https://youtu.be/" ++ r)
  = "https://" :: TurboScribeBatch.str_split_aux "youtu.be/" 0 "" r.
Proof. destruct r; reflexivity. Qed.

Lemma contains_short_prefix (r : string) :
  str_contains "youtu.be/" ("https://youtu.be/" ++ r) = true /\
  str_contains "v=" ("https://youtu.be/" ++ r) = str_contains "v=" r.
Proof. split; destruct r; reflexivity. Qed.

Section IdentifierFacts.
Context {World : Type} `{Platform World}.
Import TurboScribeBatch.

(** The identifier of a watch URL is read back: for an identifier that holds
    neither [v=] nor [&], the URL [https://www.youtube.com/watch?v=<id>],
    bare or followed by further [&...] parameters, gives [<id>], without
    touching the clock or the object. *)
Theorem video_id_of_watch_url (video_id tail : string) (s : t * Env World) :
  str_contains "v=" video_id = false ->
  str_contains "&" video_id = false ->
  tail = "" \/ (exists rest, tail = String "&" rest) ->
  _extract_video_id (YouTubeDownloader.watch_url video_id ++ tail) s = (Returned video_id, s).
Proof.
  intros Hv Hamp Htail. unfold YouTubeDownloader.watch_url, _extract_video_id.
  rewrite str_app_assoc, contains_watch_prefix, split_watch_prefix.
  assert (Hb : ~ In "&"%char (list_ascii_of_string "v=")).
  { cbn. intros [Hx | [Hx | []]]; discriminate Hx. }
  destruct (str_split_head_boundary "&" "v=" video_id tail "" Hb Hv Htail)
    as (s' & Hhead & Hshape).
  rewrite (py_index_second _ _ [] _ Hhead).
  change ("" ++ video_id ++ s')%string with (video_id ++ s')%string.
  unfold str_split. rewrite (py_index_first video_id); [reflexivity |].
  now rewrite (str_split_char_head "&" video_id s' "" Hamp Hshape).
Qed.

(** The identifier of a short URL is read back: [https://youtu.be/<id>], bare
    or followed by a [?...] query, gives [<id>] when the identifier holds
    neither [youtu.be/] nor [?] and nothing after the host holds [v=]. *)
Theorem video_id_of_short_url (video_id tail : string) (s : t * Env World) :
  str_contains "v=" (video_id ++ tail) = false ->
  str_contains "youtu.be/" video_id = false ->
  str_contains "?" video_id = false ->
  tail = "" \/ (exists rest, tail = String "?" rest) ->
  _extract_video_id ("https://youtu.be/" ++ video_id ++ tail) s = (Returned video_id, s).
Proof.
  intros Hv Hhost Hq Htail. unfold _extract_video_id.
  destruct (contains_short_prefix (video_id ++ tail)) as [Hshort Hsame].
  rewrite Hsame, Hv, Hshort, split_short_prefix.
  assert (Hb : ~ In "?"%char (list_ascii_of_string "youtu.be/")).
  { cbn. intros Hin. repeat (destruct Hin as [Hx | Hin]; [discriminate Hx |]). exact Hin. }
  destruct (str_split_head_boundary "?" "youtu.be/" video_id tail "" Hb Hhost Htail)
    as (s' & Hhead & Hshape).
  rewrite (py_index_second _ _ [] _ Hhead).
  change ("" ++ video_id ++ s')%string with (video_id ++ s')%string.
  unfold str_split. rewrite (py_index_first video_id); [reflexivity |].
  now rewrite (str_split_char_head "?" video_id s' "" Hq Hshape).
Qed.

End IdentifierFacts.

Lemma video_id_of_watch_url_witness :
  TurboScribeBatch._extract_video_id
    (YouTubeDownloader.watch_url "dQw4w9WgXcQ" ++ "&list=PL1&index=2")
    (TurboScribeBatch.init 1, Scripted.start Example.quiet)
  = (Returned "dQw4w9WgXcQ", (TurboScribeBatch.init 1, Scripted.start Example.quiet)).
Proof.
  apply (video_id_of_watch_url "dQw4w9WgXcQ" "&list=PL1&index=2");
    [reflexivity | reflexivity | right; now exists "list=PL1&index=2"].
Defined.

Lemma video_id_of_short_url_witness :
  TurboScribeBatch._extract_video_id
    ("https://youtu.be/" ++ "dQw4w9WgXcQ" ++ "?t=42")
    (TurboScribeBatch.init 1, Scripted.start Example.quiet)
  = (Returned "dQw4w9WgXcQ", (TurboScribeBatch.init 1, Scripted.start Example.quiet)).
Proof.
  apply (video_id_of_short_url "dQw4w9WgXcQ" "?t=42");
    [reflexivity | reflexivity | reflexivity | right; now exists "t=42"].
Defined.

(** *** One request *)

Section SingleRequest.
Context {World : Type} `{Platform World}.
Import TurboScribeBatch.

(** When the POST raises, nothing else is attempted. A [RequestException] (a
    timeout included) becomes a result of status ["error"] that carries the
    exception's message and neither a response nor a file entry; any other
    exception leaves [process_single_url]. *)
Theorem unanswered_request (youtube_url : string) (save_html download_audio : bool)
    (self : t) (e : Env World) (x : exn) (w1 : World) :
  session_post (api_url self) youtube_url (world e) = (Raised x, w1) ->
  process_single_url youtube_url save_html download_audio (self, e)
  = (if is_request_exception x
     then Returned (list_to_map [("url", VStr youtube_url);
                                 ("status", VStr "error");
                                 ("error", VStr (exn_msg x))])
     else Raised x,
     (self, {| world := w1; trace := trace e ++ [HttpPost (api_url self) youtube_url] |})).
Proof.
  intros Hpost.
  assert (Hbody : process_single_url_body youtube_url save_html download_audio (self, e)
                  = (Raised x, (self, {| world := w1;
                                         trace := trace e ++ [HttpPost (api_url self) youtube_url] |}))).
  { unfold process_single_url_body.
    erewrite bind_returned; [| reflexivity].
    apply bind_raised. unfold call. cbn [fst]. now rewrite Hpost. }
  unfold process_single_url, try_except. rewrite Hbody.
  unfold process_single_url_handler. now destruct (is_request_exception x).
Qed.

(** An answer whose status code is not 200 becomes a result of status
    ["failed"] with the error ["HTTP <code>"] and the undecoded text of the
    answer; no file is written and no download is started, whatever the two
    flags say. *)
Theorem refused_request (youtube_url : string) (save_html download_audio : bool)
    (self : t) (e : Env World) (response : Response) (w1 : World) :
  session_post (api_url self) youtube_url (world e) = (Returned response, w1) ->
  status_code response <> 200%Z ->
  process_single_url youtube_url save_html download_audio (self, e)
  = (Returned (list_to_map [("url", VStr youtube_url);
                            ("status", VStr "failed");
                            ("error", VStr ("HTTP " ++ str_of_int (status_code response))%string);
                            ("response", VStr (text response))]),
     (self, {| world := w1; trace := trace e ++ [HttpPost (api_url self) youtube_url] |})).
Proof.
  intros Hpost Hcode.
  unfold process_single_url. apply try_returned.
  unfold process_single_url_body.
  erewrite bind_returned; [| reflexivity].
  erewrite bind_returned; [| unfold call; cbn [fst]; rewrite Hpost; reflexivity].
  apply Z.eqb_neq in Hcode. now rewrite Hcode.
Qed.

(** [_download_audio] never raises. It makes the directory first; when that
    fails no request is made. Otherwise it requests the link once, into the
    path [Path("audio_downloads") / "<id>_<timestamp>.<ext>"], and returns
    that path as a string when the transfer succeeds and [None] when it
    fails. *)
Theorem download_audio_outcome (audio_url video_id : string) (self : t) (e : Env World) :
  let (made, w1) := path_mkdir "audio_downloads" (world e) in
  let e1 := {| world := w1; trace := trace e ++ [Mkdir "audio_downloads"] |} in
  match made with
  | Raised _ => _download_audio audio_url video_id (self, e) = (Returned None, (self, e1))
  | Returned _ =>
      let filepath := pathlib_join "audio_downloads"
                        (video_id ++ "_" ++ time_strftime w1 ++ "." ++ audio_ext audio_url) in
      let (got, w2) := requests_get_to_file audio_url filepath w1 in
      _download_audio audio_url video_id (self, e)
      = (Returned (match got with
                   | Returned _ => Some filepath
                   | Raised _ => None
                   end),
         (self, {| world := w2; trace := trace e1 ++ [HttpGet audio_url] |}))
  end.
Proof.
  destruct (path_mkdir "audio_downloads" (world e)) as [made w1] eqn:Hmk.
  destruct made as [[] | x].
  - cbn zeta.
    destruct (requests_get_to_file audio_url _ w1) as [got w2] eqn:Hget.
    unfold _download_audio, try_except, bind, call, py_strftime, ret.
    cbn [world trace]. rewrite Hmk. cbn [world trace]. rewrite Hget.
    now destruct got.
  - unfold _download_audio, try_except, bind, call, ret. now rewrite Hmk.
Qed.

End SingleRequest.

Lemma unanswered_request_witness :
  TurboScribeBatch.process_single_url Example.video_url true true
    (TurboScribeBatch.init 1, Scripted.start Example.quiet)
  = (Returned (list_to_map [("url", VStr Example.video_url);
                            ("status", VStr "error");
                            ("error", VStr "connection refused")]),
     (TurboScribeBatch.init 1,
      {| world := Example.quiet;
         trace := [HttpPost (TurboScribeBatch.api_url (TurboScribeBatch.init 1))
                            Example.video_url] |})).
Proof.
  exact (unanswered_request Example.video_url true true (TurboScribeBatch.init 1)
           (Scripted.start Example.quiet) (RequestException "connection refused")
           Example.quiet eq_refl).
Defined.

Lemma refused_request_witness :
  TurboScribeBatch.process_single_url Example.video_url true true
    (TurboScribeBatch.init 1, Scripted.start Example.server_error)
  = (Returned (list_to_map [("url", VStr Example.video_url);
                            ("status", VStr "failed");
                            ("error", VStr "HTTP 500");
                            ("response", VStr "oops")]),
     (TurboScribeBatch.init 1,
      {| world := Example.server_error;
         trace := [HttpPost (TurboScribeBatch.api_url (TurboScribeBatch.init 1))
                            Example.video_url] |})).
Proof.
  refine (refused_request Example.video_url true true (TurboScribeBatch.init 1)
            (Scripted.start Example.server_error) Example.error_response
            Example.server_error _ _); [reflexivity | discriminate].
Defined.

(** ** The order of requests, pauses and transfers *)

Lemma rhythm_app (a b : list event) : rhythm (a ++ b) = rhythm a ++ rhythm b.
Proof. apply flat_map_app. Qed.

Lemma fetched_app (a b : list event) : fetched (a ++ b) = fetched a ++ fetched b.
Proof. apply flat_map_app. Qed.

Lemma side_work_nil (da : bool) : side_work da [].
Proof. split; reflexivity. Qed.

Lemma side_work_app (da : bool) (a b : list event) :
  side_work da a -> side_work da b -> side_work da (a ++ b).
Proof.
  intros [Ha Ha'] [Hb Hb']. split.
  - now rewrite rhythm_app, Ha, Hb.
  - intros Hda. now rewrite fetched_app, (Ha' Hda), (Hb' Hda).
Qed.

Lemma side_work_files (da : bool) (tr : list event) : side_work false tr -> side_work da tr.
Proof. intros [Hr Hf]. split; [exact Hr | intros _; now apply Hf]. Qed.

Section TraceRules.
Context {World : Type} `{Platform World} {Self : Type}.
Implicit Types (o : Self) (L : list event -> Prop).

Lemma emits_weaken {A : Type} o (m : M (Self * Env World) A)
    (Q Q' : outcome A -> list event -> Prop) :
  emits o m Q -> (forall r tr, Q r tr -> Q' r tr) -> emits o m Q'.
Proof.
  intros Hm HQ e. specialize (Hm e). destruct (m (o, e)) as [r [o' e']].
  destruct Hm as (Ho & tr & Htr & Hq). eauto.
Qed.

Lemma emits_ret {A : Type} o (a : A) (Q : outcome A -> list event -> Prop) :
  Q (Returned a) [] -> emits o (ret a : M (Self * Env World) A) Q.
Proof. intros Hq e. split; [reflexivity |]. exists []. now rewrite app_nil_r. Qed.

Lemma emits_raise {A : Type} o (x : exn) (Q : outcome A -> list event -> Prop) :
  Q (Raised x) [] -> emits o (raise x : M (Self * Env World) A) Q.
Proof. intros Hq e. split; [reflexivity |]. exists []. now rewrite app_nil_r. Qed.

Lemma emits_py_strftime o (Q : outcome string -> list event -> Prop) :
  (forall s, Q (Returned s) []) -> emits o (py_strftime : M (Self * Env World) string) Q.
Proof. intros Hq e. split; [reflexivity |]. exists []. now rewrite app_nil_r. Qed.

Lemma emits_call {A : Type} o (ev : event) (op : World -> outcome A * World)
    (Q : outcome A -> list event -> Prop) :
  (forall r, Q r [ev]) -> emits o (call ev op) Q.
Proof.
  intros Hq e. unfold call. destruct (op (world e)) as [r w'].
  split; [reflexivity |]. exists [ev]. split; [reflexivity | apply Hq].
Qed.

Lemma emits_py_sleep o (d : Q) (Q : outcome unit -> list event -> Prop) :
  Q (Returned tt) [Sleep d] -> (forall x, Q (Raised x) []) -> emits o (py_sleep d) Q.
Proof.
  intros Hr Hx e. unfold py_sleep. destruct (Qltb d 0); (split; [reflexivity |]).
  - exists []. now rewrite app_nil_r.
  - exists [Sleep d]. now split.
Qed.

Lemma emits_bind {A B : Type} o (m : M (Self * Env World) A) (k : A -> M (Self * Env World) B)
    (Q1 : outcome A -> list event -> Prop) (Q : outcome B -> list event -> Prop) :
  emits o m Q1 ->
  (forall x tr, Q1 (Raised x) tr -> Q (Raised x) tr) ->
  (forall a tr1, Q1 (Returned a) tr1 -> emits o (k a) (fun r tr2 => Q r (tr1 ++ tr2))) ->
  emits o (bind m k) Q.
Proof.
  intros Hm Hx Hk e. unfold bind. specialize (Hm e).
  destruct (m (o, e)) as [[a | x] [o' e']]; destruct Hm as (-> & tr1 & Htr1 & Hq1).
  - specialize (Hk a tr1 Hq1 e'). destruct (k a (o, e')) as [r [o'' e'']].
    destruct Hk as (-> & tr2 & Htr2 & Hq). split; [reflexivity |].
    exists (tr1 ++ tr2). split; [| exact Hq]. now rewrite Htr2, Htr1, app_assoc.
  - split; [reflexivity |]. exists tr1. auto.
Qed.

Lemma emits_bind_get_self {B : Type} o (k : Self -> M (Self * Env World) B)
    (Q : outcome B -> list event -> Prop) :
  emits o (k o) Q -> emits o (bind get_self k) Q.
Proof. intros Hk e. exact (Hk e). Qed.

Lemma emits_bind_py_strftime {B : Type} o (k : string -> M (Self * Env World) B)
    (Q : outcome B -> list event -> Prop) :
  (forall s, emits o (k s) Q) -> emits o (bind py_strftime k) Q.
Proof. intros Hk e. exact (Hk _ e). Qed.

Lemma emits_try {A : Type} o (body : M (Self * Env World) A) handler
    (Q1 Q : outcome A -> list event -> Prop) :
  emits o body Q1 ->
  (forall a tr, Q1 (Returned a) tr -> Q (Returned a) tr) ->
  (forall x tr1, Q1 (Raised x) tr1 ->
     match handler x with
     | Some h => emits o h (fun r tr2 => Q r (tr1 ++ tr2))
     | None => Q (Raised x) tr1
     end) ->
  emits o (try_except body handler) Q.
Proof.
  intros Hb Hr Hh e. unfold try_except. specialize (Hb e).
  destruct (body (o, e)) as [[a | x] [o' e']]; destruct Hb as (-> & tr1 & Htr1 & Hq1).
  - split; [reflexivity |]. exists tr1. auto.
  - specialize (Hh x tr1 Hq1). destruct (handler x) as [h |].
    + specialize (Hh e'). destruct (h (o, e')) as [r [o'' e'']].
      destruct Hh as (-> & tr2 & Htr2 & Hq). split; [reflexivity |].
      exists (tr1 ++ tr2). split; [| exact Hq]. now rewrite Htr2, Htr1, app_assoc.
    + split; [reflexivity |]. exists tr1. auto.
Qed.

Lemma emits_zoom {T A : Type} (getc : Self -> T) (setc : T -> Self -> Self) o
    (m : M (T * Env World) A) (Q : outcome A -> list event -> Prop) :
  setc (getc o) o = o -> emits (getc o) m Q -> emits o (zoom getc setc m) Q.
Proof.
  intros Hset Hm e. unfold zoom. specialize (Hm e).
  destruct (m (getc o, e)) as [r [c' e']]. destruct Hm as (-> & Hrest).
  rewrite Hset. auto.
Qed.

(** Steps that only do side work compose. *)
Lemma emits_side_bind {A B : Type} o (da : bool) (m : M (Self * Env World) A)
    (k : A -> M (Self * Env World) B) :
  emits o m (fun _ => side_work da) ->
  (forall a, emits o (k a) (fun _ => side_work da)) ->
  emits o (bind m k) (fun _ => side_work da).
Proof.
  intros Hm Hk. eapply emits_bind; [exact Hm | auto |].
  intros a tr1 H1. eapply emits_weaken; [apply Hk |].
  intros r tr2 H2. now apply side_work_app.
Qed.

Lemma emits_side_try {A : Type} o (da : bool) (body : M (Self * Env World) A) handler :
  emits o body (fun _ => side_work da) ->
  (forall x h, handler x = Some h -> emits o h (fun _ => side_work da)) ->
  emits o (try_except body handler) (fun _ => side_work da).
Proof.
  intros Hb Hh. eapply emits_try; [exact Hb | auto |].
  intros x tr1 H1. destruct (handler x) as [h |] eqn:Hx; [| exact H1].
  eapply emits_weaken; [apply (Hh x h Hx) |].
  intros r tr2 H2. now apply side_work_app.
Qed.

Lemma emits_side_ret {A : Type} o (da : bool) (a : A) :
  emits o (ret a : M (Self * Env World) A) (fun _ => side_work da).
Proof. apply emits_ret, side_work_nil. Qed.

Lemma emits_lift_outcome {A : Type} o (r : outcome A) :
  emits o (lift_outcome r : M (Self * Env World) A) (fun _ tr => tr = []).
Proof. intros e. split; [reflexivity |]. exists []. now rewrite app_nil_r. Qed.

Lemma emits_side_lift {A : Type} o (da : bool) (r : outcome A) :
  emits o (lift_outcome r : M (Self * Env World) A) (fun _ => side_work da).
Proof. intros e. split; [reflexivity |]. exists []. rewrite app_nil_r. auto using side_work_nil. Qed.

Lemma emits_side_raise {A : Type} o (da : bool) (x : exn) :
  emits o (raise x : M (Self * Env World) A) (fun _ => side_work da).
Proof. apply emits_raise, side_work_nil. Qed.

(** A step that leaves no trace. *)
Lemma emits_bind_silent {A B : Type} o (m : M (Self * Env World) A)
    (k : A -> M (Self * Env World) B) (Q : outcome B -> list event -> Prop) :
  emits o m (fun _ tr => tr = []) ->
  (forall x, Q (Raised x) []) ->
  (forall a, emits o (k a) Q) ->
  emits o (bind m k) Q.
Proof.
  intros Hm Hx Hk. eapply emits_bind; [exact Hm | |].
  - intros x tr ->. apply Hx.
  - intros a tr1 ->. exact (Hk a).
Qed.

(** The end of one iteration of a serial loop: after the request of [url],
    the pause when the URL is not the last, then the rest of the loop. *)
Lemma emits_pause_then {B : Type} o (da : bool) (d : Q) (pause_for : Self -> Q)
    (loop : M (Self * Env World) B) (total idx : nat) (url : string) (rest : list string)
    (tr1 : list event) :
  pause_for o = d ->
  (idx + length (url :: rest) = S total)%nat ->
  rhythm tr1 = [inl url] ->
  (da = false -> fetched tr1 = []) ->
  emits o loop (fun r tr => serial_requests d rest r tr /\ (da = false -> fetched tr = [])) ->
  emits o ((if (idx <? total)%nat
            then (self <- get_self ;; py_sleep (pause_for self))
            else ret tt) ;;; loop)
    (fun r tr2 => serial_requests d (url :: rest) r (tr1 ++ tr2) /\
                  (da = false -> fetched (tr1 ++ tr2) = [])).
Proof.
  intros Hd Hidx Hr1 Hf1 Hloop. cbn [length] in Hidx.
  assert (Hcut : forall x : exn,
            serial_requests (A := B) d (url :: rest) (Raised x) (tr1 ++ []) /\
            (da = false -> fetched (tr1 ++ []) = [])).
  { intros x. rewrite app_nil_r. split; [| exact Hf1].
    exists 1%nat. split; [cbn [length]; lia | exact Hr1]. }
  destruct rest as [| url2 rest'].
  - replace (idx <? total)%nat with false by (symmetry; apply Nat.ltb_ge; cbn in Hidx; lia).
    apply emits_bind_silent; [apply emits_ret; reflexivity | exact Hcut | intros _].
    eapply emits_weaken; [exact Hloop |].
    intros [a | x] tr [Hs Hf]; cbn [serial_requests] in Hs.
    + split.
      * cbn [serial_requests]. rewrite rhythm_app, Hr1, Hs. reflexivity.
      * intros Hda. now rewrite fetched_app, (Hf1 Hda), (Hf Hda).
    + destruct Hs as (k & Hk & _). cbn [length] in Hk. lia.
  - replace (idx <? total)%nat with true
      by (symmetry; apply Nat.ltb_lt; cbn [length] in Hidx; lia).
    eapply emits_bind with
      (Q1 := fun r tr => match r with
                         | Returned _ => tr = [Sleep d]
                         | Raised _ => tr = []
                         end).
    + apply emits_bind_get_self. rewrite Hd. apply emits_py_sleep; reflexivity.
    + intros x tr ->. apply Hcut.
    + intros _ tr2 ->. eapply emits_weaken; [exact Hloop |].
      intros r' tr3 [Hs Hf3]. split.
      * destruct r' as [a | x]; cbn [serial_requests] in Hs |- *.
        -- rewrite !rhythm_app, Hr1, Hs. reflexivity.
        -- destruct Hs as (k & Hk & Hs). exists (S k).
           split; [cbn [length] in Hk |- *; lia |].
           rewrite !rhythm_app, Hr1, Hs.
           destruct k as [| k]; [lia | reflexivity].
      * intros Hda. rewrite !fetched_app, (Hf1 Hda), (Hf3 Hda). reflexivity.
Qed.

End TraceRules.

Section BatchOrder.
Context {World : Type} `{Platform World}.
Import TurboScribeBatch.

Lemma emits_extract_video_id (o : t) (da : bool) (youtube_url : string) :
  emits o (_extract_video_id youtube_url) (fun _ => side_work da).
Proof.
  unfold _extract_video_id.
  repeat match goal with
         | |- emits _ (if ?b then _ else _) _ => destruct b
         | |- emits _ (match ?x with Some _ => _ | None => _ end) _ => destruct x
         end;
    first [apply emits_side_ret | apply emits_py_strftime; intros; apply side_work_nil].
Qed.

Lemma emits_save_html_response (o : t) (youtube_url html_content : string) :
  emits o (_save_html_response youtube_url html_content) (fun _ => side_work false).
Proof.
  unfold _save_html_response.
  apply emits_side_bind; [apply emits_extract_video_id | intros video_id].
  apply emits_side_bind; [apply emits_call; intros; now split | intros _].
  apply emits_bind_py_strftime. intros timestamp.
  apply emits_side_bind; [apply emits_call; intros; now split | intros _].
  apply emits_side_ret.
Qed.

Lemma emits_download_audio (o : t) (audio_url video_id : string) :
  emits o (_download_audio audio_url video_id) (fun _ => side_work true).
Proof.
  unfold _download_audio. apply emits_side_try.
  - apply emits_side_bind; [apply emits_call; intros; now split | intros _].
    apply emits_bind_py_strftime. intros timestamp.
    apply emits_side_bind; [apply emits_call; intros; now split | intros _].
    apply emits_side_ret.
  - intros x h [= <-]. apply emits_side_ret.
Qed.

(** One call of [process_single_url]: exactly one request to the endpoint,
    no sleep, and no transfer unless downloads are on. *)
Lemma emits_process_single_url (o : t) (youtube_url : string) (save_html download_audio : bool) :
  emits o (process_single_url youtube_url save_html download_audio)
    (fun _ tr => rhythm tr = [inl youtube_url] /\ (download_audio = false -> fetched tr = [])).
Proof.
  unfold process_single_url.
  eapply emits_try with (Q1 := fun _ tr => rhythm tr = [inl youtube_url] /\
                                           (download_audio = false -> fetched tr = [])).
  - unfold process_single_url_body. apply emits_bind_get_self.
    eapply emits_bind with (Q1 := fun _ tr => tr = [HttpPost (api_url o) youtube_url]).
    + apply emits_call. reflexivity.
    + intros x tr ->. now split.
    + intros response tr1 ->.
      eapply emits_weaken with (Q := fun _ => side_work download_audio).
      * destruct (status_code response =? 200)%Z; [| apply emits_side_ret].
        apply emits_side_bind; [| intros html_file].
        { destruct (save_html && str_truthy (_decode_response_content response));
            [| apply emits_side_ret].
          apply emits_side_bind; [| intros f; apply emits_side_ret].
          eapply emits_weaken; [apply emits_save_html_response |].
          intros r tr. apply side_work_files. }
        apply emits_side_bind; [| intros audio_file; apply emits_side_ret].
        destruct (download_audio && str_truthy (_decode_response_content response)) eqn:Hda;
          [| apply emits_side_ret].
        apply andb_prop in Hda as [-> _].
        apply emits_side_bind; [apply emits_side_lift | intros [link |]];
          [| apply emits_side_ret].
        destruct (str_truthy link); [| apply emits_side_ret].
        apply emits_side_bind; [apply emits_extract_video_id | intros video_id].
        apply emits_download_audio.
      * intros r tr2 [Hr Hf]. split.
        -- rewrite rhythm_app, Hr. reflexivity.
        -- intros Hda. rewrite fetched_app, (Hf Hda). reflexivity.
  - auto.
  - intros x tr1 [Hr Hf]. unfold process_single_url_handler.
    destruct (is_request_exception x); [| now split].
    apply emits_ret. now rewrite app_nil_r.
Qed.

Lemma emits_process_batch_loop (o : t) (save_html download_audio : bool)
    (urls : list string) :
  forall (total idx : nat) (results : list (gmap string value)),
    (idx + length urls = S total)%nat ->
    emits o (process_batch_loop total idx urls save_html download_audio results)
      (fun r tr => serial_requests (delay o) urls r tr /\
                   (download_audio = false -> fetched tr = [])).
Proof.
  induction urls as [| url rest IH]; intros total idx results Hidx.
  - apply emits_ret. now split.
  - cbn [process_batch_loop].
    eapply emits_bind; [apply emits_process_single_url | |].
    + intros x tr [Hr Hf]. split; [| exact Hf].
      exists 1%nat. cbn [length]. split; [lia | exact Hr].
    + intros r tr1 [Hr1 Hf1].
      apply (emits_pause_then o download_audio (delay o) delay); auto.
      apply IH. cbn [length] in Hidx. lia.
Qed.

(** [process_batch] shows on the trace as one request per URL, in the order
    of the list, with one sleep of [delay] between two successive requests
    and none after the last; when it raises, the trace is cut after one of
    the requests. With downloads off, no transfer is started. The object is
    left as it was. *)
Theorem batch_requests_in_order (o : t) (youtube_urls : list string)
    (save_html download_audio : bool) :
  emits o (process_batch youtube_urls save_html download_audio)
    (fun r tr => serial_requests (delay o) youtube_urls r tr /\
                 (download_audio = false -> fetched tr = [])).
Proof. unfold process_batch. apply emits_process_batch_loop. lia. Qed.

End BatchOrder.

Section ParallelOrder.
Context {World : Type} `{Platform World}.
Variable schedule : list nat -> list nat.
Import TurboScribeBatch ParallelAudioDownloader.

Lemma set_processor_same (o : ParallelAudioDownloader.t) : set_processor (processor o) o = o.
Proof. now destruct o. Qed.

Lemma emits_with_processor {A : Type} (o : ParallelAudioDownloader.t)
    (m : M (TurboScribeBatch.t * Env World) A) (Q : outcome A -> list event -> Prop) :
  emits (processor o) m Q -> emits o (with_processor m) Q.
Proof. intros Hm. apply emits_zoom; [apply set_processor_same | exact Hm]. Qed.

Lemma emits_download_audio_task (o : ParallelAudioDownloader.t) (r : gmap string value) :
  emits o (download_audio_task r) (fun _ => side_work true).
Proof.
  unfold download_audio_task.
  apply emits_bind_silent; [apply emits_lift_outcome | intros; apply side_work_nil |].
  intros [|]; [| apply emits_side_ret].
  destruct (r !! "url") as [url |]; [| apply emits_side_raise].
  apply emits_side_bind.
  { apply emits_with_processor. unfold _extract_video_id_dyn.
    destruct url; first [apply emits_extract_video_id
                        | apply emits_py_strftime; intros; apply side_work_nil]. }
  intros video_id.
  destruct (r !! "audio_link") as [link |]; [| apply emits_side_raise].
  apply emits_side_bind; [| intros audio_file; apply emits_side_ret].
  apply emits_with_processor. unfold _download_audio_dyn.
  destruct link; try apply emits_download_audio;
    (apply emits_side_try;
     [ apply emits_side_bind; [apply emits_call; intros; now split | intros _];
       apply emits_side_raise
     | intros x h [= <-]; apply emits_side_ret ]).
Qed.

Lemma emits_run_tasks (o : ParallelAudioDownloader.t) (order : list nat) :
  forall results, emits o (run_tasks order results) (fun _ => side_work true).
Proof.
  induction order as [| i rest IH]; intros results; cbn [run_tasks].
  - apply emits_side_ret.
  - destruct (results !! i) as [r |]; [| apply IH].
    apply emits_side_bind; [apply emits_download_audio_task | intros r'; apply IH].
Qed.

Lemma emits_resolve_loop (o : ParallelAudioDownloader.t) (urls : list string) :
  forall (total idx : nat) (results : list (gmap string value)),
    (idx + length urls = S total)%nat ->
    emits o (resolve_loop total idx urls results)
      (fun r tr => serial_requests (delay (processor o)) urls r tr /\
                   (false = false -> fetched tr = [])).
Proof.
  induction urls as [| url rest IH]; intros total idx results Hidx.
  - apply emits_ret. now split.
  - cbn [resolve_loop].
    eapply emits_bind;
      [apply emits_with_processor, emits_process_single_url | |].
    + intros x tr [Hr Hf]. split; [| exact Hf].
      exists 1%nat. cbn [length]. split; [lia | exact Hr].
    + intros r tr1 [Hr1 Hf1].
      assert (Hcut : forall x : exn,
                serial_requests (A := list (gmap string value))
                  (delay (processor o)) (url :: rest) (Raised x) (tr1 ++ []) /\
                (false = false -> fetched (tr1 ++ []) = [])).
      { intros x. rewrite app_nil_r. split; [| exact Hf1].
        exists 1%nat. split; [cbn [length]; lia | exact Hr1]. }
      apply emits_bind_silent; [apply emits_lift_outcome | exact Hcut | intros ok].
      apply emits_bind_silent; [| exact Hcut |].
      { destruct (ok && truthy (dict_get r "response")); [| apply emits_ret; reflexivity].
        destruct (r !! "response") as [[| |response] |];
          first [ apply emits_ret; reflexivity
                | apply emits_raise; reflexivity
                | apply emits_bind_silent;
                  [ apply emits_lift_outcome
                  | reflexivity
                  | intros audio_link; apply emits_ret; reflexivity ] ]. }
      intros result.
      apply (emits_pause_then o false (delay (processor o))
               (fun self => delay (processor self))); auto.
      apply IH. cbn [length] in Hidx. lia.
Qed.


End ParallelOrder.

(** ** Answers of the endpoint *)

Section Answers.
Context {World : Type} `{Platform World}.
Import TurboScribeBatch.

(** With both flags off, or with an empty body, a 200 answer gives a result
    of status ["success"] whose two file entries are [None]; nothing is
    written and nothing is transferred. *)
Theorem nothing_to_save (youtube_url : string) (save_html download_audio : bool)
    (self : t) (e : Env World) (response : Response) (w1 : World) :
  let decoded := _decode_response_content response in
  session_post (api_url self) youtube_url (world e) = (Returned response, w1) ->
  status_code response = 200%Z ->
  save_html && str_truthy decoded = false ->
  download_audio && str_truthy decoded = false ->
  process_single_url youtube_url save_html download_audio (self, e)
  = (Returned (list_to_map [("url", VStr youtube_url);
                            ("status", VStr "success");
                            ("response", VStr decoded);
                            ("status_code", VInt 200);
                            ("html_file", VNone);
                            ("audio_file", VNone)]),
     (self, {| world := w1; trace := trace e ++ [HttpPost (api_url self) youtube_url] |})).
Proof.
  intros decoded Hpost Hcode Hsave Hdown.
  unfold process_single_url. apply try_returned.
  unfold process_single_url_body.
  erewrite bind_returned; [| reflexivity].
  erewrite bind_returned; [| unfold call; cbn [world trace fst]; rewrite Hpost; reflexivity].
  rewrite Hcode. cbn [Z.eqb Pos.eqb]. fold decoded. rewrite Hsave, Hdown.
  reflexivity.
Qed.

(** A link found in a 200 answer is requested once, after the directory is
    made, into [Path("audio_downloads") / "<id>_<timestamp>.<ext>"]. The
    result has status ["success"] whether the transfer succeeds or not: its
    [audio_file] is that path after a transfer that succeeded and [None]
    after one that failed. *)
Theorem resolved_link_is_fetched (youtube_url : string) (self : t) (e : Env World)
    (response : Response) (w1 w2 w3 : World) (link video_id : string) (got : outcome Z) :
  let decoded := _decode_response_content response in
  let e1 := {| world := w1; trace := trace e ++ [HttpPost (api_url self) youtube_url] |} in
  let filepath := pathlib_join "audio_downloads"
                    (video_id ++ "_" ++ time_strftime w2 ++ "." ++ audio_ext link) in
  session_post (api_url self) youtube_url (world e) = (Returned response, w1) ->
  status_code response = 200%Z ->
  str_truthy decoded = true ->
  _extract_audio_link decoded = Returned (Some link) ->
  str_truthy link = true ->
  _extract_video_id youtube_url (self, e1) = (Returned video_id, (self, e1)) ->
  path_mkdir "audio_downloads" w1 = (Returned tt, w2) ->
  requests_get_to_file link filepath w2 = (got, w3) ->
  process_single_url youtube_url false true (self, e)
  = (Returned (list_to_map [("url", VStr youtube_url);
                            ("status", VStr "success");
                            ("response", VStr decoded);
                            ("status_code", VInt 200);
                            ("html_file", VNone);
                            ("audio_file", match got with
                                           | Returned _ => VStr filepath
                                           | Raised _ => VNone
                                           end)]),
     (self, {| world := w3;
               trace := ((trace e ++ [HttpPost (api_url self) youtube_url])
                         ++ [Mkdir "audio_downloads"]) ++ [HttpGet link] |})).
Proof.
  intros decoded e1 filepath Hpost Hcode Hbody Hlink Htruthy Hid Hmk Hget.
  assert (Haudio : _download_audio link video_id (self, e1)
                   = (Returned (match got with
                                | Returned _ => Some filepath
                                | Raised _ => None
                                end),
                      (self, {| world := w3;
                                trace := (trace e1 ++ [Mkdir "audio_downloads"])
                                         ++ [HttpGet link] |}))).
  { unfold e1, _download_audio, try_except, bind, call, py_strftime, ret.
    cbn [world trace]. rewrite Hmk. cbn [world trace]. fold filepath. rewrite Hget.
    now destruct got. }
  unfold process_single_url. apply try_returned.
  unfold process_single_url_body.
  erewrite bind_returned; [| reflexivity].
  erewrite bind_returned; [| unfold call; cbn [world trace fst]; rewrite Hpost; reflexivity].
  rewrite Hcode. cbn [Z.eqb Pos.eqb]. fold decoded. fold e1.
  rewrite Hbody, Hlink. cbn [andb].
  erewrite bind_returned; [| reflexivity].
  erewrite bind_returned.
  2: { erewrite bind_returned; [| reflexivity].
       cbv beta iota. rewrite Htruthy.
       erewrite bind_returned; [exact Haudio | exact Hid]. }
  now destruct got.
Qed.

(** The batch summary needs a ['status'] in every result: it raises KeyError
    exactly when some result has none, and prints nothing then. *)
Theorem summary_needs_status (results : list (gmap string value)) :
  print_summary results = Raised (OtherException "KeyError: 'status'")
  <-> Exists (fun r => r !! "status" = None) results.
Proof.
  assert (Hcount : forall rs,
            match count_success rs with
            | Returned _ => Forall (fun r => is_Some (r !! "status")) rs
            | Raised x => x = OtherException "KeyError: 'status'" /\
                          Exists (fun r => r !! "status" = None) rs
            end).
  { induction rs as [| r rs IH]; cbn [count_success]; [constructor |].
    unfold status_is_success.
    destruct (r !! "status") as [v |] eqn:Hv.
    - assert (Hr : is_Some (r !! "status")) by (rewrite Hv; eauto).
      destruct (count_success rs) as [n | x].
      + destruct v; now constructor.
      + destruct IH as [-> IH]. destruct v; (split; [reflexivity | now apply Exists_cons_tl]).
    - split; [reflexivity | now apply Exists_cons_hd]. }
  unfold print_summary. specialize (Hcount results).
  destruct (count_success results) as [n | x].
  - split; [discriminate |]. intros Hex.
    apply Exists_exists in Hex as (r & Hin & Hnone).
    rewrite Forall_forall in Hcount. destruct (Hcount r Hin) as [v Hv]. congruence.
  - destruct Hcount as [-> Hex]. split; auto.
Qed.

End Answers.

Lemma nothing_to_save_witness :
  TurboScribeBatch.process_single_url Example.video_url true true
    (TurboScribeBatch.init 1, Scripted.start Example.empty_answer)
  = (Returned (list_to_map [("url", VStr Example.video_url);
                            ("status", VStr "success");
                            ("response", VStr "");
                            ("status_code", VInt 200);
                            ("html_file", VNone);
                            ("audio_file", VNone)]),
     (TurboScribeBatch.init 1,
      {| world := Example.empty_answer;
         trace := [HttpPost (TurboScribeBatch.api_url (TurboScribeBatch.init 1))
                            Example.video_url] |})).
Proof.
  refine (nothing_to_save Example.video_url true true (TurboScribeBatch.init 1)
            (Scripted.start Example.empty_answer) Example.empty_response
            Example.empty_answer _ _ _ _); reflexivity.
Defined.

Lemma resolved_link_is_fetched_witness :
  HtmlPages.feed Example.linked_body
  = Some [("p", []); ("a", [("class", Some "btn"); ("href", Some Example.linked_url)])] /\
  exists r s',
    TurboScribeBatch.process_single_url Example.video_url false true
      (TurboScribeBatch.init 1, Scripted.start Example.with_link)
    = (Returned r, s') /\
    r !! "status" = Some (VStr "success") /\
    r !! "audio_file" = Some (VStr "audio_downloads/abc_20240101_120000.weba") /\
    trace (snd s')
    = [HttpPost (TurboScribeBatch.api_url (TurboScribeBatch.init 1)) Example.video_url;
       Mkdir "audio_downloads"; HttpGet Example.linked_url].
Proof.
  split; [reflexivity |].
  eexists. eexists. split.
  - refine (resolved_link_is_fetched Example.video_url (TurboScribeBatch.init 1)
              (Scripted.start Example.with_link) Example.linked_response
              Example.with_link Example.with_link
              (Scripted.add_file "audio_downloads/abc_20240101_120000.weba" Example.with_link)
              Example.linked_url "abc" (Returned 1234%Z) _ _ _ _ _ _ _ _); reflexivity.
  - repeat split; reflexivity.
Defined.

(** ** The download tasks *)

Lemma returns_of_hoare {World Self A : Type} (m : M (Self * Env World) A) :
  hoare (fun _ => True) m (fun _ _ => True) (fun _ _ => False) ->
  forall o e, exists a s', m (o, e) = (Returned a, s').
Proof.
  intros Hm o e. specialize (Hm o e I).
  destruct (m (o, e)) as [[a | x] [o' e']]; [eauto | contradiction].
Qed.

Lemma same_but_audio_file_refl (r : gmap string value) : same_but_audio_file r r.
Proof. now intros k _. Qed.

Lemma same_but_audio_file_insert (r : gmap string value) (v : value) :
  same_but_audio_file r (<["audio_file" := v]> r).
Proof. intros k Hk. now rewrite lookup_insert_ne. Qed.

Lemma same_but_audio_file_chain (l k m : list (gmap string value)) :
  Forall2 same_but_audio_file l k -> Forall2 same_but_audio_file k m ->
  Forall2 same_but_audio_file l m.
Proof.
  intros Hlk. revert m. induction Hlk as [| x y l k Hxy _ IH]; intros m Hkm.
  - inversion Hkm. constructor.
  - inversion Hkm as [| y' z k' m' Hyz Hrest]; subst. constructor; [| now apply IH].
    intros key Hkey. now rewrite (Hyz key Hkey), (Hxy key Hkey).
Qed.

Lemma task_input_same (r r' : gmap string value) :
  same_but_audio_file r r' -> task_input r -> task_input r'.
Proof.
  intros Hsame [Hs Hu]. split; rewrite Hsame; auto; discriminate.
Qed.

Section TaskFacts.
Context {World : Type} `{Platform World}.
Import TurboScribeBatch ParallelAudioDownloader.

Lemma with_processor_returns {A : Type} (m : M (TurboScribeBatch.t * Env World) A) :
  (forall c e, exists a s', m (c, e) = (Returned a, s')) ->
  forall o e, exists a s', with_processor m (o, e) = (Returned a, s').
Proof.
  intros Hm o e. unfold with_processor, zoom.
  destruct (Hm (processor o) e) as (a & [c' e'] & ->). eauto.
Qed.

Lemma extract_video_id_dyn_returns (v : value) (c : TurboScribeBatch.t) (e : Env World) :
  exists a s', _extract_video_id_dyn v (c, e) = (Returned a, s').
Proof.
  destruct v; cbn [_extract_video_id_dyn]; try (eexists; eexists; reflexivity).
  apply returns_of_hoare, hoare_extract_video_id.
Qed.

Lemma download_audio_dyn_returns (v : value) (video_id : string)
    (c : TurboScribeBatch.t) (e : Env World) :
  exists a s', _download_audio_dyn v video_id (c, e) = (Returned a, s').
Proof.
  destruct v; cbn [_download_audio_dyn];
    try (unfold try_except, bind, call, raise, ret;
         destruct (path_mkdir "audio_downloads" (world e)) as [[[] | x] w'];
         eexists; eexists; reflexivity).
  apply returns_of_hoare, hoare_download_audio.
Qed.

(** A task returns its dictionary, as it was or with ['audio_file'] set. *)
Lemma download_audio_task_result (r : gmap string value)
    (o : ParallelAudioDownloader.t) (e : Env World) :
  task_input r ->
  exists r' s', download_audio_task r (o, e) = (Returned r', s') /\
                same_but_audio_file r r'.
Proof.
  intros [Hstatus [url Hurl]]. unfold download_audio_task.
  erewrite bind_returned;
    [| unfold lift_outcome, is_download_task;
       rewrite (status_is_success_returns r Hstatus); reflexivity].
  destruct (succeeded r && truthy (dict_get r "audio_link")) eqn:Htask.
  - apply andb_prop in Htask as [_ Hlink].
    apply truthy_dict_get in Hlink as (link & Hlink & _).
    rewrite Hurl, Hlink.
    destruct (with_processor_returns _ (extract_video_id_dyn_returns url) o e)
      as (video_id & [o1 e1] & Hid).
    erewrite bind_returned; [| exact Hid].
    destruct (with_processor_returns _ (download_audio_dyn_returns link video_id) o1 e1)
      as (audio_file & s2 & Haudio).
    erewrite bind_returned; [| exact Haudio].
    eexists. eexists. split; [reflexivity | apply same_but_audio_file_insert].
  - eexists. eexists. split; [reflexivity | apply same_but_audio_file_refl].
Qed.

(** In whatever order the tasks complete, step 2 returns the list it was
    given with nothing changed but ['audio_file'] entries: every dictionary
    stays at its position and keeps its other keys, and a position that is
    not scheduled keeps its dictionary as it was. *)
Theorem tasks_only_set_audio_file (order : list nat) (results : list (gmap string value))
    (o : ParallelAudioDownloader.t) (e : Env World) :
  Forall task_input results ->
  exists rs s',
    run_tasks order results (o, e) = (Returned rs, s') /\
    Forall2 same_but_audio_file results rs /\
    forall j, ~ In j order -> rs !! j = results !! j.
Proof.
  revert results o e. induction order as [| i order IH]; intros results o e Hin.
  - exists results, (o, e). split; [reflexivity |]. split; [| reflexivity].
    apply Forall_Forall2_diag. apply Forall_forall. intros r _.
    apply same_but_audio_file_refl.
  - cbn [run_tasks]. destruct (results !! i) as [r |] eqn:Hi.
    + assert (Hr : task_input r).
      { exact (Forall_lookup_1 _ _ _ _ Hin Hi). }
      destruct (download_audio_task_result r o e Hr) as (r' & [o1 e1] & Hrun & Hsame).
      erewrite bind_returned; [| exact Hrun].
      assert (Hstep : Forall2 same_but_audio_file results (<[i := r']> results)).
      { rewrite <- (list_insert_id results i r Hi) at 1.
        apply Forall2_insert; [| exact Hsame].
        apply Forall_Forall2_diag. apply Forall_forall. intros x _.
        apply same_but_audio_file_refl. }
      assert (Hin' : Forall task_input (<[i := r']> results)).
      { apply Forall_insert; [exact Hin | apply (task_input_same r r' Hsame Hr)]. }
      destruct (IH (<[i := r']> results) o1 e1 Hin') as (rs & s' & Hrest & Hall & Hout).
      exists rs, s'. split; [exact Hrest |]. split.
      * exact (same_but_audio_file_chain _ _ _ Hstep Hall).
      * intros j Hj. rewrite Hout by (intros Hq; apply Hj; now right).
        apply list_lookup_insert_ne. intros ->. apply Hj. now left.
    + destruct (IH results o e Hin) as (rs & s' & Hrest & Hall & Hout).
      exists rs, s'. split; [exact Hrest |]. split; [exact Hall |].
      intros j Hj. apply Hout. intros Hq. apply Hj. now right.
Qed.

Section Pool.
Variable schedule : list nat -> list nat.

(** The worker bound is only looked at when there is something to download,
    and only after every URL has been resolved: with a bound that is not
    positive, the call returns the results when no result carries a link, and
    otherwise raises ValueError after the whole resolution, which loses the
    results. *)
Theorem worker_bound_checked_late (urls : list string) (o : ParallelAudioDownloader.t)
    (e : Env World) (results : list (gmap string value))
    (s1 : ParallelAudioDownloader.t * Env World) (tasks : list nat) :
  resolve_loop (length urls) 1 urls [] (o, e) = (Returned results, s1) ->
  task_indices results = Returned tasks ->
  (max_workers o <= 0)%Z ->
  process_with_parallel_download schedule urls (o, e)
  = (match tasks with
     | [] => Returned results
     | _ :: _ => Raised (OtherException "max_workers must be greater than 0")
     end, s1).
Proof.
  intros Hres Htasks Hbound.
  assert (Ho : fst s1 = o).
  { pose proof (emits_resolve_loop o urls (length urls) 1 [] eq_refl e) as Hloop.
    rewrite Hres in Hloop. destruct s1 as [o1 e1]. apply Hloop. }
  unfold process_with_parallel_download.
  erewrite bind_returned; [| exact Hres].
  erewrite bind_returned; [| unfold lift_outcome; rewrite Htasks; reflexivity].
  destruct tasks as [| i tasks]; [reflexivity |].
  destruct s1 as [o1 e1]. cbn [fst] in Ho. subst o1.
  erewrite bind_returned; [| reflexivity]. cbn [fst].
  apply Z.leb_le in Hbound. now rewrite Hbound.
Qed.

End Pool.

End TaskFacts.

Lemma tasks_only_set_audio_file_witness :
  Forall task_input Example.resolved_results /\
  exists rs s',
    ParallelAudioDownloader.run_tasks [1; 0]%nat Example.resolved_results
      (ParallelAudioDownloader.init (TurboScribeBatch.init 1) None,
       Scripted.start Example.with_link)
    = (Returned rs, s') /\
    Forall2 same_but_audio_file Example.resolved_results rs /\
    rs !! 1%nat = Example.resolved_results !! 1%nat /\
    (rs !! 0%nat) ≫= (fun r => r !! "audio_file")
    = Some (VStr "audio_downloads/abc_20240101_120000.weba") /\
    trace (snd s') = [Mkdir "audio_downloads"; HttpGet Example.linked_url].
Proof.
  assert (Hin : Forall task_input Example.resolved_results).
  { repeat constructor; eexists; reflexivity. }
  split; [exact Hin |].
  destruct (tasks_only_set_audio_file [1; 0]%nat Example.resolved_results
              (ParallelAudioDownloader.init (TurboScribeBatch.init 1) None)
              (Scripted.start Example.with_link) Hin) as (rs & s' & Hrun & Hall & _).
  exists rs, s'. split; [exact Hrun |]. split; [exact Hall |].
  vm_compute in Hrun. injection Hrun as <- <-.
  repeat split; vm_compute; reflexivity.
Defined.

Lemma worker_bound_checked_late_witness :
  fst (ParallelAudioDownloader.process_with_parallel_download (fun l => l)
         [Example.video_url]
         (ParallelAudioDownloader.init (TurboScribeBatch.init 1) (Some 0%Z),
          Scripted.start Example.with_link))
  = Raised (OtherException "max_workers must be greater than 0").
Proof.
  erewrite (worker_bound_checked_late (fun l => l) [Example.video_url]
              (ParallelAudioDownloader.init (TurboScribeBatch.init 1) (Some 0%Z))
              (Scripted.start Example.with_link) _ _ [0%nat]);
    [reflexivity | reflexivity | reflexivity | cbn; lia].
Defined.
